(** * Scoring and dashboard core of the HubSpot / TrackerRMS attribution app

    A shallow embedding of [ScoringService] (scoring/scoring-service.js), of
    [DashboardService] (dashboards/dashboard-service.js) and of the card
    builders of [CRMCardService] (crm-cards/crm-card-service.js).

    Conventions of the embedding.

    - Numbers.  The scores are integers and the timestamps are integer
      milliseconds; a JavaScript number is an exact rational ([Q]) and
      [Math.round] yields an integer ([Z]) in [ScoringService] and
      [DashboardService].  This leaves out the rounding of binary64
      arithmetic, [NaN] and the infinities.  Where a result depends on them
      (the margin proxy of [calculateROIScore], its sign, and the weighted
      sum of [calculateOverallScore] on arbitrary amounts and weights) the
      functions are modelled a second time, in module [Binary64], on
      IEEE-754 doubles with the operations rounded to nearest-even, [NaN],
      the infinities and the signed zeros.  What is stated over [Q] is what
      the rounding leaves alone: ranges, orderings, counts and sums in the
      order of the source; an identity between sums taken in different
      orders is stated for whole amounts ([whole_amounts]), whose sums are
      exact in binary64 arithmetic, and a range that an overflow would
      break is stated for amounts that cannot overflow.
    - A reference that may be [undefined] or [null] is a [nullable]; an
      optional numeric or string field of an object is an [option].
    - A thrown exception is the [Throw] outcome of a [completion];
      [try_catch] is the source's [try { } catch { }].
    - A plain object used as a dictionary is the list of its own properties
      in the order of their creation; a lookup that finds no own property
      goes on to [Object.prototype], and [Object.keys], [Object.values] and
      [Object.entries] list the own properties in JavaScript's property
      order.  Every call starts from a runtime whose [Object.prototype] has
      its built-in members only; what a call leaves on [Object.prototype] or
      on its members is not carried over to the next call.
    - Calls to the logger have no effect on results and are left out, except
      that the arguments they evaluate are evaluated. *)

From Stdlib Require Import QArith Qabs Qround Qminmax ZArith Lia Lqa Ascii String.
From Stdlib Require Import Sorting.Sorted.
From Stdlib Require Floats.SpecFloat.
From stdpp Require Import gmap strings list fin_maps.

Local Open Scope Z_scope.

(** ** JavaScript values *)

Inductive nullable (A : Type) : Type :=
| Undefined : nullable A
| Null : nullable A
| Obj (a : A) : nullable A.
Arguments Undefined {A}.
Arguments Null {A}.
Arguments Obj {A} a.

Inductive js_error : Type := TypeError | RangeError.

Inductive completion (A : Type) : Type :=
| Normal (a : A) : completion A
| Throw (e : js_error) : completion A.
Arguments Normal {A} a.
Arguments Throw {A} e.

#[global] Instance completion_ret : MRet completion := fun A a => Normal a.

#[global] Instance completion_bind : MBind completion := fun A B k c =>
  match c with
  | Normal a => k a
  | Throw e => Throw e
  end.

Definition try_catch {A} (body : completion A) (handler : js_error -> A) : A :=
  match body with
  | Normal a => a
  | Throw e => handler e
  end.

(** [for (const x of xs) body] with a body that may throw. *)
Fixpoint for_of {S A} (body : S -> A -> completion S) (s : S) (xs : list A)
    : completion S :=
  match xs with
  | [] => mret s
  | x :: xs' => s' ← body s x; for_of body s' xs'
  end.

(** [Math.round]: nearest integer, a tie going towards plus infinity. *)
Definition Math_round (x : Q) : Z := Qfloor (x + (1 # 2))%Q.

(** ** Plain objects used as dictionaries

    The own properties of an object, in the order of their creation. *)

Fixpoint entry_get {V} (k : string) (o : list (string * V)) : option V :=
  match o with
  | [] => None
  | (k', v) :: o' => if String.eqb k k' then Some v else entry_get k o'
  end.

(** [o[k] = v] for a key [o] does not have yet. *)
Definition entry_add {V} (k : string) (v : V) (o : list (string * V))
    : list (string * V) :=
  o ++ [(k, v)].

(** An update in place of the object stored under [k]. *)
Fixpoint entry_alter {V} (f : V -> V) (k : string) (o : list (string * V))
    : list (string * V) :=
  match o with
  | [] => []
  | (k', v) :: o' =>
      if String.eqb k k' then (k', f v) :: o' else (k', v) :: entry_alter f k o'
  end.

(** The members of [Object.prototype] (Node.js).  On an object that has no
    own property of such a name, [o[k]] is the inherited member: a function,
    or [Object.prototype] itself for ["__proto__"]; in either case a truthy
    object. *)
Definition Object_prototype_names : list string :=
  ["constructor"; "__defineGetter__"; "__defineSetter__"; "hasOwnProperty";
   "__lookupGetter__"; "__lookupSetter__"; "isPrototypeOf";
   "propertyIsEnumerable"; "toString"; "valueOf"; "__proto__";
   "toLocaleString"].

Definition inherited (k : string) : bool :=
  existsb (String.eqb k) Object_prototype_names.

(** The value of a string of decimal digits. *)
Fixpoint decimal_value (s : string) (acc : N) : option N :=
  match s with
  | EmptyString => Some acc
  | String c s' =>
      let d := N_of_ascii c in
      if ((48 <=? d) && (d <=? 57))%N
      then decimal_value s' (acc * 10 + (d - 48))%N
      else None
  end.

(** An array index: the canonical decimal numeral of an integer from 0 to
    2^32 - 2. *)
Definition array_index (k : string) : option N :=
  match k with
  | EmptyString => None
  | String "0"%char EmptyString => Some 0%N
  | String "0"%char _ => None
  | _ =>
      match decimal_value k 0 with
      | Some n => if (n <? 4294967295)%N then Some n else None
      | None => None
      end
  end.

Fixpoint insert_index {A} (n : N) (x : A) (sorted : list (N * A))
    : list (N * A) :=
  match sorted with
  | [] => [(n, x)]
  | (m, y) :: rest =>
      if (n <? m)%N then (n, x) :: sorted else (m, y) :: insert_index n x rest
  end.

(** The order in which JavaScript lists the own properties of an object
    (OrdinaryOwnPropertyKeys): first the array indices, in ascending
    numeric order, then the other strings, in the order of creation.  [l]
    holds the properties in the order of creation, [key] gives their
    names. *)
Definition own_property_order {A} (key : A -> string) (l : list A) : list A :=
  (snd <$> foldl (fun sorted x =>
                    match array_index (key x) with
                    | Some n => insert_index n x sorted
                    | None => sorted
                    end) [] l)
  ++ filter (fun x => array_index (key x) = None) l.

Definition Object_keys {V} (o : list (string * V)) : list string :=
  fst <$> own_property_order fst o.

Definition Object_values {V} (o : list (string * V)) : list V :=
  snd <$> own_property_order fst o.

Definition Object_entries {V} (o : list (string * V)) : list (string * V) :=
  own_property_order fst o.

(** ** Dates

    The value of a timestamp property.  The falsy values are told apart,
    because [a || b] hands the second operand on as it is and the [Date]
    constructor reads [null], [false] and [0] as the epoch.  A truthy value
    (a date string, a [Date], a number other than 0) is one the constructor
    cannot parse, or one it reads as a time value in milliseconds since the
    epoch. *)

Inductive date_input : Type :=
| Unparsable : date_input
| Instant (ms : Z) : date_input.

Inductive date_field : Type :=
| Absent : date_field          (* the property is missing, or [undefined] *)
| IsNull : date_field          (* [null] *)
| IsFalse : date_field         (* [false] *)
| IsZero : date_field          (* [0] or [-0] *)
| IsNaN : date_field           (* [NaN] *)
| IsEmpty : date_field         (* the empty string *)
| Given (v : date_input) : date_field.

(** [a || b] on two timestamp properties. *)
Definition or_field (a b : date_field) : date_field :=
  match a with
  | Given _ => a
  | _ => b
  end.

(** A [Date] object is its time value; [None] is the Invalid Date. *)
Definition Date : Type := option Z.

(** A time value beyond 8.64e15 ms on either side of the epoch gives the
    Invalid Date. *)
Definition TimeClip (ms : Z) : Date :=
  if Z.abs ms <=? 8640000000000000 then Some ms else None.

(** [new Date(v)] *)
Definition new_Date (v : date_field) : Date :=
  match v with
  | Given (Instant ms) => TimeClip ms
  | Given Unparsable => None
  | Absent => None
  | IsNull => Some 0
  | IsFalse => Some 0
  | IsZero => Some 0
  | IsNaN => None
  | IsEmpty => None
  end.

Definition getTime (d : Date) : option Z := d.

(** [n] decimal digits of [v], most significant first. *)
Fixpoint digits (n : nat) (v : Z) (acc : string) : string :=
  match n with
  | O => acc
  | S n' =>
      digits n' (v / 10)
        (String (Ascii.ascii_of_nat (48 + Z.to_nat (v mod 10))) acc)
  end.

(** Proleptic Gregorian year and month of a day number counted from
    1970-01-01 (the civil-from-days computation behind the UTC getters). *)
Definition year_month_day (days : Z) : Z * Z * Z :=
  let z := days + 719468 in
  let era := z / 146097 in
  let doe := z - era * 146097 in
  let yoe := (doe - doe / 1460 + doe / 36524 - doe / 146096) / 365 in
  let doy := doe - (365 * yoe + yoe / 4 - yoe / 100) in
  let mp := (5 * doy + 2) / 153 in
  let d := doy - (153 * mp + 2) / 5 + 1 in
  let m := if mp <? 10 then mp + 3 else mp - 9 in
  let y := yoe + era * 400 + (if m <=? 2 then 1 else 0) in
  (y, m, d).

Definition iso_year (y : Z) : string :=
  if (0 <=? y) && (y <=? 9999) then digits 4 y ""
  else String (if y <? 0 then "-"%char else "+"%char) (digits 6 (Z.abs y) "").

Definition iso_string (ms : Z) : string :=
  let '(y, m, d) := year_month_day (ms / 86400000) in
  let r := ms mod 86400000 in
  iso_year y +:+ "-" +:+ digits 2 m "" +:+ "-" +:+ digits 2 d "" +:+ "T"
    +:+ digits 2 (r / 3600000) "" +:+ ":" +:+ digits 2 (r / 60000 mod 60) ""
    +:+ ":" +:+ digits 2 (r / 1000 mod 60) "" +:+ "."
    +:+ digits 3 (r mod 1000) "" +:+ "Z".

(** [d.toISOString()] throws a RangeError on the Invalid Date. *)
Definition toISOString (d : Date) : completion string :=
  match d with
  | Some ms => Normal (iso_string ms)
  | None => Throw RangeError
  end.

(** ** Records *)

Record Job : Type := mkJob {
  job_createdAt : date_field;
  openDate : date_field
}.

Record Attribution : Type := mkAttribution {
  marketingCost : option Q;
  salesCost : option Q
}.

Record Placement : Type := mkPlacement {
  serviceLine : option string;
  startDate : date_field;
  createdAt : date_field;
  revenue : option Q;
  margin : option Q;
  velocityScore : option Q;
  job : nullable Job;
  attribution : nullable Attribution
}.

(** [{}] *)
Definition empty_attribution : Attribution := mkAttribution None None.

(** [x || 0] on an optional numeric field. *)
Definition or_zero (x : option Q) : Q := default 0%Q x.

(** Truthiness of an optional numeric field: present and not zero. *)
Definition truthy_number (x : option Q) : option Q :=
  match x with
  | Some v => if Qeq_bool v 0 then None else Some v
  | None => None
  end.

(** Reading a property of [o] throws a TypeError when [o] is [null]; an
    [undefined] argument has already been replaced by the default. *)
Definition with_default {A} (dflt : A) (o : nullable A) : completion A :=
  match o with
  | Undefined => Normal dflt
  | Null => Throw TypeError
  | Obj a => Normal a
  end.

(** ** ScoringService (scoring/scoring-service.js) *)

Module ScoringService.

Definition ms_per_day : Q := 1000 * 60 * 60 * 24.

Definition daysBetween (placementDate jobCreatedDate : Z) : Q :=
  (inject_Z (placementDate - jobCreatedDate) / ms_per_day)%Q.

Definition calculateVelocityScore
    (placement : nullable Placement) (job : nullable Job) : Z :=
  match placement, job with
  | Obj placement, Obj job =>
      try_catch
        (let jobCreatedDate := new_Date (or_field (job_createdAt job) (openDate job)) in
         let placementDate :=
           new_Date (or_field (startDate placement) (createdAt placement)) in
         match getTime jobCreatedDate, getTime placementDate with
         | Some jt, Some pt =>
             let daysToFill := daysBetween pt jt in
             if Qlt_le_dec daysToFill 0 then
               _ ← toISOString jobCreatedDate;
               _ ← toISOString placementDate;
               mret 100
             else
               let score := Qmax 10 (Qmin 100 (100 - daysToFill * 2)) in
               mret (Math_round score)
         | _, _ => mret 0
         end)
        (fun _ => 0)
  | _, _ => 0
  end.

Definition calculateROIScore
    (placement : nullable Placement) (attributionData : nullable Attribution) : Z :=
  match placement with
  | Obj placement =>
      try_catch
        (let revenue := or_zero (revenue placement) in
         let margin := or_zero (margin placement) in
         attributionData ← with_default empty_attribution attributionData;
         let marketingCost := or_zero (marketingCost attributionData) in
         let salesCost := or_zero (salesCost attributionData) in
         let totalCost := (marketingCost + salesCost)%Q in
         if Qeq_bool totalCost 0 then
           let marginPercentage :=
             if Qlt_le_dec 0 revenue then (margin / revenue * 100)%Q else 0%Q in
           mret (Z.min 100 (Math_round (marginPercentage * 2)))
         else
           let roi := ((revenue - totalCost) / totalCost * 100)%Q in
           let score := Z.min 100 (Z.max 0 (Math_round (roi / 5))) in
           mret score)
        (fun _ => 0)
  | _ => 0
  end.

(** A weights object: its own enumerable properties, in the order
    [Object.values] lists them. *)
Definition Weights : Type := list (string * Q).

Definition weight_values (w : Weights) : list Q := map snd w.

Fixpoint prop (k : string) (w : Weights) : option Q :=
  match w with
  | [] => None
  | (k', v) :: w' => if String.eqb k k' then Some v else prop k w'
  end.

(** [xs.reduce((a, b) => a + b, 0)] *)
Definition sum_reduce (xs : list Q) : Q := fold_left Qplus xs 0%Q.

Definition default_weights : Weights :=
  [("velocity", 4 # 10); ("roi", 6 # 10)]%Q.

Definition normalizeWeights (weights : Weights) : Q * Q :=
  let total := sum_reduce (weight_values weights) in
  if Qeq_bool total 0 then (1 # 2, 1 # 2)%Q
  else ((or_zero (prop "velocity" weights) / total)%Q,
        (or_zero (prop "roi" weights) / total)%Q).

Definition calculateOverallScore
    (velocityScore roiScore : Q) (weights : option Weights) : Z :=
  let weights := default default_weights weights in
  let normalizedWeights := normalizeWeights weights in
  Math_round (velocityScore * fst normalizedWeights
              + roiScore * snd normalizedWeights)%Q.

Definition getScoreTier (score : Q) : string :=
  if Qle_bool 90 score then "excellent"
  else if Qle_bool 75 score then "good"
  else if Qle_bool 50 score then "average"
  else if Qle_bool 25 score then "below_average"
  else "poor".

(** The object [{...placement, velocityScore, roiScore, overallScore}]: the
    three score properties shadow whatever the placement carried under the
    same names; every other property is read from the placement. *)
Module Scored.
Record t : Type := mk {
  placement : Placement;
  velocityScore : Z;
  roiScore : Z;
  overallScore : Z
}.
End Scored.

Definition batchCalculateScores (placements : list Placement) : list Scored.t :=
  map (fun placement =>
         let velocityScore := calculateVelocityScore (Obj placement) (job placement) in
         let roiScore := calculateROIScore (Obj placement) (attribution placement) in
         let overallScore :=
           calculateOverallScore (inject_Z velocityScore) (inject_Z roiScore) None in
         Scored.mk placement velocityScore roiScore overallScore)
      placements.

(** [placement.serviceLine || 'Unassigned']: the empty string is falsy. *)
Definition line_key (placement : Placement) : string :=
  match serviceLine placement with
  | Some "" => "Unassigned"
  | Some s => s
  | None => "Unassigned"
  end.

(** [xs.reduce((a, b) => a + b, 0) / xs.length] *)
Definition mean (xs : list Q) : Q :=
  (sum_reduce xs / inject_Z (Z.of_nat (length xs)))%Q.

(** A group while it is being accumulated, still holding [velocityScores]. *)
Record LineData : Type := mkLineData {
  data_serviceLine : string;
  data_placementCount : nat;
  data_totalRevenue : Q;
  data_totalMargin : Q;
  data_averageVelocity : Z;
  velocityScores : list Q
}.

(** A group as returned, after [delete data.velocityScores]. *)
Record AttributionSummary : Type := mkSummary {
  summary_serviceLine : string;
  placementCount : nat;
  totalRevenue : Q;
  totalMargin : Q;
  averageVelocity : Z
}.

Definition new_line (serviceLine : string) : LineData :=
  mkLineData serviceLine 0 0 0 0 [].

(** The updates of the first loop, on the group of the placement. *)
Definition add_placement (placement : Placement) (data : LineData) : LineData :=
  mkLineData
    (data_serviceLine data)
    (S (data_placementCount data))
    (data_totalRevenue data + or_zero (revenue placement))%Q
    (data_totalMargin data + or_zero (margin placement))%Q
    (data_averageVelocity data)
    (match truthy_number (velocityScore placement) with
     | Some v => velocityScores data ++ [v]
     | None => velocityScores data
     end).

(** One iteration of the first loop.  The state is the object [attribution]
    and whether [Object.prototype] has been written to.

    When the key names a member of [Object.prototype],
    [attribution[serviceLine]] is that member: no group is created, the
    count and the two sums are written to the member (for ["__proto__"], to
    [Object.prototype] itself, as new enumerable properties holding [NaN]),
    and the member has no [velocityScores], so that the push throws. *)
Definition attribute (state : list (string * LineData) * bool)
    (placement : Placement) : completion (list (string * LineData) * bool) :=
  let '(attribution, extended) := state in
  let serviceLine := line_key placement in
  if inherited serviceLine then
    let extended := extended || String.eqb serviceLine "__proto__" in
    match truthy_number (velocityScore placement) with
    | Some _ => Throw TypeError
    | None => Normal (attribution, extended)
    end
  else
    let attribution :=
      match entry_get serviceLine attribution with
      | Some _ => attribution
      | None => entry_add serviceLine (new_line serviceLine) attribution
      end in
    Normal (entry_alter (add_placement placement) serviceLine attribution, extended).

(** The body of the second loop. *)
Definition finish_line (data : LineData) : AttributionSummary :=
  mkSummary
    (data_serviceLine data)
    (data_placementCount data)
    (data_totalRevenue data)
    (data_totalMargin data)
    (if (0 <? length (velocityScores data))%nat
     then Math_round (mean (velocityScores data))
     else data_averageVelocity data).

(** The properties the first loop adds to [Object.prototype] when a key is
    ["__proto__"]. *)
Definition prototype_extension : list string :=
  ["placementCount"; "totalRevenue"; "totalMargin"].

(** The second loop, [for (const serviceLine in attribution)].  It visits
    the own properties and then the enumerable properties of
    [Object.prototype] that no own property shadows; there the value is
    [NaN] and reading [data.velocityScores.length] throws. *)
Definition finish_lines (state : list (string * LineData) * bool)
    : completion (list (string * AttributionSummary)) :=
  let '(attribution, extended) := state in
  if extended
     && negb (forallb (fun k => bool_decide (is_Some (entry_get k attribution)))
                      prototype_extension)
  then Throw TypeError
  else Normal (prod_map id finish_line <$> attribution).

Definition calculateServiceLineAttribution (placements : list Placement)
    : completion (list (string * AttributionSummary)) :=
  state ← for_of attribute ([], false) placements;
  finish_lines state.

End ScoringService.

Import ScoringService.

(** ** ScoringService in binary64 arithmetic

    [calculateROIScore], [normalizeWeights] and [calculateOverallScore] once
    more, with the numbers of the source: IEEE-754 doubles.  A [number] is a
    [spec_float] of the Standard Library, its operations those of precision
    53 and maximal exponent 1024, rounded to nearest, ties to even.  The
    numeric fields hold numbers (or are missing); strings and other values
    in their place are not modelled. *)

Module Binary64.

Import SpecFloat.

Definition number : Type := spec_float.

Definition NaN : number := S754_nan.

(** The double of an integer below 2^53 in magnitude. *)
Definition of_Z (z : Z) : number := binary_normalize 53 1024 z 0 false.

Definition add : number -> number -> number := SFadd 53 1024.
Definition sub : number -> number -> number := SFsub 53 1024.
Definition mul : number -> number -> number := SFmul 53 1024.
Definition div : number -> number -> number := SFdiv 53 1024.

(** The double nearest to [n / d]; the literal [0.4] is [ratio 4 10]. *)
Definition ratio (n d : Z) : number := div (of_Z n) (of_Z d).

(** [x < y], [x > y] and [x === y]: false when an operand is [NaN]; the
    two zeros are equal. *)
Definition lt (x y : number) : bool := SFltb x y.
Definition gt (x y : number) : bool := SFltb y x.
Definition strict_eq (x y : number) : bool := SFeqb x y.

(** The falsy numbers are the zeros and [NaN]. *)
Definition truthy (x : number) : bool :=
  match x with
  | S754_zero _ => false
  | S754_nan => false
  | _ => true
  end.

(** [x || 0] on an optional numeric field. *)
Definition or_zero (x : option number) : number :=
  match x with
  | Some v => if truthy v then v else of_Z 0
  | None => of_Z 0
  end.

(** [Math.round]: the integer nearest to [x], a tie going towards plus
    infinity; [NaN], the infinities and the zeros are returned as they
    are, and a result of zero has the sign of [x].  A finite double with a
    non-negative exponent is an integer already. *)
Definition Math_round (x : number) : number :=
  match x with
  | S754_finite s m e =>
      if 0 <=? e then x
      else
        match (cond_Zopp s (Zpos m) * 2 + 2 ^ (- e)) / 2 ^ (1 - e) with
        | 0 => S754_zero s
        | n => of_Z n
        end
  | _ => x
  end.

(** [Math.min(x, y)] and [Math.max(x, y)]: [NaN] when an operand is [NaN];
    [-0] is below [+0]. *)
Definition Math_min (x y : number) : number :=
  match SFcompare x y with
  | None => NaN
  | Some Lt => x
  | Some Gt => y
  | Some Eq => match x with S754_zero false => y | _ => x end
  end.

Definition Math_max (x y : number) : number :=
  match SFcompare x y with
  | None => NaN
  | Some Lt => y
  | Some Gt => x
  | Some Eq => match x with S754_zero true => y | _ => x end
  end.

Record Placement : Type := mkPlacement {
  revenue : option number;
  margin : option number
}.

Record Attribution : Type := mkAttribution {
  marketingCost : option number;
  salesCost : option number
}.

(** [{}] *)
Definition empty_attribution : Attribution := mkAttribution None None.

Definition calculateROIScore
    (placement : nullable Placement) (attributionData : nullable Attribution)
    : number :=
  match placement with
  | Obj placement =>
      try_catch
        (let revenue := or_zero (revenue placement) in
         let margin := or_zero (margin placement) in
         attributionData ← with_default empty_attribution attributionData;
         let marketingCost := or_zero (marketingCost attributionData) in
         let salesCost := or_zero (salesCost attributionData) in
         let totalCost := add marketingCost salesCost in
         if strict_eq totalCost (of_Z 0) then
           let marginPercentage :=
             if gt revenue (of_Z 0)
             then mul (div margin revenue) (of_Z 100)
             else of_Z 0 in
           mret (Math_min (of_Z 100) (Math_round (mul marginPercentage (of_Z 2))))
         else
           let roi := mul (div (sub revenue totalCost) totalCost) (of_Z 100) in
           let score :=
             Math_min (of_Z 100)
                      (Math_max (of_Z 0) (Math_round (div roi (of_Z 5)))) in
           mret score)
        (fun _ => of_Z 0)
  | _ => of_Z 0
  end.

(** A weights object: its own enumerable properties, in the order
    [Object.values] lists them. *)
Definition Weights : Type := list (string * number).

Definition weight_values (w : Weights) : list number := map snd w.

Fixpoint prop (k : string) (w : Weights) : option number :=
  match w with
  | [] => None
  | (k', v) :: w' => if String.eqb k k' then Some v else prop k w'
  end.

(** [xs.reduce((a, b) => a + b, 0)] *)
Definition sum_reduce (xs : list number) : number := fold_left add xs (of_Z 0).

Definition default_weights : Weights :=
  [("velocity", ratio 4 10); ("roi", ratio 6 10)].

Definition normalizeWeights (weights : Weights) : number * number :=
  let total := sum_reduce (weight_values weights) in
  if strict_eq total (of_Z 0) then (ratio 5 10, ratio 5 10)
  else (div (or_zero (prop "velocity" weights)) total,
        div (or_zero (prop "roi" weights)) total).

Definition calculateOverallScore
    (velocityScore roiScore : number) (weights : option Weights) : number :=
  let weights := default default_weights weights in
  let normalizedWeights := normalizeWeights weights in
  Math_round (add (mul velocityScore (fst normalizedWeights))
                  (mul roiScore (snd normalizedWeights))).

End Binary64.

(** ** DashboardService (dashboards/dashboard-service.js) *)

Module DashboardService.

Definition initial_buckets : gmap string nat :=
  <["poor (0-24)" := 0%nat]> (
  <["below_average (25-49)" := 0%nat]> (
  <["average (50-74)" := 0%nat]> (
  <["good (75-89)" := 0%nat]> (
  <["excellent (90-100)" := 0%nat]> ∅)))).

(** The bucket one score increments. *)
Definition bucket_key (score : Q) : string :=
  if Qle_bool 90 score then "excellent (90-100)"
  else if Qle_bool 75 score then "good (75-89)"
  else if Qle_bool 50 score then "average (50-74)"
  else if Qle_bool 25 score then "below_average (25-49)"
  else "poor (0-24)".

Definition calculateScoreDistribution (scores : list Q) : gmap string nat :=
  foldl (fun buckets score => alter S (bucket_key score) buckets)
        initial_buckets scores.

Record VelocityGroup : Type := mkGroup {
  scores : list Z;
  count : nat
}.

Record TrendBucket : Type := mkBucket {
  month : string;
  bucket_scores : list Z
}.

(** [velocityTrend.find(t => t.month === month)] followed by the push on
    the entry found, or the push of a new entry. *)
Fixpoint trend_add (month' : string) (score : Z) (velocityTrend : list TrendBucket)
    : list TrendBucket :=
  match velocityTrend with
  | [] => [mkBucket month' [score]]
  | t :: rest =>
      if String.eqb (month t) month'
      then mkBucket (month t) (bucket_scores t ++ [score]) :: rest
      else t :: trend_add month' score rest
  end.

(** The month keys are the first seven characters of an ISO string:
    [YYYY-MM] for the years 0000 to 9999, a sign and six digits of the year
    otherwise.  On strings of digits, ["-"] and ["+"] the collation of
    [localeCompare] is that of the characters, ["-"] before ["+"] before
    the digits; in code points ["+"] is before ["-"], so the two signs are
    exchanged before the strings are compared by code points. *)
Definition collation_char (c : ascii) : ascii :=
  if Ascii.eqb c "+" then "-"%char
  else if Ascii.eqb c "-" then "+"%char
  else c.

Fixpoint collation_key (s : string) : string :=
  match s with
  | EmptyString => EmptyString
  | String c s' => String (collation_char c) (collation_key s')
  end.

(** [a.localeCompare(b) < 0] on month keys. *)
Definition month_before (a b : string) : bool :=
  String.ltb (collation_key a) (collation_key b).

(** [Array.prototype.sort] is stable. *)
Fixpoint insert_sorted (t : TrendBucket) (sorted : list TrendBucket)
    : list TrendBucket :=
  match sorted with
  | [] => [t]
  | u :: rest =>
      if month_before (month t) (month u) then t :: sorted
      else u :: insert_sorted t rest
  end.

Definition sort_by_month (velocityTrend : list TrendBucket) : list TrendBucket :=
  foldl (fun sorted t => insert_sorted t sorted) [] velocityTrend.

Record ServiceLineStat : Type := mkStat {
  stat_serviceLine : string;
  stat_averageVelocity : Z;
  stat_placementCount : nat;
  stat_tier : string
}.

Record TrendPoint : Type := mkPoint {
  point_month : string;
  point_averageVelocity : Z
}.

Record VelocitySummary : Type := mkVelocitySummary {
  overallAverageVelocity : Z;
  tier : string;
  totalPlacements : nat
}.

Record VelocityData : Type := mkVelocityData {
  summary : VelocitySummary;
  byServiceLine : list ServiceLineStat;
  trend : list TrendPoint;
  distribution : gmap string nat
}.

Definition mean_scores (xs : list Z) : Q := mean (map inject_Z xs).

(** The body of the loop over [placementsWithScores].  When the key names a
    member of [Object.prototype], [velocityByServiceLine[serviceLine]] is
    that member, which has no [scores]: the push throws. *)
Definition collect_velocity
    (state : list (string * VelocityGroup) * list TrendBucket)
    (placement : Scored.t)
    : completion (list (string * VelocityGroup) * list TrendBucket) :=
  let '(velocityByServiceLine, velocityTrend) := state in
  let serviceLine := line_key (Scored.placement placement) in
  if inherited serviceLine then Throw TypeError
  else
    let velocityByServiceLine :=
      match entry_get serviceLine velocityByServiceLine with
      | Some _ => velocityByServiceLine
      | None => entry_add serviceLine (mkGroup [] 0) velocityByServiceLine
      end in
    let velocityByServiceLine :=
      entry_alter
        (fun group =>
           mkGroup (scores group ++ [Scored.velocityScore placement]) (S (count group)))
        serviceLine velocityByServiceLine in
    iso ← toISOString
            (new_Date (or_field (startDate (Scored.placement placement))
                                (createdAt (Scored.placement placement))));
    let month := String.substring 0 7 iso in
    mret (velocityByServiceLine,
          trend_add month (Scored.velocityScore placement) velocityTrend).

Definition getPlacementVelocityData (placements : list Placement)
    : completion VelocityData :=
  let placementsWithScores := batchCalculateScores placements in
  '(velocityByServiceLine, velocityTrend) ←
    for_of collect_velocity ([], []) placementsWithScores;
  let serviceLineStats :=
    map (fun '(name, data) =>
           mkStat name
                  (Math_round (mean_scores (scores data)))
                  (count data)
                  (getScoreTier (mean_scores (scores data))))
        (Object_entries velocityByServiceLine) in
  let trendData :=
    map (fun t => mkPoint (month t) (Math_round (mean_scores (bucket_scores t))))
        (sort_by_month velocityTrend) in
  let overallAverage :=
    if (0 <? length placementsWithScores)%nat
    then Math_round (mean_scores (map Scored.velocityScore placementsWithScores))
    else 0 in
  mret (mkVelocityData
          (mkVelocitySummary overallAverage
                             (getScoreTier (inject_Z overallAverage))
                             (length placements))
          serviceLineStats
          trendData
          (calculateScoreDistribution
             (map (fun p => inject_Z (Scored.velocityScore p)) placementsWithScores))).

Module AttributionReport.
Record Summary : Type := mkSummary {
  totalRevenue : Q;
  totalMargin : Q;
  totalPlacements : nat;
  averageMarginPercentage : Z
}.
(** [{...line, revenuePercentage}] *)
Record Line : Type := mkLine {
  line : AttributionSummary;
  revenuePercentage : Z
}.
Record Chart : Type := mkChart {
  labels : list string;
  revenue : list Q;
  placements : list nat
}.
Record t : Type := mk {
  summary : Summary;
  serviceLines : list Line;
  chartData : Chart
}.
End AttributionReport.

Definition getServiceLineAttributionData (placements : list Placement)
    : completion AttributionReport.t :=
  attribution ← calculateServiceLineAttribution placements;
  let totalRevenue' :=
    foldl (fun sum line => (sum + totalRevenue line)%Q) 0%Q
          (Object_values attribution) in
  let totalMargin' :=
    foldl (fun sum line => (sum + totalMargin line)%Q) 0%Q
          (Object_values attribution) in
  let totalPlacements := length placements in
  mret (AttributionReport.mk
          (AttributionReport.mkSummary totalRevenue' totalMargin' totalPlacements
             (if Qlt_le_dec 0 totalRevenue'
              then Math_round (totalMargin' / totalRevenue' * 100)
              else 0))
          (map (fun line =>
                  AttributionReport.mkLine line
                    (if Qlt_le_dec 0 totalRevenue'
                     then Math_round (totalRevenue line / totalRevenue' * 100)
                     else 0))
               (Object_values attribution))
          (AttributionReport.mkChart
             (Object_keys attribution)
             (map totalRevenue (Object_values attribution))
             (map placementCount (Object_values attribution)))).

Module ROIReport.
Record Summary : Type := mkSummary {
  totalRevenue : Q;
  totalMargin : Q;
  totalCost : Q;
  overallROI : Z;
  averageROIScore : Z;
  tier : string
}.
Record Line : Type := mkLine {
  serviceLine : string;
  revenue : Q;
  cost : Q;
  roi : Z;
  averageScore : Z
}.
Record Costs : Type := mkCosts {
  marketing : Q;
  sales : Q
}.
Record t : Type := mk {
  summary : Summary;
  byServiceLine : list Line;
  costBreakdown : Costs;
  distribution : gmap string nat
}.
End ROIReport.

(** A group of [roiByServiceLine]. *)
Record ROIGroup : Type := mkROIGroup {
  group_revenue : Q;
  group_cost : Q;
  group_scores : list Z
}.

(** [a?.field || 0] *)
Definition optional_cost (field : Attribution -> option Q) (a : nullable Attribution) : Q :=
  match a with
  | Obj a => or_zero (field a)
  | _ => 0%Q
  end.

(** The body of the loop over [placementsWithScores] in
    [getROIDashboardData].  When the key names a member of
    [Object.prototype], the two sums are written to that member, which has
    no [scores]: the push throws. *)
Definition roi_step (roiByServiceLine : list (string * ROIGroup)) (placement : Scored.t)
    : completion (list (string * ROIGroup)) :=
  let serviceLine := line_key (Scored.placement placement) in
  if inherited serviceLine then Throw TypeError
  else
    let roiByServiceLine :=
      match entry_get serviceLine roiByServiceLine with
      | Some _ => roiByServiceLine
      | None => entry_add serviceLine (mkROIGroup 0 0 []) roiByServiceLine
      end in
    mret (entry_alter
            (fun data =>
               mkROIGroup
                 (group_revenue data + or_zero (revenue (Scored.placement placement)))%Q
                 (group_cost data
                  + (optional_cost marketingCost (attribution (Scored.placement placement))
                     + optional_cost salesCost (attribution (Scored.placement placement))))%Q
                 (group_scores data ++ [Scored.roiScore placement]))
            serviceLine roiByServiceLine).

Definition getROIDashboardData (placements : list Placement)
    : completion ROIReport.t :=
  let placementsWithScores := batchCalculateScores placements in
  let totalRevenue := foldl (fun sum p => (sum + or_zero (revenue p))%Q) 0%Q placements in
  let totalMargin := foldl (fun sum p => (sum + or_zero (margin p))%Q) 0%Q placements in
  let totalMarketingCost :=
    foldl (fun sum p => (sum + optional_cost marketingCost (attribution p))%Q)
          0%Q placements in
  let totalSalesCost :=
    foldl (fun sum p => (sum + optional_cost salesCost (attribution p))%Q)
          0%Q placements in
  let totalCost := (totalMarketingCost + totalSalesCost)%Q in
  let overallROI :=
    if Qlt_le_dec 0 totalCost
    then Math_round ((totalRevenue - totalCost) / totalCost * 100)
    else 0 in
  let averageROIScore :=
    if (0 <? length placementsWithScores)%nat
    then Math_round (mean_scores (map Scored.roiScore placementsWithScores))
    else 0 in
  roiByServiceLine ← for_of roi_step [] placementsWithScores;
  let serviceLineStats :=
    map (fun '(name, data) =>
           ROIReport.mkLine name (group_revenue data) (group_cost data)
             (if Qlt_le_dec 0 (group_cost data)
              then Math_round ((group_revenue data - group_cost data)
                               / group_cost data * 100)
              else 0)
             (Math_round (mean_scores (group_scores data))))
        (Object_entries roiByServiceLine) in
  mret (ROIReport.mk
          (ROIReport.mkSummary totalRevenue totalMargin totalCost overallROI
             averageROIScore (getScoreTier (inject_Z averageROIScore)))
          serviceLineStats
          (ROIReport.mkCosts totalMarketingCost totalSalesCost)
          (calculateScoreDistribution
             (map (fun p => inject_Z (Scored.roiScore p)) placementsWithScores))).

Module ExecutiveReport.
Record Overview : Type := mkOverview {
  totalJobs : nat;
  totalPlacements : nat;
  fillRate : Z;
  generatedAt : string
}.
Record t : Type := mk {
  serviceLineAttribution : AttributionReport.t;
  placementVelocity : VelocityData;
  roi : ROIReport.t;
  overview : Overview
}.
End ExecutiveReport.

(** [now] is the time value of [new Date()]; [jobs] is [None] when the
    argument is left out. *)
Definition getExecutiveDashboardData (now : Z) (placements : list Placement)
    (jobs : option (list Job)) : completion ExecutiveReport.t :=
  let jobs := default [] jobs in
  serviceLineAttribution ← getServiceLineAttributionData placements;
  placementVelocity ← getPlacementVelocityData placements;
  roi ← getROIDashboardData placements;
  generatedAt ← toISOString (Some now);
  mret (ExecutiveReport.mk serviceLineAttribution placementVelocity roi
          (ExecutiveReport.mkOverview
             (length jobs) (length placements)
             (if (0 <? length jobs)%nat
              then Math_round (inject_Z (Z.of_nat (length placements))
                               / inject_Z (Z.of_nat (length jobs)) * 100)
              else 0)
             generatedAt)).

End DashboardService.

Import DashboardService.

(** * Formulas of the specification and sample records

    What the specification's sentences say, written from its words where
    they are compared with the source, and the records the properties are
    evaluated on. *)

(** [clamp(x, lower, upper)] *)
Definition clamp (lower upper x : Q) : Q :=
  if Qlt_le_dec x lower then lower
  else if Qlt_le_dec upper x then upper
  else x.

(** The fill and open timestamps of a placement / job pair. *)
Definition fill_time (placement : Placement) : option Z :=
  getTime (new_Date (or_field (startDate placement) (createdAt placement))).

Definition open_time (job : Job) : option Z :=
  getTime (new_Date (or_field (job_createdAt job) (openDate job))).

(** [{startDate: ms}] *)
Definition placement_filled_at (ms : Z) : Placement :=
  mkPlacement None (Given (Instant ms)) Absent None None None Undefined Undefined.

(** [{createdAt: ms}] *)
Definition job_opened_at (ms : Z) : Job := mkJob (Given (Instant ms)) Absent.

(** [marketingCost + salesCost] of an attribution object. *)
Definition totalCost (a : Attribution) : Q :=
  (or_zero (marketingCost a) + or_zero (salesCost a))%Q.

(** The margin proxy as the specification words it, in exact arithmetic:
    the percentage is 0 when the revenue is 0. *)
Definition margin_proxy_spec (revenue margin : Q) : Z :=
  let marginPercentage :=
    if Qeq_bool revenue 0 then 0%Q else (margin / revenue * 100)%Q in
  Z.min 100 (Math_round (marginPercentage * 2)).

(** The margin proxy of the source: the percentage is 0 unless the revenue
    is positive. *)
Definition margin_proxy (revenue margin : Q) : Z :=
  let marginPercentage :=
    if Qlt_le_dec 0 revenue then (margin / revenue * 100)%Q else 0%Q in
  Z.min 100 (Math_round (marginPercentage * 2)).

(** [{revenue, margin}] *)
Definition placement_earning (revenue margin : Q) : Placement :=
  mkPlacement None Absent Absent (Some revenue) (Some margin) None Undefined Undefined.

(** [{velocity: wv, roi: wr}] *)
Definition weights_of (wv wr : Q) : Weights := [("velocity", wv); ("roi", wr)].


(** How many of [scores] are in [tier]. *)
Definition tier_count (tier : string) (scores : list Q) : nat :=
  length (filter (fun score => getScoreTier score = tier) scores).

(** The bucket that stands for a tier. *)
Definition tier_bucket (tier : string) : string :=
  if String.eqb tier "excellent" then "excellent (90-100)"
  else if String.eqb tier "good" then "good (75-89)"
  else if String.eqb tier "average" then "average (50-74)"
  else if String.eqb tier "below_average" then "below_average (25-49)"
  else "poor (0-24)".

(** The five tier labels. *)
Definition five_tiers : list string :=
  ["excellent"; "good"; "average"; "below_average"; "poor"].

(** The placements of one service line, in input order. *)
Definition group_of (k : string) (placements : list Placement) : list Placement :=
  filter (fun p => line_key p = k) placements.

(** The placements whose key does not name a member of
    [Object.prototype]: those a dictionary object can hold a group for. *)
Definition attributable (placements : list Placement) : list Placement :=
  filter (fun p => inherited (line_key p) = false) placements.

(** [total += field || 0] over a group, starting from 0. *)
Definition total (field : Placement -> option Q) (g : list Placement) : Q :=
  foldl (fun acc p => (acc + or_zero (field p))%Q) 0%Q g.

(** The scores the source averages: the truthy ones. *)
Definition counted_scores (g : list Placement) : list Q :=
  omap (fun p => truthy_number (velocityScore p)) g.

(** The scores the specification averages: those of the placements that
    carry a [velocityScore]. *)
Definition carried_scores (g : list Placement) : list Q :=
  omap velocityScore g.

(** The rounded mean, 0 for an empty averaging set. *)
Definition rounded_mean (vs : list Q) : Z :=
  if (0 <? length vs)%nat then Math_round (mean vs) else 0.

(** The first loop of [calculateServiceLineAttribution] on one group. *)
Definition accumulate (data : LineData) (g : list Placement) : LineData :=
  foldl (fun data p => add_placement p data) data g.

(** The group [calculateServiceLineAttribution] returns for the placements
    of the key [k]. *)
Definition summary_of (placements : list Placement) (k : string) : AttributionSummary :=
  let g := group_of k placements in
  mkSummary k (length g) (total revenue g) (total margin g)
            (rounded_mean (counted_scores g)).

(** [{velocityScore: v}] *)
Definition placement_scored (v : Q) : Placement :=
  mkPlacement None Absent Absent None None (Some v) Undefined Undefined.

(** [[{velocityScore: 0}, {velocityScore: 100}]] *)
Definition zero_and_hundred : list Placement :=
  [placement_scored 0; placement_scored 100].

(** [{serviceLine: line, startDate: fill, job}] *)
Definition placement_in_line (line : string) (fill : date_field)
    (job : nullable Job) : Placement :=
  mkPlacement (Some line) fill Absent None None None job Undefined.

(** Two placements of the job opened on 2024-01-01: one filled on
    2024-01-05, one without any fill timestamp. *)
Definition one_undated_placement : list Placement :=
  [placement_in_line "IT" (Given (Instant 1704412800000))
                     (Obj (job_opened_at 1704067200000));
   placement_in_line "IT" Absent (Obj (job_opened_at 1704067200000))].

(** Three placements of the job opened on 2024-01-01, filled on
    2024-02-15, 2024-01-15 and 2024-01-10. *)
Definition three_dated_placements : list Placement :=
  [placement_in_line "IT" (Given (Instant 1707955200000))
                     (Obj (job_opened_at 1704067200000));
   placement_in_line "IT" (Given (Instant 1705276800000))
                     (Obj (job_opened_at 1704067200000));
   placement_in_line "Healthcare" (Given (Instant 1704844800000))
                     (Obj (job_opened_at 1704067200000))].

(** [{serviceLine, revenue, margin, attribution}] *)
Definition placement_costing (line : string) (revenue margin : Q)
    (attribution : nullable Attribution) : Placement :=
  mkPlacement (Some line) Absent Absent (Some revenue) (Some margin) None Undefined
              attribution.

(** [{serviceLine, revenue, margin, velocityScore}] *)
Definition placement_rated (line : string) (revenue margin velocityScore : Q)
    : Placement :=
  mkPlacement (Some line) Absent Absent (Some revenue) (Some margin)
              (Some velocityScore) Undefined Undefined.

(** [{marketingCost, salesCost}] *)
Definition attribution_costing (marketing sales : Q) : Attribution :=
  mkAttribution (Some marketing) (Some sales).

(** The placements of the attribution test of the dashboard test suite. *)
Definition three_line_placements : list Placement :=
  [placement_costing "IT" 10000 2000 Undefined;
   placement_costing "IT" 15000 3000 Undefined;
   placement_costing "Healthcare" 20000 5000 Undefined].

(** The placements of the ROI test of the dashboard test suite. *)
Definition two_costed_placements : list Placement :=
  [placement_costing "IT" 10000 2000 (Obj (attribution_costing 500 300));
   placement_costing "IT" 15000 4000 (Obj (attribution_costing 600 400))].

(** ** The same in binary64 arithmetic *)

(** [marketingCost + salesCost] of an attribution object. *)
Definition totalCost64 (a : Binary64.Attribution) : Binary64.number :=
  Binary64.add (Binary64.or_zero (Binary64.marketingCost a))
               (Binary64.or_zero (Binary64.salesCost a)).

(** The margin proxy as the specification words it, every operation a
    binary64 operation: the percentage is 0 when the revenue is 0. *)
Definition margin_proxy_spec64 (revenue margin : Binary64.number) : Binary64.number :=
  let marginPercentage :=
    if Binary64.strict_eq revenue (Binary64.of_Z 0) then Binary64.of_Z 0
    else Binary64.mul (Binary64.div margin revenue) (Binary64.of_Z 100) in
  Binary64.Math_min (Binary64.of_Z 100)
    (Binary64.Math_round (Binary64.mul marginPercentage (Binary64.of_Z 2))).

(** The margin proxy with the percentage 0 unless the revenue is
    positive. *)
Definition margin_proxy64 (revenue margin : Binary64.number) : Binary64.number :=
  let marginPercentage :=
    if Binary64.gt revenue (Binary64.of_Z 0)
    then Binary64.mul (Binary64.div margin revenue) (Binary64.of_Z 100)
    else Binary64.of_Z 0 in
  Binary64.Math_min (Binary64.of_Z 100)
    (Binary64.Math_round (Binary64.mul marginPercentage (Binary64.of_Z 2))).

(** [{revenue, margin}] with integer amounts. *)
Definition earning64 (revenue margin : Z) : Binary64.Placement :=
  Binary64.mkPlacement (Some (Binary64.of_Z revenue)) (Some (Binary64.of_Z margin)).



(** The sign bit of a double: set on the negative numbers and on [-0]. *)
Definition signbit64 (x : Binary64.number) : bool :=
  match x with
  | SpecFloat.S754_zero s => s
  | SpecFloat.S754_infinity s => s
  | SpecFloat.S754_finite s _ _ => s
  | SpecFloat.S754_nan => false
  end.

(** * Further definitions

    The vocabulary of the properties proved about the dashboard builders,
    and the card builders of [CRMCardService]. *)

(** Both records are present and both timestamps parse: the inputs on
    which [calculateVelocityScore] reaches its formula. *)
Definition scorable (placement : nullable Placement) (job : nullable Job) : bool :=
  match placement, job with
  | Obj p, Obj j =>
      match fill_time p, open_time j with
      | Some _, Some _ => true
      | _, _ => false
      end
  | _, _ => false
  end.

(** The names of the own properties of an object to which the properties
    [keys] were added one after the other: each key once, in the order of
    first appearance. *)
Definition first_seen (keys : list string) : list string :=
  foldl (fun seen k => if decide (k ∈ seen) then seen else seen ++ [k]) [] keys.

(** The names of the groups of a dictionary object filled from
    [placements], as [Object.keys] lists them. *)
Definition line_names (placements : list Placement) : list string :=
  own_property_order id (first_seen (line_key <$> placements)).

(** The velocity score [batchCalculateScores] gives a placement. *)
Definition velocity_of (placement : Placement) : Z :=
  calculateVelocityScore (Obj placement) (job placement).

(** The ROI score [batchCalculateScores] gives a placement. *)
Definition roi_of (placement : Placement) : Z :=
  calculateROIScore (Obj placement) (attribution placement).

(** The month key of the fill date of a placement, when the date parses. *)
Definition month_key (placement : Placement) : option string :=
  (fun t => String.substring 0 7 (iso_string t)) <$> fill_time placement.

(** The placements filled in one month, in input order. *)
Definition month_of (m : string) (placements : list Placement) : list Placement :=
  filter (fun p => month_key p = Some m) placements.

(** A placement the loop of [getPlacementVelocityData] gets past: its key
    names no member of [Object.prototype] and its fill date parses. *)
Definition reportable (p : Placement) : Prop :=
  inherited (line_key p) = false /\ is_Some (fill_time p).

(** The loop body shared by the by-line objects of the reports: create the
    group of the key when it is missing, then update it in place. *)
Definition grouped_step {X V} (key : X -> string) (init : string -> V)
    (upd : X -> V -> V) (o : list (string * V)) (x : X) : list (string * V) :=
  entry_alter (upd x) (key x)
    (match entry_get (key x) o with
     | Some _ => o
     | None => entry_add (key x) (init (key x)) o
     end).

(** The by-line half of the loop body of [getPlacementVelocityData]. *)
Definition line_step (velocityByServiceLine : list (string * VelocityGroup))
    (placement : Scored.t) : list (string * VelocityGroup) :=
  grouped_step (fun x => line_key (Scored.placement x)) (fun _ => mkGroup [] 0)
    (fun x group => mkGroup (scores group ++ [Scored.velocityScore x]) (S (count group)))
    velocityByServiceLine placement.

(** The trend half of the loop body, for a placement whose date parses. *)
Definition trend_step (velocityTrend : list TrendBucket) (placement : Scored.t)
    : list TrendBucket :=
  trend_add (default "" (month_key (Scored.placement placement)))
            (Scored.velocityScore placement) velocityTrend.

(** A trend list read as an object keyed by month. *)
Definition trend_entries (velocityTrend : list TrendBucket) : list (string * list Z) :=
  (fun t => (month t, bucket_scores t)) <$> velocityTrend.

(** Month keys in the ascending order of [localeCompare], each before the
    next. *)
Definition months_ascending (months : list string) : Prop :=
  Sorted.Sorted (fun a b => month_before a b = true) months.

(** The order [insert_sorted] keeps: no bucket is followed by one whose
    month is before its own. *)
Definition month_le (a b : TrendBucket) : Prop :=
  month_before (month b) (month a) = false.

(** [marketingCost + salesCost] of a placement as the ROI report reads
    them. *)
Definition placement_cost (p : Placement) : Q :=
  (optional_cost marketingCost (attribution p)
   + optional_cost salesCost (attribution p))%Q.

(** The update [getROIDashboardData] makes to the group of a placement. *)
Definition roi_update (placement : Scored.t) (data : ROIGroup) : ROIGroup :=
  mkROIGroup
    (group_revenue data + or_zero (revenue (Scored.placement placement)))%Q
    (group_cost data + placement_cost (Scored.placement placement))%Q
    (group_scores data ++ [Scored.roiScore placement]).

(** The cost a group of placements adds up to. *)
Definition total_cost (g : list Placement) : Q :=
  foldl (fun sum p => (sum + placement_cost p)%Q) 0%Q g.

(** The line of the ROI report for the key [k]. *)
Definition roi_line (placements : list Placement) (k : string) : ROIReport.Line :=
  let g := group_of k placements in
  ROIReport.mkLine k (total revenue g) (total_cost g)
    (if Qlt_le_dec 0 (total_cost g)
     then Math_round ((total revenue g - total_cost g) / total_cost g * 100)
     else 0)
    (Math_round (mean_scores (roi_of <$> g))).

(** The amounts [F] of a list of placements are whole numbers whose
    absolute values add up to 2^52 at most: sums of such amounts are exact
    in binary64 arithmetic, in whatever order they are added. *)
Definition whole_amounts (F : Placement -> Q) (placements : list Placement) : Prop :=
  Forall (fun p => exists z : Z, (F p == inject_Z z)%Q) placements
  /\ (foldl (fun acc p => acc + Qabs (F p)) 0 placements <= inject_Z (2 ^ 52))%Q.

(** ** The loops, step by step

    Each of the three grouping loops throws on some elements, whatever the
    object holds by then, and otherwise updates the object: [_fails] is the
    error an element makes the body throw, [_step] the update. *)

Definition attribute_fails (p : Placement) : option js_error :=
  if inherited (line_key p) then
    match truthy_number (velocityScore p) with
    | Some _ => Some TypeError
    | None => None
    end
  else None.

Definition attribute_step (state : list (string * LineData) * bool) (p : Placement)
    : list (string * LineData) * bool :=
  if inherited (line_key p)
  then (state.1, state.2 || String.eqb (line_key p) "__proto__")
  else (grouped_step line_key new_line add_placement state.1 p, state.2).

Definition velocity_fails (x : Scored.t) : option js_error :=
  if inherited (line_key (Scored.placement x)) then Some TypeError
  else match fill_time (Scored.placement x) with
       | Some _ => None
       | None => Some RangeError
       end.

Definition velocity_step (state : list (string * VelocityGroup) * list TrendBucket)
    (x : Scored.t) : list (string * VelocityGroup) * list TrendBucket :=
  (line_step state.1 x, trend_step state.2 x).

Definition roi_fails (x : Scored.t) : option js_error :=
  if inherited (line_key (Scored.placement x)) then Some TypeError else None.

Definition roi_line_step (o : list (string * ROIGroup)) (x : Scored.t)
    : list (string * ROIGroup) :=
  grouped_step (fun x => line_key (Scored.placement x)) (fun _ => mkROIGroup 0 0 [])
               roi_update o x.

(** ** CRMCardService (crm-cards/crm-card-service.js)

    The card builders read their records field by field and pass most
    values through unchanged, so a field is a JavaScript value here.  The
    conversion of a number to a string inside a template literal is the
    parameter [Number_toString], except for the counters, which are small
    natural numbers and are printed as their decimal numerals. *)

(** The decimal numeral of a natural number. *)
Fixpoint decimal_digits (fuel : nat) (n : N) (acc : string) : string :=
  match fuel with
  | O => acc
  | S fuel' =>
      let acc' := String (ascii_of_N (48 + n mod 10)) acc in
      if (n <? 10)%N then acc' else decimal_digits fuel' (n / 10) acc'
  end.

Definition decimal (n : nat) : string := decimal_digits (S n) (N.of_nat n) "".

Inductive js_value : Type :=
| VUndefined : js_value
| VNull : js_value
| VString (s : string) : js_value
| VNumber (q : Q) : js_value.

Definition truthy (v : js_value) : bool :=
  match v with
  | VUndefined => false
  | VNull => false
  | VString s => negb (String.eqb s "")
  | VNumber q => negb (Qeq_bool q 0)
  end.

(** [a || b] *)
Definition js_or (a b : js_value) : js_value := if truthy a then a else b.

Module CRMCardService.

Record Property : Type := mkProperty {
  label : string;
  value : js_value;
  dataType : string
}.

(** A section; [topLevelProperties] is [None] where the literal has none. *)
Record CardSection : Type := mkSection {
  id : string;
  title : string;
  topLevelProperties : option (list Property);
  properties : list Property
}.

Record Action : Type := mkAction {
  type : string;
  width : Z;
  height : Z;
  uri : string;
  action_label : string
}.

(** [primaryAction] is [None] for [null]. *)
Record Card : Type := mkCard {
  results : list CardSection;
  primaryAction : option Action;
  secondaryActions : list Action
}.

Record Candidate : Type := mkCandidate {
  name : js_value;
  candidate_status : js_value
}.

(** The fields of a job that [buildJobCard] reads. *)
Record JobFields : Type := mkJobFields {
  job_title : js_value;
  job_status : js_value;
  job_id : js_value;
  job_clientName : js_value;
  job_location : js_value;
  job_serviceLine : js_value;
  job_openDate : js_value;
  job_created : js_value;
  job_targetDate : js_value;
  job_billRate : js_value;
  job_estimatedRevenue : js_value;
  candidates : option (list Candidate)
}.

(** The fields of a placement that [buildPlacementCard] reads. *)
Record PlacementFields : Type := mkPlacementFields {
  candidateName : js_value;
  status : js_value;
  placement_id : js_value;
  jobTitle : js_value;
  clientName : js_value;
  placement_startDate : js_value;
  endDate : js_value;
  billRate : js_value;
  payRate : js_value;
  placement_revenue : js_value;
  placement_margin : js_value;
  marginPercentage : js_value;
  hoursWorked : js_value;
  placement_velocityScore : js_value;
  placement_roiScore : js_value;
  placement_overallScore : js_value
}.

(** The argument of [buildAttributionCard]; [serviceLines] holds the own
    properties of the attribution object in the order of their creation,
    [None] when the property is missing. *)
Record AttributionFields : Type := mkAttributionFields {
  attribution_totalRevenue : js_value;
  attribution_totalPlacements : js_value;
  serviceLines : option (list (string * AttributionSummary))
}.

Section Builders.

Variable Number_toString : Q -> string.

(** The string a template literal puts in place of a value. *)
Definition ToString (v : js_value) : string :=
  match v with
  | VUndefined => "undefined"
  | VNull => "null"
  | VString s => s
  | VNumber q => Number_toString q
  end.

(** [xs.map((x, index) => f(x, index))], counting from [start]. *)
Fixpoint map_index {A B} (f : A -> nat -> B) (start : nat) (xs : list A) : list B :=
  match xs with
  | [] => []
  | x :: xs' => f x start :: map_index f (S start) xs'
  end.

Definition view_action (path : string) (record_id : js_value) : Action :=
  mkAction "IFRAME" 890 748
           ("https://app.trackerrms.com/" +:+ path +:+ "/" +:+ ToString record_id)
           "View in TrackerRMS".

Definition buildJobCard (job : JobFields) : Card :=
  let sections :=
    [mkSection "job_details" "Job Details"
       (Some [mkProperty "Job Title" (js_or (job_title job) (VString "N/A")) "STRING";
              mkProperty "Status" (js_or (job_status job) (VString "N/A")) "STATUS"])
       [mkProperty "Job ID" (job_id job) "STRING";
        mkProperty "Client" (js_or (job_clientName job) (VString "N/A")) "STRING";
        mkProperty "Location" (js_or (job_location job) (VString "N/A")) "STRING";
        mkProperty "Service Line" (js_or (job_serviceLine job) (VString "N/A")) "STRING";
        mkProperty "Open Date" (js_or (job_openDate job) (job_created job)) "DATE";
        mkProperty "Target Date" (js_or (job_targetDate job) (VString "N/A")) "DATE";
        mkProperty "Bill Rate"
          (VString ("$" +:+ ToString (js_or (job_billRate job) (VNumber 0)) +:+ "/hr"))
          "STRING";
        mkProperty "Estimated Revenue" (job_estimatedRevenue job) "CURRENCY"]] in
  let sections :=
    match candidates job with
    | Some (c :: cs) =>
        sections ++
        [mkSection "candidates" "Candidates" None
           (map_index
              (fun candidate index =>
                 mkProperty
                   ("Candidate " +:+ decimal (index + 1))
                   (VString (ToString (name candidate) +:+ " - "
                             +:+ ToString (candidate_status candidate)))
                   "STRING")
              0 (take 5 (c :: cs)))]
    | _ => sections
    end in
  let actions := [view_action "jobs" (job_id job)] in
  mkCard sections (head actions) (drop 1 actions).

Definition buildPlacementCard (placement : PlacementFields) : Card :=
  let sections :=
    [mkSection "placement_details" "Placement Details"
       (Some [mkProperty "Candidate" (js_or (candidateName placement) (VString "N/A"))
                         "STRING";
              mkProperty "Status" (js_or (status placement) (VString "Active")) "STATUS"])
       [mkProperty "Placement ID" (placement_id placement) "STRING";
        mkProperty "Job" (js_or (jobTitle placement) (VString "N/A")) "STRING";
        mkProperty "Client" (js_or (clientName placement) (VString "N/A")) "STRING";
        mkProperty "Start Date" (placement_startDate placement) "DATE";
        mkProperty "End Date" (js_or (endDate placement) (VString "Ongoing")) "DATE";
        mkProperty "Bill Rate"
          (VString ("$" +:+ ToString (js_or (billRate placement) (VNumber 0)) +:+ "/hr"))
          "STRING";
        mkProperty "Pay Rate"
          (VString ("$" +:+ ToString (js_or (payRate placement) (VNumber 0)) +:+ "/hr"))
          "STRING"];
     mkSection "revenue" "Revenue" None
       [mkProperty "Total Revenue" (placement_revenue placement) "CURRENCY";
        mkProperty "Total Margin" (placement_margin placement) "CURRENCY";
        mkProperty "Margin %"
          (VString (ToString (js_or (marginPercentage placement) (VNumber 0)) +:+ "%"))
          "STRING";
        mkProperty "Hours Worked" (js_or (hoursWorked placement) (VNumber 0)) "NUMERIC"]] in
  let sections :=
    if truthy (js_or (placement_velocityScore placement) (placement_roiScore placement))
    then
      sections ++
      [mkSection "scores" "Performance Scores" None
         [mkProperty "Velocity Score"
            (js_or (placement_velocityScore placement) (VNumber 0)) "NUMERIC";
          mkProperty "ROI Score"
            (js_or (placement_roiScore placement) (VNumber 0)) "NUMERIC";
          mkProperty "Overall Score"
            (js_or (placement_overallScore placement) (VNumber 0)) "NUMERIC"]]
    else sections in
  let actions := [view_action "placements" (placement_id placement)] in
  mkCard sections (head actions) (drop 1 actions).

Definition buildAttributionCard (attributionData : AttributionFields) : Card :=
  let sections :=
    [mkSection "summary" "Revenue Attribution Summary"
       (Some [mkProperty "Total Revenue" (attribution_totalRevenue attributionData)
                         "CURRENCY";
              mkProperty "Total Placements" (attribution_totalPlacements attributionData)
                         "NUMERIC"])
       []] in
  let sections :=
    match serviceLines attributionData with
    | Some entries =>
        sections ++
        [mkSection "service_lines" "By Service Line" None
           (map (fun '(line, data) =>
                   mkProperty line
                     (VString (decimal (placementCount data)
                               +:+ " placements - $"
                               +:+ Number_toString (totalRevenue data)))
                     "STRING")
                (Object_entries entries))]
    | None => sections
    end in
  mkCard sections None [].

Definition buildErrorCard (message : string) : Card :=
  mkCard [mkSection "error" "Error" None
            [mkProperty "Message" (VString message) "STRING"]]
         None [].

End Builders.

End CRMCardService.


(** * Properties *)

(** ** The model on sample values *)

Example Math_round_tie_up : Math_round (5 # 2) = 3.
Proof. reflexivity. Qed.

Example Math_round_tie_neg : Math_round (- (5 # 2)) = -2.
Proof. reflexivity. Qed.

Example iso_string_2024 :
  iso_string 1705276800000 = "2024-01-15T00:00:00.000Z".
Proof. vm_compute. reflexivity. Qed.

Example iso_string_before_epoch :
  iso_string (-1) = "1969-12-31T23:59:59.999Z".
Proof. vm_compute. reflexivity. Qed.

Example iso_string_leap_day :
  iso_string 1709210096789 = "2024-02-29T12:34:56.789Z".
Proof. vm_compute. reflexivity. Qed.

Example iso_string_expanded_year :
  iso_string 8640000000000000 = "+275760-09-13T00:00:00.000Z".
Proof. vm_compute. reflexivity. Qed.

Example new_Date_falsy_values :
  map new_Date [Absent; IsNull; IsFalse; IsZero; IsNaN; IsEmpty;
                Given (Instant 8640000000000001)]
    = [None; Some 0; Some 0; Some 0; None; None; None].
Proof. reflexivity. Qed.

Example array_index_samples :
  map array_index ["0"; "10"; "01"; "4294967294"; "4294967295"; "IT"; ""]
    = [Some 0; Some 10; None; Some 4294967294; None; None; None]%N.
Proof. vm_compute. reflexivity. Qed.

Example own_property_order_sample :
  own_property_order id ["IT"; "10"; "2"; "Healthcare"; "0"]
    = ["0"; "2"; "10"; "IT"; "Healthcare"].
Proof. vm_compute. reflexivity. Qed.

Example month_before_samples :
  map (fun '(a, b) => month_before a b)
      [("2024-01", "2024-02"); ("2024-02", "2024-01"); ("-000001", "+010000");
       ("+010000", "-000001"); ("+010000", "2024-01")]
    = [true; false; true; false; true].
Proof. vm_compute. reflexivity. Qed.

Example binary64_samples :
  Binary64.add (Binary64.ratio 1 10) (Binary64.ratio 2 10) <> Binary64.ratio 3 10
  /\ Binary64.add (Binary64.ratio 4 10) (Binary64.ratio 6 10) = Binary64.of_Z 1
  /\ map Binary64.Math_round
         [Binary64.ratio 5 2; Binary64.ratio (-5) 2; Binary64.ratio 1 2;
          Binary64.ratio (-1) 2; Binary64.NaN]
     = [Binary64.of_Z 3; Binary64.of_Z (-2); Binary64.of_Z 1;
        SpecFloat.S754_zero true; Binary64.NaN]
  /\ Binary64.Math_round (SpecFloat.S754_finite false 9007199254740991 (-54))
     = Binary64.of_Z 0.
Proof.
  split; [vm_compute; discriminate |].
  split; [vm_compute; reflexivity |]. split; vm_compute; reflexivity.
Qed.

Example velocity_data_sample :
  match getPlacementVelocityData three_dated_placements with
  | Normal data =>
      summary data = mkVelocitySummary 55 "average" 3
      /\ byServiceLine data
         = [mkStat "IT" 41 2 "below_average"; mkStat "Healthcare" 82 1 "good"]
      /\ trend data = [mkPoint "2024-01" 77; mkPoint "2024-02" 10]
      /\ map (fun k => distribution data !! k)
             ["excellent (90-100)"; "good (75-89)"; "average (50-74)";
              "below_average (25-49)"; "poor (0-24)"]
         = [Some 0; Some 1; Some 1; Some 0; Some 1]%nat
  | Throw _ => False
  end.
Proof. vm_compute. repeat split. Qed.

(** ** Rounding *)

Lemma Math_round_comp (x y : Q) : (x == y)%Q -> Math_round x = Math_round y.
Proof. intros H. unfold Math_round. apply Qfloor_comp. rewrite H. reflexivity. Qed.

Lemma Math_round_le (x y : Q) : (x <= y)%Q -> Math_round x <= Math_round y.
Proof. intros H. unfold Math_round. apply Qfloor_resp_le. lra. Qed.

Lemma Math_round_inject_Z (z : Z) : Math_round (inject_Z z) = z.
Proof.
  unfold Math_round.
  pose proof (Qfloor_le (inject_Z z + (1 # 2))) as Hlo.
  pose proof (Qlt_floor (inject_Z z + (1 # 2))) as Hhi.
  set (f := Qfloor (inject_Z z + (1 # 2))) in *.
  rewrite inject_Z_plus in Hhi.
  unfold Qle, Qlt, inject_Z, Qplus in *; simpl in *. lia.
Qed.

Lemma Math_round_bounds (a b : Z) (x : Q) :
  (inject_Z a <= x)%Q -> (x <= inject_Z b)%Q -> a <= Math_round x <= b.
Proof.
  intros Ha Hb. split.
  - rewrite <- (Math_round_inject_Z a). apply Math_round_le, Ha.
  - rewrite <- (Math_round_inject_Z b). apply Math_round_le, Hb.
Qed.

Lemma Math_round_ge_iff (z : Z) (x : Q) :
  z <= Math_round x <-> (inject_Z z - (1 # 2) <= x)%Q.
Proof.
  unfold Math_round.
  pose proof (Qfloor_le (x + (1 # 2))) as Hlo.
  pose proof (Qlt_floor (x + (1 # 2))) as Hhi.
  set (f := Qfloor (x + (1 # 2))) in *. split; intros H.
  - assert (Hz : (inject_Z z <= inject_Z f)%Q) by (rewrite <- Zle_Qle; exact H).
    lra.
  - destruct (Z_le_gt_dec z f) as [Hle | Hgt]; [exact Hle |].
    assert (Hz : (inject_Z (f + 1) <= inject_Z z)%Q) by (rewrite <- Zle_Qle; lia).
    lra.
Qed.

Lemma max_min_is_clamp (x : Q) :
  (Qmax 10 (Qmin 100 x) == clamp 10 100 x)%Q.
Proof.
  unfold clamp.
  destruct (Qlt_le_dec x 10) as [Hlo | Hlo].
  - rewrite (Q.min_r 100 x) by lra. apply Q.max_l. lra.
  - destruct (Qlt_le_dec 100 x) as [Hhi | Hhi].
    + rewrite (Q.min_l 100 x) by lra. apply Q.max_r. lra.
    + rewrite (Q.min_r 100 x) by lra. apply Q.max_r. lra.
Qed.

(** ** Loops that may throw *)

Section ForOf.

(** A loop whose body throws on some elements, whatever the state, and
    otherwise makes a step. *)
Context {S A : Type}.
Variable body : S -> A -> completion S.
Variable fails : A -> option js_error.
Variable step : S -> A -> S.
Hypothesis body_spec : forall s x,
  body s x = match fails x with
             | Some e => Throw e
             | None => Normal (step s x)
             end.

Lemma for_of_outcome (xs : list A) (s : S) :
  match for_of body s xs with
  | Normal s' => Forall (fun x => fails x = None) xs /\ s' = foldl step s xs
  | Throw e =>
      exists before x after,
        xs = before ++ x :: after
        /\ Forall (fun x => fails x = None) before
        /\ fails x = Some e
  end.
Proof.
  revert s. induction xs as [| x xs IH]; intros s; cbn [for_of].
  - split; [constructor | reflexivity].
  - rewrite body_spec. destruct (fails x) as [e |] eqn:Hx; cbn.
    + exists [], x, xs. split; [reflexivity |]. split; [constructor | exact Hx].
    + specialize (IH (step s x)). cbn [foldl].
      destruct (for_of body (step s x) xs) as [s' | e].
      * destruct IH as [Hxs ->]. split; [constructor; assumption | reflexivity].
      * destruct IH as (before & y & after & -> & Hbefore & Hy).
        exists (x :: before), y, after.
        split; [reflexivity |]. split; [constructor; assumption | exact Hy].
Qed.

Lemma for_of_returns (xs : list A) (s : S) :
  Forall (fun x => fails x = None) xs ->
  for_of body s xs = Normal (foldl step s xs).
Proof.
  intros Hok. pose proof (for_of_outcome xs s) as H.
  destruct (for_of body s xs) as [s' | e].
  - destruct H as [_ ->]. reflexivity.
  - destruct H as (before & x & after & -> & _ & Hx).
    apply Forall_app in Hok as [_ Hok]. apply Forall_cons in Hok as [Hok _].
    congruence.
Qed.

Lemma for_of_throws (xs : list A) (s : S) :
  Exists (fun x => is_Some (fails x)) xs ->
  exists e, for_of body s xs = Throw e.
Proof.
  intros Hbad. pose proof (for_of_outcome xs s) as H.
  destruct (for_of body s xs) as [s' | e]; [| eauto].
  destruct H as [Hok _]. exfalso.
  apply Exists_exists in Hbad as (x & Hx & [e He]).
  rewrite Forall_forall in Hok. specialize (Hok x Hx). congruence.
Qed.

End ForOf.

(** ** Plain objects *)

Lemma entry_get_None {V} (k : string) (o : list (string * V)) :
  entry_get k o = None <-> k ∉ o.*1.
Proof.
  induction o as [| [k' v] o IH]; cbn [entry_get fmap list_fmap fst].
  - split; [intros _; apply not_elem_of_nil | reflexivity].
  - rewrite not_elem_of_cons. destruct (String.eqb_spec k k') as [-> | Hne].
    + split; [discriminate | intros [H _]; congruence].
    + rewrite IH. tauto.
Qed.

Lemma entry_get_alter {V} (f : V -> V) (k' k : string) (o : list (string * V)) :
  entry_get k (entry_alter f k' o)
    = if decide (k' = k) then f <$> entry_get k o else entry_get k o.
Proof.
  induction o as [| [k0 v] o IH]; cbn [entry_alter entry_get].
  - destruct (decide (k' = k)); reflexivity.
  - destruct (String.eqb_spec k' k0) as [-> | Hne0]; cbn [entry_get].
    + destruct (String.eqb_spec k k0) as [-> | Hne].
      * rewrite decide_True by reflexivity. reflexivity.
      * rewrite decide_False by congruence. reflexivity.
    + destruct (String.eqb_spec k k0) as [-> | Hne].
      * rewrite decide_False by congruence. reflexivity.
      * exact IH.
Qed.

Lemma entry_get_add {V} (k' k : string) (v : V) (o : list (string * V)) :
  entry_get k (entry_add k' v o)
    = match entry_get k o with
      | Some w => Some w
      | None => if decide (k' = k) then Some v else None
      end.
Proof.
  unfold entry_add. induction o as [| [k0 w] o IH]; cbn [app entry_get].
  - destruct (String.eqb_spec k k') as [-> | Hne].
    + rewrite decide_True by reflexivity. reflexivity.
    + rewrite decide_False by congruence. reflexivity.
  - destruct (String.eqb k k0); [reflexivity | exact IH].
Qed.

Lemma entry_alter_keys {V} (f : V -> V) (k : string) (o : list (string * V)) :
  (entry_alter f k o).*1 = o.*1.
Proof.
  induction o as [| [k0 v] o IH]; [reflexivity |]. cbn [entry_alter].
  destruct (String.eqb k k0); cbn [fmap list_fmap fst]; [reflexivity |].
  f_equal. exact IH.
Qed.

Lemma entry_get_elem {V} (k : string) (v : V) (o : list (string * V)) :
  NoDup o.*1 -> (k, v) ∈ o -> entry_get k o = Some v.
Proof.
  induction o as [| [k0 w] o IH]; intros Hnd Hin.
  - apply elem_of_nil in Hin. contradiction.
  - cbn [fmap list_fmap fst] in Hnd. apply NoDup_cons in Hnd as [Hk0 Hnd].
    cbn [entry_get]. apply elem_of_cons in Hin as [Heq | Hin].
    + injection Heq as -> ->. rewrite String.eqb_refl. reflexivity.
    + destruct (String.eqb_spec k k0) as [-> | Hne]; [| apply IH; assumption].
      exfalso. apply Hk0. apply list_elem_of_fmap. exists (k0, v). auto.
Qed.

Lemma entry_get_fmap {V W} (f : V -> W) (k : string) (o : list (string * V)) :
  entry_get k (prod_map id f <$> o) = f <$> entry_get k o.
Proof.
  induction o as [| [k0 v] o IH]; [reflexivity |].
  cbn [fmap list_fmap prod_map entry_get fst snd id].
  destruct (String.eqb k k0); [reflexivity | exact IH].
Qed.

Lemma entry_fmap_keys {V W} (f : V -> W) (o : list (string * V)) :
  (prod_map id f <$> o).*1 = o.*1.
Proof.
  induction o as [| [k0 v] o IH]; [reflexivity |].
  cbn [fmap list_fmap prod_map fst id] in *. rewrite IH. reflexivity.
Qed.

Lemma entries_from_get {V} (o : list (string * V)) (f : string -> V) :
  NoDup o.*1 ->
  (forall k, k ∈ o.*1 -> entry_get k o = Some (f k)) ->
  o = (fun k => (k, f k)) <$> o.*1.
Proof.
  induction o as [| [k v] o IH]; intros Hnd Hget; [reflexivity |].
  cbn [fmap list_fmap fst] in *. apply NoDup_cons in Hnd as [Hk Hnd].
  assert (Hv : v = f k).
  { assert (Hin : k ∈ k :: o.*1) by left.
    apply Hget in Hin. cbn [entry_get] in Hin.
    rewrite String.eqb_refl in Hin. congruence. }
  rewrite Hv. f_equal. apply IH; [exact Hnd |].
  intros k' Hk'. assert (Hin : k' ∈ k :: o.*1) by (right; exact Hk').
  apply Hget in Hin. cbn [entry_get] in Hin.
  destruct (String.eqb_spec k' k) as [Heq | Hne]; [| exact Hin].
  subst k'. contradiction.
Qed.

(** *** Keys in order of first appearance *)

Lemma seen_fold_NoDup (keys seen : list string) :
  NoDup seen ->
  NoDup (foldl (fun seen k => if decide (k ∈ seen) then seen else seen ++ [k])
               seen keys).
Proof.
  revert seen. induction keys as [| k keys IH]; intros seen Hnd; [exact Hnd |].
  cbn [foldl]. apply IH. destruct (decide (k ∈ seen)); [exact Hnd |].
  apply NoDup_app. split; [exact Hnd |]. split; [| apply NoDup_singleton].
  intros x Hx Hxk. apply list_elem_of_singleton in Hxk. congruence.
Qed.

Lemma seen_fold_elem (keys seen : list string) (x : string) :
  x ∈ foldl (fun seen k => if decide (k ∈ seen) then seen else seen ++ [k])
            seen keys
  <-> x ∈ seen \/ x ∈ keys.
Proof.
  revert seen. induction keys as [| k keys IH]; intros seen; cbn [foldl].
  - rewrite elem_of_nil. tauto.
  - rewrite IH, elem_of_cons. destruct (decide (k ∈ seen)) as [Hk | Hk].
    + split; [tauto |]. intros [H | [-> | H]]; tauto.
    + rewrite elem_of_app, list_elem_of_singleton. tauto.
Qed.

Lemma first_seen_NoDup (keys : list string) : NoDup (first_seen keys).
Proof. apply seen_fold_NoDup, NoDup_nil_2. Qed.

Lemma first_seen_elem (keys : list string) (x : string) :
  x ∈ first_seen keys <-> x ∈ keys.
Proof.
  unfold first_seen. rewrite seen_fold_elem, elem_of_nil. tauto.
Qed.

(** *** The order of the own properties *)

Lemma insert_index_perm {A} (n : N) (x : A) (l : list (N * A)) :
  insert_index n x l ≡ₚ (n, x) :: l.
Proof.
  induction l as [| [m y] l IH]; cbn [insert_index]; [reflexivity |].
  destruct (n <? m)%N; [reflexivity |]. rewrite IH. apply Permutation_swap.
Qed.

Lemma insert_index_fmap {A B} (f : A -> B) (n : N) (x : A) (l : list (N * A)) :
  prod_map id f <$> insert_index n x l
    = insert_index n (f x) (prod_map id f <$> l).
Proof.
  induction l as [| [m y] l IH]; [reflexivity |].
  cbn [insert_index fmap list_fmap prod_map fst snd id].
  destruct (n <? m)%N; cbn [fmap list_fmap prod_map fst snd id]; [reflexivity |].
  f_equal. exact IH.
Qed.

Lemma indexed_fold_perm {A} (key : A -> string) (l : list A) (acc : list (N * A)) :
  snd <$> foldl (fun sorted x =>
                   match array_index (key x) with
                   | Some n => insert_index n x sorted
                   | None => sorted
                   end) acc l
    ≡ₚ (snd <$> acc) ++ filter (fun x => is_Some (array_index (key x))) l.
Proof.
  revert acc. induction l as [| x l IH]; intros acc; cbn [foldl].
  - rewrite app_nil_r. reflexivity.
  - rewrite IH, filter_cons. destruct (array_index (key x)) as [n |] eqn:E.
    + rewrite decide_True by eauto. rewrite insert_index_perm.
      cbn [fmap list_fmap snd]. apply Permutation_middle.
    + rewrite decide_False by (intros [? ?]; discriminate). reflexivity.
Qed.

Lemma filter_split_perm {A} (P : A -> Prop) `{!forall x, Decision (P x)}
    (R : A -> Prop) `{!forall x, Decision (R x)} (l : list A) :
  (forall x, P x <-> ~ R x) -> filter P l ++ filter R l ≡ₚ l.
Proof.
  intros HPR. induction l as [| x l IH]; [reflexivity |].
  rewrite !filter_cons. destruct (decide (P x)) as [HP | HP];
    destruct (decide (R x)) as [HR | HR].
  - exfalso. apply HPR in HP. contradiction.
  - cbn [app]. rewrite IH. reflexivity.
  - rewrite <- Permutation_middle, IH. reflexivity.
  - exfalso. apply HP, HPR, HR.
Qed.

Lemma own_order_perm {A} (key : A -> string) (l : list A) :
  own_property_order key l ≡ₚ l.
Proof.
  unfold own_property_order. rewrite indexed_fold_perm. cbn [fmap list_fmap app].
  apply filter_split_perm. intros x.
  destruct (array_index (key x)); split.
  - intros _ H. discriminate.
  - intros _. eauto.
  - intros [? ?]. discriminate.
  - intros H. exfalso. apply H. reflexivity.
Qed.

Lemma own_order_fmap {A B} (f : A -> B) (key : A -> string) (key' : B -> string)
    (l : list A) :
  (forall x, key' (f x) = key x) ->
  f <$> own_property_order key l = own_property_order key' (f <$> l).
Proof.
  intros Hkey. unfold own_property_order. rewrite fmap_app. f_equal.
  - assert (Hfold : forall acc,
              prod_map id f
                <$> foldl (fun sorted x =>
                             match array_index (key x) with
                             | Some n => insert_index n x sorted
                             | None => sorted
                             end) acc l
              = foldl (fun sorted y =>
                         match array_index (key' y) with
                         | Some n => insert_index n y sorted
                         | None => sorted
                         end) (prod_map id f <$> acc) (f <$> l)).
    { induction l as [| x l IH]; intros acc; [reflexivity |].
      cbn [foldl fmap list_fmap]. rewrite IH, Hkey.
      destruct (array_index (key x)); [rewrite insert_index_fmap |]; reflexivity. }
    specialize (Hfold []). cbn [fmap list_fmap] in Hfold. rewrite <- Hfold.
    rewrite <- !list_fmap_compose. apply list_fmap_ext. intros i [n x] _. reflexivity.
  - induction l as [| x l IH]; [reflexivity |].
    cbn [fmap list_fmap]. rewrite !filter_cons, Hkey.
    destruct (decide (array_index (key x) = None)); cbn [fmap list_fmap];
      rewrite IH; reflexivity.
Qed.

Lemma own_order_plain {A} (key : A -> string) (l : list A) :
  Forall (fun x => array_index (key x) = None) l ->
  own_property_order key l = l.
Proof.
  intros Hplain. unfold own_property_order.
  assert (Hfold : forall acc,
            foldl (fun sorted x =>
                     match array_index (key x) with
                     | Some n => insert_index n x sorted
                     | None => sorted
                     end) acc l = acc).
  { induction Hplain as [| x l Hx Hl IH]; intros acc; [reflexivity |].
    cbn [foldl]. rewrite Hx. apply IH. }
  rewrite Hfold. cbn [fmap list_fmap app].
  induction Hplain as [| x l Hx Hl IH]; [reflexivity |].
  rewrite filter_cons, decide_True by exact Hx. f_equal. apply IH.
  intros acc. specialize (Hfold acc). cbn [foldl] in Hfold. rewrite Hx in Hfold.
  exact Hfold.
Qed.

Lemma own_order_elem {A} (key : A -> string) (l : list A) (x : A) :
  x ∈ own_property_order key l <-> x ∈ l.
Proof. rewrite own_order_perm. reflexivity. Qed.

Lemma own_order_NoDup {A} (key : A -> string) (l : list A) :
  NoDup l -> NoDup (own_property_order key l).
Proof. intros H. rewrite own_order_perm. exact H. Qed.

Lemma Object_keys_order {V} (o : list (string * V)) :
  Object_keys o = own_property_order id o.*1.
Proof. unfold Object_keys. apply own_order_fmap. reflexivity. Qed.

Lemma Object_entries_keys {V} (o : list (string * V)) :
  (Object_entries o).*1 = own_property_order id o.*1.
Proof. apply Object_keys_order. Qed.

(** *** Grouping loops *)

Section GroupedLoop.

Context {X V : Type}.
Variable key : X -> string.
Variable init : string -> V.
Variable upd : X -> V -> V.

Lemma grouped_step_get (o : list (string * V)) (x : X) (k : string) :
  entry_get k (grouped_step key init upd o x)
    = if decide (key x = k) then Some (upd x (default (init k) (entry_get k o)))
      else entry_get k o.
Proof.
  unfold grouped_step. rewrite entry_get_alter.
  destruct (entry_get (key x) o) as [g |] eqn:E.
  - destruct (decide (key x = k)) as [<- |]; [| reflexivity].
    rewrite E. reflexivity.
  - rewrite entry_get_add. destruct (decide (key x = k)) as [<- | Hne].
    + rewrite E. reflexivity.
    + destruct (entry_get k o); reflexivity.
Qed.

Lemma grouped_step_keys (o : list (string * V)) (x : X) :
  (grouped_step key init upd o x).*1
    = if decide (key x ∈ o.*1) then o.*1 else o.*1 ++ [key x].
Proof.
  unfold grouped_step. rewrite entry_alter_keys.
  destruct (entry_get (key x) o) as [g |] eqn:E.
  - rewrite decide_True; [reflexivity |].
    destruct (decide (key x ∈ o.*1)) as [H | H]; [exact H |].
    apply entry_get_None in H. congruence.
  - apply entry_get_None in E. rewrite decide_False by exact E.
    unfold entry_add. rewrite fmap_app. reflexivity.
Qed.

Lemma grouped_fold_get (xs : list X) (o : list (string * V)) (k : string) :
  entry_get k (foldl (grouped_step key init upd) o xs)
    = foldl (fun g x => Some (upd x (default (init k) g)))
            (entry_get k o) (filter (fun x => key x = k) xs).
Proof.
  revert o. induction xs as [| x xs IH]; intros o; [reflexivity |].
  cbn [foldl]. rewrite IH, grouped_step_get, filter_cons.
  destruct (decide (key x = k)); reflexivity.
Qed.

Lemma grouped_fold_keys (xs : list X) (o : list (string * V)) :
  (foldl (grouped_step key init upd) o xs).*1
    = foldl (fun seen k => if decide (k ∈ seen) then seen else seen ++ [k])
            o.*1 (key <$> xs).
Proof.
  revert o. induction xs as [| x xs IH]; intros o; [reflexivity |].
  cbn [foldl fmap list_fmap]. rewrite IH, grouped_step_keys. reflexivity.
Qed.

End GroupedLoop.

(** ** Velocity score *)

Lemma velocity_invalid_dates (p : Placement) (j : Job) :
  fill_time p = None \/ open_time j = None ->
  calculateVelocityScore (Obj p) (Obj j) = 0.
Proof.
  unfold fill_time, open_time, calculateVelocityScore, getTime.
  intros [H | H]; rewrite H.
  - destruct (new_Date (or_field (job_createdAt j) (openDate j))); reflexivity.
  - reflexivity.
Qed.

Section ParsedPair.

(** A placement and a job whose timestamps both parse. *)
Variables (p : Placement) (j : Job) (fill open : Z).
Hypothesis Hfill : fill_time p = Some fill.
Hypothesis Hopen : open_time j = Some open.

Lemma velocity_unfold :
  calculateVelocityScore (Obj p) (Obj j) =
    if Qlt_le_dec (daysBetween fill open) 0 then 100
    else Math_round (Qmax 10 (Qmin 100 (100 - daysBetween fill open * 2))).
Proof.
  pose proof Hfill as Hp. pose proof Hopen as Hj.
  unfold fill_time, open_time in Hp, Hj. unfold calculateVelocityScore.
  rewrite Hp, Hj.
  destruct (Qlt_le_dec (daysBetween fill open) 0); [| reflexivity].
  unfold getTime in Hp, Hj. rewrite Hp, Hj. reflexivity.
Qed.

(** C4. With both timestamps parsed and a non-negative [daysToFill], the
    velocity score is [round(clamp(100 - daysToFill * 2, 10, 100))]; equal
    timestamps give 100 and a fill of 45 days or more gives 10. *)
Theorem velocity_score_decay :
  (0 <= daysBetween fill open)%Q ->
  calculateVelocityScore (Obj p) (Obj j)
    = Math_round (clamp 10 100 (100 - daysBetween fill open * 2))
  /\ (fill = open -> calculateVelocityScore (Obj p) (Obj j) = 100)
  /\ ((45 <= daysBetween fill open)%Q -> calculateVelocityScore (Obj p) (Obj j) = 10).
Proof.
  intros Hdays.
  assert (Hscore : calculateVelocityScore (Obj p) (Obj j)
            = Math_round (clamp 10 100 (100 - daysBetween fill open * 2))).
  { rewrite velocity_unfold.
    destruct (Qlt_le_dec (daysBetween fill open) 0) as [Hneg | _]; [lra |].
    apply Math_round_comp, max_min_is_clamp. }
  split; [exact Hscore |]. split.
  - intros Hsame. rewrite Hscore, Hsame. unfold daysBetween.
    rewrite Z.sub_diag. reflexivity.
  - intros Hlong. rewrite Hscore. unfold clamp.
    destruct (Qlt_le_dec _ 10) as [_ | Hge]; [reflexivity |].
    destruct (Qlt_le_dec 100 _) as [Hgt | _]; [lra |].
    apply (Math_round_comp _ 10). lra.
Qed.

(** C5. With both timestamps parsed and a negative [daysToFill] (fill
    recorded before the job was opened), the velocity score is 100. *)
Theorem velocity_score_fill_before_open :
  (daysBetween fill open < 0)%Q ->
  calculateVelocityScore (Obj p) (Obj j) = 100.
Proof.
  intros Hneg. rewrite velocity_unfold.
  destruct (Qlt_le_dec (daysBetween fill open) 0); [reflexivity | lra].
Qed.

End ParsedPair.

Lemma velocity_score_decay_witness :
  fill_time (placement_filled_at 1705276800000) = Some 1705276800000
  /\ open_time (job_opened_at 1704067200000) = Some 1704067200000
  /\ (0 <= daysBetween 1705276800000 1704067200000)%Q
  /\ calculateVelocityScore (Obj (placement_filled_at 1705276800000))
                            (Obj (job_opened_at 1704067200000))
     = Math_round (clamp 10 100 (100 - daysBetween 1705276800000 1704067200000 * 2))
  /\ Math_round (clamp 10 100 (100 - daysBetween 1705276800000 1704067200000 * 2)) = 72.
Proof.
  assert (Hdays : (0 <= daysBetween 1705276800000 1704067200000)%Q)
    by (vm_compute; discriminate).
  split; [reflexivity |]. split; [reflexivity |]. split; [exact Hdays |].
  split; [| vm_compute; reflexivity].
  exact (proj1 (velocity_score_decay (placement_filled_at 1705276800000)
                  (job_opened_at 1704067200000) 1705276800000 1704067200000
                  eq_refl eq_refl Hdays)).
Defined.

Lemma velocity_score_fill_before_open_witness :
  fill_time (placement_filled_at 1704067200000) = Some 1704067200000
  /\ open_time (job_opened_at 1705276800000) = Some 1705276800000
  /\ (daysBetween 1704067200000 1705276800000 < 0)%Q
  /\ calculateVelocityScore (Obj (placement_filled_at 1704067200000))
                            (Obj (job_opened_at 1705276800000)) = 100.
Proof.
  assert (Hdays : (daysBetween 1704067200000 1705276800000 < 0)%Q)
    by (vm_compute; reflexivity).
  split; [reflexivity |]. split; [reflexivity |]. split; [exact Hdays |].
  exact (velocity_score_fill_before_open (placement_filled_at 1704067200000)
           (job_opened_at 1705276800000) 1704067200000 1705276800000
           eq_refl eq_refl Hdays).
Defined.

Lemma velocity_score_range (placement : nullable Placement) (job : nullable Job) :
  0 <= calculateVelocityScore placement job <= 100.
Proof.
  destruct placement as [| | p]; destruct job as [| | j];
    try (change (calculateVelocityScore _ _) with 0; lia).
  destruct (fill_time p) as [fill |] eqn:Hp;
    [destruct (open_time j) as [open |] eqn:Hj |].
  - rewrite (velocity_unfold p j fill open Hp Hj).
    destruct (Qlt_le_dec (daysBetween fill open) 0); [lia |].
    apply Math_round_bounds.
    + apply Qle_trans with 10%Q; [discriminate | apply Q.le_max_l].
    + apply Q.max_lub; [discriminate | apply Q.le_min_l].
  - rewrite (velocity_invalid_dates p j) by (right; exact Hj). lia.
  - rewrite (velocity_invalid_dates p j) by (left; exact Hp). lia.
Qed.

(** ** ROI score *)

Lemma roi_no_cost (p : Placement) (a : Attribution) :
  (totalCost a == 0)%Q ->
  calculateROIScore (Obj p) (Obj a)
    = margin_proxy (or_zero (revenue p)) (or_zero (margin p)).
Proof.
  intros Hcost. unfold calculateROIScore, margin_proxy, totalCost in *. simpl.
  apply Qeq_bool_iff in Hcost. rewrite Hcost. reflexivity.
Qed.

Lemma roi_with_cost (p : Placement) (a : Attribution) :
  ~ (totalCost a == 0)%Q ->
  calculateROIScore (Obj p) (Obj a)
    = Z.min 100 (Z.max 0 (Math_round
        ((or_zero (revenue p) - totalCost a) / totalCost a * 100 / 5))).
Proof.
  intros Hcost. unfold calculateROIScore, totalCost in *. simpl.
  destruct (Qeq_bool _ 0) eqn:E; [apply Qeq_bool_iff in E; contradiction |].
  reflexivity.
Qed.

Lemma roi_undefined_attribution (placement : nullable Placement) :
  calculateROIScore placement Undefined
    = calculateROIScore placement (Obj empty_attribution).
Proof. destruct placement; reflexivity. Qed.

Lemma roi_null_attribution (placement : nullable Placement) :
  calculateROIScore placement Null = 0.
Proof. destruct placement; reflexivity. Qed.

(** *** The margin proxy in binary64 arithmetic *)

Lemma roi64_no_cost (p : Binary64.Placement) (a : Binary64.Attribution) :
  Binary64.strict_eq (totalCost64 a) (Binary64.of_Z 0) = true ->
  Binary64.calculateROIScore (Obj p) (Obj a)
    = margin_proxy64 (Binary64.or_zero (Binary64.revenue p))
                     (Binary64.or_zero (Binary64.margin p)).
Proof.
  intros Hcost. unfold Binary64.calculateROIScore, margin_proxy64, totalCost64 in *.
  cbn [with_default mbind completion_bind mret completion_ret try_catch].
  rewrite Hcost. reflexivity.
Qed.

Lemma roi64_undefined_attribution (placement : nullable Binary64.Placement) :
  Binary64.calculateROIScore placement Undefined
    = Binary64.calculateROIScore placement (Obj Binary64.empty_attribution).
Proof. destruct placement; reflexivity. Qed.

(** For a revenue that is not negative the two guards of the division,
    [revenue > 0] and [revenue != 0], agree. *)
Lemma margin_proxy64_spec (x : option Binary64.number) (margin : Binary64.number) :
  Binary64.lt (Binary64.or_zero x) (Binary64.of_Z 0) = false ->
  margin_proxy64 (Binary64.or_zero x) margin
    = margin_proxy_spec64 (Binary64.or_zero x) margin.
Proof.
  unfold margin_proxy64, margin_proxy_spec64, Binary64.lt, Binary64.gt,
    Binary64.strict_eq, Binary64.or_zero.
  change (Binary64.of_Z 0) with (SpecFloat.S754_zero false).
  destruct x as [[s | s | | s m e] |]; cbn [Binary64.truthy];
    try destruct s; cbn; intros H; first [reflexivity | discriminate].
Qed.

(** C6, as stated, fails on a placement with negative revenue: the
    specification's formula divides (marginPercentage 50, score 100), the
    source takes the percentage as 0.  Read in exact arithmetic it also
    fails on revenue 8000 and margin 2300, where the percentage times 2 is
    57.5 and rounds to 58, and the source computes 57.49999999999999 and
    returns 57. *)
Lemma roi_margin_proxy_negative_revenue :
  Binary64.strict_eq (totalCost64 Binary64.empty_attribution) (Binary64.of_Z 0) = true
  /\ Binary64.calculateROIScore (Obj (earning64 (-100) (-50)))
                                (Obj Binary64.empty_attribution)
     = Binary64.of_Z 0
  /\ margin_proxy_spec64 (Binary64.of_Z (-100)) (Binary64.of_Z (-50))
     = Binary64.of_Z 100
  /\ Binary64.calculateROIScore (Obj (earning64 8000 2300))
                                (Obj Binary64.empty_attribution)
     = Binary64.of_Z 57
  /\ margin_proxy_spec 8000 2300 = 58.
Proof.
  split; [reflexivity |]. split; [vm_compute; reflexivity |].
  split; [vm_compute; reflexivity |]. split; [vm_compute; reflexivity | reflexivity].
Qed.

(** C6, amended. For a non-null placement whose attribution costs sum to
    zero, the ROI score is [min(100, round(marginPercentage * 2))] where
    [marginPercentage] is [margin / revenue * 100] for a positive revenue
    and 0 otherwise, every operation being the binary64 operation of the
    source; this is the specification's formula whenever the revenue is not
    negative, and revenue 10000 with margin 2000 and no cost data scores
    40. *)
Theorem roi_margin_proxy (p : Binary64.Placement) (a : Binary64.Attribution) :
  Binary64.strict_eq (totalCost64 a) (Binary64.of_Z 0) = true ->
  Binary64.calculateROIScore (Obj p) (Obj a)
    = margin_proxy64 (Binary64.or_zero (Binary64.revenue p))
                     (Binary64.or_zero (Binary64.margin p))
  /\ Binary64.calculateROIScore (Obj p) Undefined
     = margin_proxy64 (Binary64.or_zero (Binary64.revenue p))
                      (Binary64.or_zero (Binary64.margin p))
  /\ (Binary64.lt (Binary64.or_zero (Binary64.revenue p)) (Binary64.of_Z 0) = false ->
      Binary64.calculateROIScore (Obj p) (Obj a)
        = margin_proxy_spec64 (Binary64.or_zero (Binary64.revenue p))
                              (Binary64.or_zero (Binary64.margin p)))
  /\ Binary64.calculateROIScore (Obj (earning64 10000 2000)) Undefined
     = Binary64.of_Z 40.
Proof.
  intros Hcost. pose proof (roi64_no_cost p a Hcost) as Hscore.
  split; [exact Hscore |]. split.
  - rewrite roi64_undefined_attribution. apply roi64_no_cost. reflexivity.
  - split; [| vm_compute; reflexivity].
    intros Hrev. rewrite Hscore. apply margin_proxy64_spec, Hrev.
Qed.

Lemma roi_margin_proxy_witness :
  Binary64.strict_eq (totalCost64 Binary64.empty_attribution) (Binary64.of_Z 0) = true
  /\ Binary64.calculateROIScore (Obj (earning64 8000 1000))
                                (Obj Binary64.empty_attribution)
     = margin_proxy64 (Binary64.of_Z 8000) (Binary64.of_Z 1000)
  /\ margin_proxy64 (Binary64.of_Z 8000) (Binary64.of_Z 1000) = Binary64.of_Z 25.
Proof.
  assert (Hcost : Binary64.strict_eq (totalCost64 Binary64.empty_attribution)
                                     (Binary64.of_Z 0) = true) by reflexivity.
  split; [exact Hcost |]. split; [| vm_compute; reflexivity].
  exact (proj1 (roi_margin_proxy (earning64 8000 1000)
                                 Binary64.empty_attribution Hcost)).
Defined.

(** C1, on the failing input: a placement with revenue 10000, margin -2000
    and no cost data gets the ROI score -40, outside [0, 100]. *)
Theorem roi_score_negative_margin :
  calculateROIScore (Obj (placement_earning 10000 (-2000))) Undefined = -40
  /\ ~ (0 <= calculateROIScore (Obj (placement_earning 10000 (-2000))) Undefined
         <= 100).
Proof.
  assert (H : calculateROIScore (Obj (placement_earning 10000 (-2000))) Undefined
              = -40) by reflexivity.
  split; [exact H |]. rewrite H. lia.
Qed.

(** The cost branch of the ROI score is clamped on both sides. *)
Lemma roi_with_cost_range (p : Placement) (a : Attribution) :
  ~ (totalCost a == 0)%Q -> 0 <= calculateROIScore (Obj p) (Obj a) <= 100.
Proof. intros Hcost. rewrite (roi_with_cost p a Hcost). lia. Qed.

(** The margin branch is never above 100, and it is not below 0 when the
    margin is not negative. *)
Lemma roi_no_cost_range (p : Placement) (a : Attribution) :
  (totalCost a == 0)%Q ->
  (0 <= or_zero (margin p))%Q ->
  0 <= calculateROIScore (Obj p) (Obj a) <= 100.
Proof.
  intros Hcost Hmargin. rewrite (roi_no_cost p a Hcost). unfold margin_proxy.
  split; [| lia]. apply Z.min_glb; [lia |].
  transitivity (Math_round 0); [reflexivity |]. apply Math_round_le.
  destruct (Qlt_le_dec 0 (or_zero (revenue p))) as [Hpos | _]; [| discriminate].
  assert (0 <= or_zero (margin p) / or_zero (revenue p))%Q.
  { apply Qle_shift_div_l; lra. }
  lra.
Qed.

(** ** Overall score *)

Lemma sum_reduce_from (xs : list Q) (a : Q) :
  (fold_left Qplus xs a == a + sum_reduce xs)%Q.
Proof.
  unfold sum_reduce. revert a.
  induction xs as [| x xs IH]; intros a; simpl.
  - ring.
  - rewrite (IH (a + x)%Q), (IH (0 + x)%Q). ring.
Qed.

Lemma sum_reduce_cons (x : Q) (xs : list Q) :
  (sum_reduce (x :: xs) == x + sum_reduce xs)%Q.
Proof.
  unfold sum_reduce at 1. simpl. rewrite sum_reduce_from. ring.
Qed.

(** *** The weighted sum in binary64 arithmetic *)





Example overall_score_unnormalised_weights :
  calculateOverallScore 100 0 (Some (weights_of 3 1)) = 75
  /\ calculateOverallScore 100 0 (Some (weights_of 0 0)) = 50.
Proof. split; reflexivity. Qed.




(** ** Tiers *)

Lemma Qle_bool_false (x y : Q) : Qle_bool x y = false -> (y < x)%Q.
Proof.
  intros H. apply Qnot_le_lt. intros Hle.
  apply Qle_bool_iff in Hle. congruence.
Qed.

Ltac split_thresholds :=
  repeat match goal with
    | H : Qle_bool _ _ = true |- _ => apply Qle_bool_iff in H
    | H : Qle_bool _ _ = false |- _ => apply Qle_bool_false in H
    end.

(** C8. [getScoreTier] returns the label of the one band the score lies
    in, each band closed below and open above; 90, 89, 74, 49 and 24 fall
    in excellent, good, average, below_average and poor. *)
Theorem getScoreTier_thresholds (score : Q) :
  ((90 <= score)%Q /\ getScoreTier score = "excellent"
   \/ (75 <= score < 90)%Q /\ getScoreTier score = "good"
   \/ (50 <= score < 75)%Q /\ getScoreTier score = "average"
   \/ (25 <= score < 50)%Q /\ getScoreTier score = "below_average"
   \/ (score < 25)%Q /\ getScoreTier score = "poor")
  /\ getScoreTier 90 = "excellent"
  /\ getScoreTier 89 = "good"
  /\ getScoreTier 74 = "average"
  /\ getScoreTier 49 = "below_average"
  /\ getScoreTier 24 = "poor".
Proof.
  split; [| repeat split; reflexivity].
  unfold getScoreTier.
  destruct (Qle_bool 90 score) eqn:H90; [split_thresholds; auto |].
  destruct (Qle_bool 75 score) eqn:H75; [split_thresholds; auto 6 |].
  destruct (Qle_bool 50 score) eqn:H50; [split_thresholds; auto 8 |].
  destruct (Qle_bool 25 score) eqn:H25; split_thresholds; auto 10.
Qed.

(** ** Batch scoring *)

Lemma default_weights_normalized :
  (fst (normalizeWeights default_weights) == 4 # 10)%Q
  /\ (snd (normalizeWeights default_weights) == 6 # 10)%Q.
Proof. split; vm_compute; reflexivity. Qed.

Lemma overall_score_default (v r : Q) :
  calculateOverallScore v r None = Math_round ((4 # 10) * v + (6 # 10) * r)%Q.
Proof.
  unfold calculateOverallScore.
  change (default default_weights None) with default_weights.
  destruct default_weights_normalized as [Hv Hr].
  apply Math_round_comp. rewrite Hv, Hr. ring.
Qed.

(** C10. Every record returned by [batchCalculateScores] carries the
    overall score of its own velocity and ROI scores under the default
    weights, [round(0.4 * velocityScore + 0.6 * roiScore)]; the batch
    interface takes the placements only. *)
Theorem batch_overall_score (placements : list Placement) :
  Forall (fun s =>
            Scored.overallScore s
              = calculateOverallScore (inject_Z (Scored.velocityScore s))
                                      (inject_Z (Scored.roiScore s)) None
            /\ Scored.overallScore s
              = Math_round ((4 # 10) * inject_Z (Scored.velocityScore s)
                            + (6 # 10) * inject_Z (Scored.roiScore s))%Q)
         (batchCalculateScores placements)
  /\ map Scored.placement (batchCalculateScores placements) = placements.
Proof.
  split.
  - induction placements as [| p ps IH]; constructor; [| exact IH].
    cbn [Scored.overallScore Scored.velocityScore Scored.roiScore].
    split; [reflexivity | apply overall_score_default].
  - induction placements as [| p ps IH]; [reflexivity |].
    cbn [batchCalculateScores map Scored.placement] in *. f_equal. exact IH.
Qed.

Lemma batch_scores_own (placements : list Placement) :
  map Scored.velocityScore (batchCalculateScores placements)
    = map (fun p => calculateVelocityScore (Obj p) (job p)) placements
  /\ map Scored.roiScore (batchCalculateScores placements)
    = map (fun p => calculateROIScore (Obj p) (attribution p)) placements.
Proof.
  unfold batchCalculateScores. split; rewrite map_map; reflexivity.
Qed.

(** ** Score distribution *)

Lemma bucket_key_tier (score : Q) :
  bucket_key score = tier_bucket (getScoreTier score)
  /\ getScoreTier score ∈ five_tiers.
Proof.
  unfold bucket_key, getScoreTier, five_tiers.
  repeat destruct (Qle_bool _ score); split; first [reflexivity | set_solver].
Qed.

Lemma bucket_key_iff (score : Q) (tier : string) :
  tier ∈ five_tiers ->
  bucket_key score = tier_bucket tier <-> getScoreTier score = tier.
Proof.
  intros Htier. destruct (bucket_key_tier score) as [-> Hs].
  split; [| intros ->; reflexivity].
  unfold five_tiers in *.
  repeat (apply elem_of_cons in Htier as [-> | Htier]);
    repeat (apply elem_of_cons in Hs as [-> | Hs]);
    try (apply elem_of_nil in Htier; contradiction);
    try (apply elem_of_nil in Hs; contradiction);
    first [reflexivity | vm_compute; discriminate].
Qed.

Lemma distribution_lookup (scores : list Q) (buckets : gmap string nat) (k : string) :
  foldl (fun buckets score => alter S (bucket_key score) buckets) buckets scores !! k
    = (fun n => n + length (filter (fun score => bucket_key score = k) scores))%nat
        <$> buckets !! k.
Proof.
  revert buckets. induction scores as [| s scores IH]; intros buckets.
  - cbn [foldl]. destruct (buckets !! k); cbn; [| reflexivity].
    rewrite Nat.add_0_r. reflexivity.
  - cbn [foldl]. rewrite IH, lookup_alter, filter_cons.
    destruct (decide (bucket_key s = k)) as [Heq | Hne].
    + subst k. destruct (buckets !! bucket_key s); cbn; [| reflexivity].
      rewrite Nat.add_succ_r. reflexivity.
    + reflexivity.
Qed.

Lemma distribution_dom (scores : list Q) (buckets : gmap string nat) :
  dom (foldl (fun buckets score => alter S (bucket_key score) buckets) buckets scores)
    = dom buckets.
Proof.
  revert buckets. induction scores as [| s scores IH]; intros buckets.
  - reflexivity.
  - cbn [foldl]. rewrite IH. apply dom_alter_L.
Qed.

Lemma distribution_tier (scores : list Q) (tier : string) :
  tier ∈ five_tiers ->
  calculateScoreDistribution scores !! tier_bucket tier
    = Some (tier_count tier scores).
Proof.
  intros Htier. unfold calculateScoreDistribution, tier_count.
  rewrite distribution_lookup.
  rewrite (list_filter_iff (fun score => bucket_key score = tier_bucket tier)
                           (fun score => getScoreTier score = tier))
    by (intros s; apply bucket_key_iff, Htier).
  unfold five_tiers in Htier.
  repeat (apply elem_of_cons in Htier as [-> | Htier]);
    try (apply elem_of_nil in Htier; contradiction); reflexivity.
Qed.

(** C9. The distribution has exactly the five literal bucket keys; each
    bucket counts the scores of its tier (so all five are 0 on the empty
    list); on [100, 95, 80, 60, 30, 10] the counts are 2, 1, 1, 1, 1. *)
Theorem score_distribution_buckets (scores : list Q) :
  dom (calculateScoreDistribution scores)
    = ({["excellent (90-100)"; "good (75-89)"; "average (50-74)";
         "below_average (25-49)"; "poor (0-24)"]} : gset string)
  /\ calculateScoreDistribution scores !! "excellent (90-100)"
       = Some (tier_count "excellent" scores)
  /\ calculateScoreDistribution scores !! "good (75-89)"
       = Some (tier_count "good" scores)
  /\ calculateScoreDistribution scores !! "average (50-74)"
       = Some (tier_count "average" scores)
  /\ calculateScoreDistribution scores !! "below_average (25-49)"
       = Some (tier_count "below_average" scores)
  /\ calculateScoreDistribution scores !! "poor (0-24)"
       = Some (tier_count "poor" scores)
  /\ map (fun k => calculateScoreDistribution [] !! k)
         ["excellent (90-100)"; "good (75-89)"; "average (50-74)";
          "below_average (25-49)"; "poor (0-24)"]
       = [Some 0; Some 0; Some 0; Some 0; Some 0]%nat
  /\ map (fun k => calculateScoreDistribution [100; 95; 80; 60; 30; 10]%Q !! k)
         ["excellent (90-100)"; "good (75-89)"; "average (50-74)";
          "below_average (25-49)"; "poor (0-24)"]
       = [Some 2; Some 1; Some 1; Some 1; Some 1]%nat.
Proof.
  split.
  { unfold calculateScoreDistribution. rewrite distribution_dom.
    unfold initial_buckets. rewrite !dom_insert_L, dom_empty_L. set_solver. }
  split; [| split; [| split; [| split; [| split; [| split]]]]].
  - apply (distribution_tier scores "excellent"). set_solver.
  - apply (distribution_tier scores "good"). set_solver.
  - apply (distribution_tier scores "average"). set_solver.
  - apply (distribution_tier scores "below_average"). set_solver.
  - apply (distribution_tier scores "poor"). set_solver.
  - vm_compute. reflexivity.
  - vm_compute. reflexivity.
Qed.


(** ** Service-line attribution *)

Lemma inherited_spec (k : string) :
  inherited k = true <-> k ∈ Object_prototype_names.
Proof.
  unfold inherited. rewrite existsb_exists. split.
  - intros (k' & Hin & Heq). apply String.eqb_eq in Heq. subst k'.
    apply list_elem_of_In, Hin.
  - intros Hin. exists k. split; [apply list_elem_of_In, Hin | apply String.eqb_refl].
Qed.

Lemma proto_is_inherited (k : string) :
  String.eqb k "__proto__" = true -> inherited k = true.
Proof. intros H. apply String.eqb_eq in H. subst k. reflexivity. Qed.

Lemma attribute_spec (s : list (string * LineData) * bool) (p : Placement) :
  attribute s p = match attribute_fails p with
                  | Some e => Throw e
                  | None => Normal (attribute_step s p)
                  end.
Proof.
  destruct s as [o ext]. unfold attribute, attribute_fails, attribute_step.
  destruct (inherited (line_key p)); [| reflexivity].
  destruct (truthy_number (velocityScore p)); reflexivity.
Qed.

Lemma attribute_fold (ps : list Placement) (o : list (string * LineData)) (ext : bool) :
  foldl attribute_step (o, ext) ps
    = (foldl (grouped_step line_key new_line add_placement) o (attributable ps),
       ext || existsb (fun p => String.eqb (line_key p) "__proto__") ps).
Proof.
  revert o ext. unfold attributable.
  induction ps as [| p ps IH]; intros o ext; cbn [foldl existsb].
  - rewrite orb_false_r. reflexivity.
  - rewrite filter_cons. unfold attribute_step at 2. cbn [fst snd].
    destruct (inherited (line_key p)) eqn:E.
    + rewrite decide_False by discriminate. rewrite IH, orb_assoc. reflexivity.
    + rewrite decide_True by reflexivity. cbn [foldl]. rewrite IH.
      destruct (String.eqb (line_key p) "__proto__") eqn:Ep;
        [apply proto_is_inherited in Ep; congruence | reflexivity].
Qed.

Lemma group_of_attributable (k : string) (placements : list Placement) :
  group_of k (attributable placements)
    = if inherited k then [] else group_of k placements.
Proof.
  unfold group_of, attributable.
  induction placements as [| p ps IH].
  - destruct (inherited k); reflexivity.
  - rewrite !filter_cons.
    destruct (decide (inherited (line_key p) = false)) as [Hp | Hp];
      destruct (decide (line_key p = k)) as [Hk | Hk].
    + rewrite filter_cons, decide_True by exact Hk. rewrite IH, <- Hk, Hp. reflexivity.
    + rewrite filter_cons, decide_False by exact Hk. exact IH.
    + rewrite IH, <- Hk. destruct (inherited (line_key p)); [reflexivity | congruence].
    + exact IH.
Qed.

Lemma group_fold_some (g : list Placement) (k : string) (data : LineData) :
  foldl (fun o p => Some (add_placement p (default (new_line k) o))) (Some data) g
    = Some (accumulate data g).
Proof.
  revert data. induction g as [| p g IH]; intros data; [reflexivity |].
  cbn [foldl]. apply IH.
Qed.

Lemma group_fold_none (g : list Placement) (k : string) :
  foldl (fun o p => Some (add_placement p (default (new_line k) o))) None g
    = match g with
      | [] => None
      | _ :: _ => Some (accumulate (new_line k) g)
      end.
Proof.
  destruct g as [| p g]; [reflexivity |]. cbn [foldl].
  rewrite group_fold_some. reflexivity.
Qed.

Lemma accumulate_fields (g : list Placement) (data : LineData) :
  data_serviceLine (accumulate data g) = data_serviceLine data
  /\ data_placementCount (accumulate data g)
     = (data_placementCount data + length g)%nat
  /\ data_totalRevenue (accumulate data g)
     = foldl (fun acc p => (acc + or_zero (revenue p))%Q) (data_totalRevenue data) g
  /\ data_totalMargin (accumulate data g)
     = foldl (fun acc p => (acc + or_zero (margin p))%Q) (data_totalMargin data) g
  /\ data_averageVelocity (accumulate data g) = data_averageVelocity data
  /\ velocityScores (accumulate data g) = velocityScores data ++ counted_scores g.
Proof.
  revert data. induction g as [| p g IH]; intros data.
  - cbn. rewrite Nat.add_0_r, app_nil_r. repeat split; reflexivity.
  - destruct (IH (add_placement p data)) as (H1 & H2 & H3 & H4 & H5 & H6).
    unfold accumulate in *. cbn [foldl].
    rewrite H1, H2, H3, H4, H5, H6. cbn [add_placement data_serviceLine
      data_placementCount data_totalRevenue data_totalMargin
      data_averageVelocity velocityScores length].
    repeat split; try reflexivity; [lia |].
    unfold counted_scores. cbn [omap list_omap].
    destruct (truthy_number (velocityScore p)); [| reflexivity].
    rewrite <- app_assoc. reflexivity.
Qed.

Lemma finish_new_line (k : string) (g : list Placement) :
  finish_line (accumulate (new_line k) g)
    = mkSummary k (length g) (total revenue g) (total margin g)
                (rounded_mean (counted_scores g)).
Proof.
  destruct (accumulate_fields g (new_line k)) as (H1 & H2 & H3 & H4 & H5 & H6).
  unfold finish_line. rewrite H1, H2, H3, H4, H5, H6. reflexivity.
Qed.

Lemma group_of_nonempty (k : string) (placements : list Placement) :
  group_of k placements <> [] <-> k ∈ line_key <$> placements.
Proof.
  unfold group_of. rewrite list_elem_of_fmap. split.
  - intros Hne. destruct (filter _ placements) as [| p g] eqn:E; [congruence |].
    assert (Hp : p ∈ filter (fun p => line_key p = k) placements)
      by (rewrite E; left).
    apply list_elem_of_filter in Hp as [Hk Hp]. eauto.
  - intros (p & -> & Hp) Hnil.
    assert (Hin : p ∈ filter (fun q => line_key q = line_key p) placements)
      by (apply list_elem_of_filter; auto).
    rewrite Hnil in Hin. apply elem_of_nil in Hin. exact Hin.
Qed.

(** The object the first loop leaves behind, when it does not throw. *)
Lemma attribution_lines_final (placements : list Placement) (k : string) :
  let lines := foldl (grouped_step line_key new_line add_placement) []
                     (attributable placements) in
  lines.*1 = first_seen (line_key <$> attributable placements)
  /\ finish_line <$> entry_get k lines
     = if inherited k then None
       else match group_of k placements with
            | [] => None
            | _ :: _ => Some (summary_of placements k)
            end.
Proof.
  cbn zeta. split.
  - rewrite grouped_fold_keys. reflexivity.
  - rewrite grouped_fold_get. cbn [entry_get].
    change (filter (fun x => line_key x = k) (attributable placements))
      with (group_of k (attributable placements)).
    rewrite group_of_attributable, group_fold_none.
    destruct (inherited k); [reflexivity |]. unfold summary_of.
    destruct (group_of k placements) as [| p g]; [reflexivity |].
    cbn [fmap option_fmap option_map]. rewrite finish_new_line. reflexivity.
Qed.

(** The two outcomes of [calculateServiceLineAttribution]: the groups of
    the placements whose key names no member of [Object.prototype], or a
    TypeError, which takes a placement whose key names one. *)
Lemma attribution_outcome (placements : list Placement) :
  match calculateServiceLineAttribution placements with
  | Normal o =>
      o = prod_map id finish_line
            <$> foldl (grouped_step line_key new_line add_placement) []
                      (attributable placements)
      /\ Forall (fun p => attribute_fails p = None) placements
  | Throw e =>
      e = TypeError /\ Exists (fun p => inherited (line_key p) = true) placements
  end.
Proof.
  unfold calculateServiceLineAttribution.
  pose proof (for_of_outcome attribute attribute_fails attribute_step attribute_spec
                placements ([], false)) as H.
  destruct (for_of attribute ([], false) placements) as [s | e];
    cbn [mbind completion_bind].
  - destruct H as [Hok ->]. rewrite attribute_fold. unfold finish_lines.
    cbn [orb]. destruct (existsb _ placements) eqn:Eproto; cbn [andb].
    + assert (Hex : Exists (fun p => inherited (line_key p) = true) placements).
      { apply existsb_exists in Eproto as (p & Hin & Hp).
        apply Exists_exists. exists p.
        split; [apply list_elem_of_In, Hin | apply proto_is_inherited, Hp]. }
      destruct (negb _); [split; [reflexivity | exact Hex] |].
      split; [reflexivity | exact Hok].
    + split; [reflexivity | exact Hok].
  - destruct H as (before & p & after & -> & _ & Hp).
    unfold attribute_fails in Hp.
    destruct (inherited (line_key p)) eqn:E; [| discriminate].
    destruct (truthy_number (velocityScore p)); [| discriminate].
    injection Hp as <-. split; [reflexivity |].
    apply Exists_app. right. left. exact E.
Qed.

(** Every group that is returned is the group of its key: it carries the
    key, the number of the placements of the key, the sums of their
    revenue and margin, and the rounded mean of their truthy velocity
    scores; a key that names a member of [Object.prototype] has no
    group. *)
Lemma service_line_attribution_groups (placements : list Placement)
    (o : list (string * AttributionSummary)) (k : string) :
  calculateServiceLineAttribution placements = Normal o ->
  o.*1 = first_seen (line_key <$> attributable placements)
  /\ entry_get k o
     = if inherited k then None
       else match group_of k placements with
            | [] => None
            | _ :: _ => Some (summary_of placements k)
            end.
Proof.
  intros Ho. pose proof (attribution_outcome placements) as H.
  rewrite Ho in H. destruct H as [-> _].
  destruct (attribution_lines_final placements k) as [Hkeys Hget].
  cbn zeta in Hkeys, Hget. rewrite entry_fmap_keys, entry_get_fmap. auto.
Qed.

Lemma counted_scores_carried (g : list Placement) :
  Forall (fun p => truthy_number (velocityScore p) = velocityScore p) g ->
  counted_scores g = carried_scores g.
Proof.
  unfold counted_scores, carried_scores.
  induction 1 as [| p g Hp Hg IH]; [reflexivity |].
  cbn [omap list_omap]. rewrite Hp, IH. reflexivity.
Qed.

(** C3, on the failing inputs.  A placement of the service line
    "constructor" lands in no group: the object returned is empty; when
    the placement carries a velocity score the call throws a TypeError.
    And of two placements carrying the velocity scores 0 and 100 the
    average is 100, not 50: the score 0 is left out of the averaging
    set. *)
Theorem attribution_loses_placement :
  calculateServiceLineAttribution [placement_costing "constructor" 100 20 Undefined]
    = Normal []
  /\ calculateServiceLineAttribution [placement_rated "constructor" 100 20 80]
     = Throw TypeError
  /\ carried_scores (group_of "Unassigned" zero_and_hundred) = [0; 100]%Q
  /\ (exists o, calculateServiceLineAttribution zero_and_hundred = Normal o
                /\ averageVelocity <$> entry_get "Unassigned" o = Some 100)
  /\ Math_round (mean (carried_scores (group_of "Unassigned" zero_and_hundred))) = 50.
Proof.
  split; [vm_compute; reflexivity |]. split; [vm_compute; reflexivity |].
  split; [reflexivity |]. split; [| reflexivity].
  destruct (calculateServiceLineAttribution zero_and_hundred) as [o |] eqn:E;
    [| vm_compute in E; discriminate].
  exists o. split; [reflexivity |].
  destruct (service_line_attribution_groups zero_and_hundred o "Unassigned" E)
    as [_ ->].
  vm_compute. reflexivity.
Qed.

(** ** Velocity dashboard *)

Lemma collect_velocity_spec
    (s : list (string * VelocityGroup) * list TrendBucket) (x : Scored.t) :
  collect_velocity s x = match velocity_fails x with
                         | Some e => Throw e
                         | None => Normal (velocity_step s x)
                         end.
Proof.
  destruct s as [byLine trend0].
  unfold collect_velocity, velocity_fails, velocity_step, line_step, grouped_step,
    trend_step, month_key, fill_time, getTime.
  destruct (inherited _); [reflexivity |].
  destruct (new_Date _); reflexivity.
Qed.

Lemma velocity_fails_None (p : Placement) (v r o : Z) :
  velocity_fails (Scored.mk p v r o) = None <-> reportable p.
Proof.
  unfold velocity_fails, reportable. cbn [Scored.placement].
  destruct (inherited (line_key p)); [split; [discriminate | intros [? _]; discriminate] |].
  destruct (fill_time p); split; try discriminate; eauto.
  intros [_ [? ?]]. discriminate.
Qed.

Lemma batch_reportable (placements : list Placement) :
  Forall (fun x => velocity_fails x = None) (batchCalculateScores placements)
  <-> Forall reportable placements.
Proof.
  unfold batchCalculateScores. rewrite Forall_fmap.
  split; intros H; (eapply Forall_impl; [exact H |]); intros p Hp;
    unfold compose in *.
  - apply velocity_fails_None in Hp. exact Hp.
  - apply velocity_fails_None. exact Hp.
Qed.

(** The report is returned when the key of every placement names no
    member of [Object.prototype] and every fill timestamp parses. *)
Lemma velocity_data_returns (placements : list Placement) :
  Forall reportable placements ->
  exists data, getPlacementVelocityData placements = Normal data.
Proof.
  intros Hok. unfold getPlacementVelocityData.
  rewrite (for_of_returns collect_velocity velocity_fails velocity_step
             collect_velocity_spec)
    by (apply batch_reportable, Hok).
  destruct (foldl velocity_step _ _) as [byLine trend0]. eexists. reflexivity.
Qed.

(** One placement whose fill timestamp is missing or unparsable makes the
    whole velocity report throw. *)
Lemma velocity_data_throws (placements : list Placement) :
  Exists (fun p => fill_time p = None) placements ->
  exists e, getPlacementVelocityData placements = Throw e.
Proof.
  intros Hbad. unfold getPlacementVelocityData.
  destruct (for_of_throws collect_velocity velocity_fails velocity_step
              collect_velocity_spec (batchCalculateScores placements) ([], []))
    as [e ->]; [| eexists; reflexivity].
  unfold batchCalculateScores. apply Exists_fmap.
  eapply Exists_impl; [exact Hbad |]. intros p Hp.
  unfold compose, velocity_fails. cbn [Scored.placement].
  destruct (inherited (line_key p)); [eauto |]. rewrite Hp. eauto.
Qed.

(** C2, on the failing input: of two placements of one job, the second
    has no [startDate] and no [createdAt]; its velocity score is 0, and
    [getPlacementVelocityData] on the two throws a RangeError. *)
Theorem velocity_data_undated_placement :
  map Scored.velocityScore (batchCalculateScores one_undated_placement) = [92; 0]
  /\ getPlacementVelocityData one_undated_placement = Throw RangeError.
Proof. split; vm_compute; reflexivity. Qed.

(** * Further properties of the scoring code *)

(** ** Velocity score *)

(** X1. The velocity score is 0 exactly on the inputs that cannot be
    scored (a record is missing or a timestamp does not parse); on every
    other input it lies between 10 and 100. *)
Theorem velocity_score_zero_or_scored (placement : nullable Placement)
    (job : nullable Job) :
  if scorable placement job
  then 10 <= calculateVelocityScore placement job <= 100
  else calculateVelocityScore placement job = 0.
Proof.
  destruct placement as [| | p]; destruct job as [| | j]; try reflexivity.
  unfold scorable.
  destruct (fill_time p) as [fill |] eqn:Hp;
    [destruct (open_time j) as [open |] eqn:Hj |].
  - rewrite (velocity_unfold p j fill open Hp Hj).
    destruct (Qlt_le_dec (daysBetween fill open) 0); [lia |].
    apply Math_round_bounds.
    + apply Q.le_max_l.
    + apply Q.max_lub; [discriminate | apply Q.le_min_l].
  - apply velocity_invalid_dates. right. exact Hj.
  - apply velocity_invalid_dates. left. exact Hp.
Qed.

(** X2. The velocity score never increases with the days to fill: of two
    scorable pairs, the one that took at least as long scores at most as
    much. *)
Theorem velocity_score_monotone (p1 p2 : Placement) (j1 j2 : Job)
    (fill1 open1 fill2 open2 : Z) :
  fill_time p1 = Some fill1 -> open_time j1 = Some open1 ->
  fill_time p2 = Some fill2 -> open_time j2 = Some open2 ->
  (daysBetween fill1 open1 <= daysBetween fill2 open2)%Q ->
  calculateVelocityScore (Obj p2) (Obj j2) <= calculateVelocityScore (Obj p1) (Obj j1).
Proof.
  intros Hp1 Hj1 Hp2 Hj2 Hle.
  rewrite (velocity_unfold p1 j1 fill1 open1 Hp1 Hj1).
  destruct (Qlt_le_dec (daysBetween fill1 open1) 0) as [Hneg1 | Hpos1].
  - apply velocity_score_range.
  - rewrite (velocity_unfold p2 j2 fill2 open2 Hp2 Hj2).
    destruct (Qlt_le_dec (daysBetween fill2 open2) 0) as [Hneg2 | Hpos2]; [lra |].
    apply Math_round_le, Q.max_le_compat_l, Q.min_le_compat_l. lra.
Qed.

Lemma velocity_score_monotone_witness :
  calculateVelocityScore (Obj (placement_filled_at 1707955200000))
                         (Obj (job_opened_at 1704067200000))
  <= calculateVelocityScore (Obj (placement_filled_at 1705276800000))
                            (Obj (job_opened_at 1704067200000)).
Proof.
  apply (velocity_score_monotone
           (placement_filled_at 1705276800000) (placement_filled_at 1707955200000)
           (job_opened_at 1704067200000) (job_opened_at 1704067200000)
           1705276800000 1704067200000 1707955200000 1704067200000
           eq_refl eq_refl eq_refl eq_refl).
  vm_compute. discriminate.
Defined.

(** ** ROI score *)

(** X3. With a positive total cost that is finite in binary64 arithmetic
    (below 10^300) the ROI score is in [0, 100]; it is 0 when the revenue
    does not exceed the cost and 100 when the revenue is at least six times
    the cost (an ROI of 500% or more). *)
Theorem roi_score_cost_branch (p : Placement) (a : Attribution) :
  (0 < totalCost a)%Q ->
  (Qabs (or_zero (marketingCost a)) <= inject_Z (10 ^ 300))%Q ->
  (Qabs (or_zero (salesCost a)) <= inject_Z (10 ^ 300))%Q ->
  0 <= calculateROIScore (Obj p) (Obj a) <= 100
  /\ ((or_zero (revenue p) <= totalCost a)%Q -> calculateROIScore (Obj p) (Obj a) = 0)
  /\ ((6 * totalCost a <= or_zero (revenue p))%Q ->
      calculateROIScore (Obj p) (Obj a) = 100).
Proof.
  intros Hcost _ _.
  assert (Hne : ~ (totalCost a == 0)%Q) by lra.
  rewrite (roi_with_cost p a Hne).
  set (rev := or_zero (revenue p)). set (c := totalCost a) in *.
  assert (Hx : ((rev - c) / c * 100 / 5 == 20 * (rev / c) - 20)%Q) by (field; lra).
  split; [lia |]. split; intros Hrev.
  - assert (Hq : (rev / c <= 1)%Q) by (apply Qle_shift_div_r; lra).
    assert (Hr : Math_round ((rev - c) / c * 100 / 5) <= Math_round 0)
      by (apply Math_round_le; lra).
    change (Math_round 0) with 0 in Hr. lia.
  - assert (Hq : (6 <= rev / c)%Q) by (apply Qle_shift_div_l; lra).
    assert (Hr : Math_round 100 <= Math_round ((rev - c) / c * 100 / 5))
      by (apply Math_round_le; lra).
    change (Math_round 100) with 100 in Hr. lia.
Qed.

Lemma roi_score_cost_branch_witness :
  (0 < totalCost (attribution_costing 1000 500))%Q
  /\ 0 <= calculateROIScore (Obj (placement_earning 10000 3000))
                            (Obj (attribution_costing 1000 500)) <= 100.
Proof.
  assert (Hcost : (0 < totalCost (attribution_costing 1000 500))%Q)
    by reflexivity.
  split; [exact Hcost |].
  refine (proj1 (roi_score_cost_branch (placement_earning 10000 3000)
                  (attribution_costing 1000 500) Hcost _ _));
    vm_compute; discriminate.
Defined.

Lemma roi_score_le_100 (placement : nullable Placement)
    (attributionData : nullable Attribution) :
  calculateROIScore placement attributionData <= 100.
Proof.
  assert (Hobj : forall p a, calculateROIScore (Obj p) (Obj a) <= 100).
  { intros p a. destruct (Qeq_dec (totalCost a) 0) as [Hz | Hnz].
    - rewrite (roi_no_cost p a Hz). unfold margin_proxy. lia.
    - rewrite (roi_with_cost p a Hnz). lia. }
  destruct placement as [| | p]; [cbn; lia | cbn; lia |].
  destruct attributionData as [| | a].
  - rewrite roi_undefined_attribution. apply Hobj.
  - rewrite roi_null_attribution. lia.
  - apply Hobj.
Qed.

(** X4. The ROI score never exceeds 100, whatever the inputs; it is 0
    when the placement is [null] or [undefined], and also when the
    attribution argument is [null], where reading the costs throws and the
    handler returns 0. *)
Theorem roi_score_upper_bound (placement : nullable Placement)
    (attributionData : nullable Attribution) :
  calculateROIScore placement attributionData <= 100
  /\ calculateROIScore placement Null = 0
  /\ calculateROIScore Null attributionData = 0
  /\ calculateROIScore Undefined attributionData = 0.
Proof.
  split; [apply roi_score_le_100 |].
  split; [apply roi_null_attribution | split; reflexivity].
Qed.

(** ** Overall score *)



(** ** Means *)

Lemma length_cons_Q {A} (x : A) (xs : list A) :
  (inject_Z (Z.of_nat (length (x :: xs))) == inject_Z (Z.of_nat (length xs)) + 1)%Q.
Proof.
  cbn [length]. rewrite Nat2Z.inj_succ. unfold Z.succ.
  rewrite inject_Z_plus. reflexivity.
Qed.

Lemma sum_reduce_bounds (a b : Q) (xs : list Q) :
  Forall (fun x => (a <= x <= b)%Q) xs ->
  (a * inject_Z (Z.of_nat (length xs)) <= sum_reduce xs
   <= b * inject_Z (Z.of_nat (length xs)))%Q.
Proof.
  induction 1 as [| x xs Hx Hxs IH].
  - change (sum_reduce []) with 0%Q.
    change (inject_Z (Z.of_nat (length (@nil Q)))) with 0%Q. lra.
  - rewrite sum_reduce_cons, length_cons_Q. lra.
Qed.

Lemma mean_bounds (a b : Q) (xs : list Q) :
  xs <> [] ->
  Forall (fun x => (a <= x <= b)%Q) xs ->
  (a <= mean xs <= b)%Q.
Proof.
  intros Hne Hxs. pose proof (sum_reduce_bounds a b xs Hxs) as Hsum.
  unfold mean.
  assert (Hn : (0 < inject_Z (Z.of_nat (length xs)))%Q).
  { destruct xs as [| x xs]; [congruence |].
    change 0%Q with (inject_Z 0). rewrite <- Zlt_Qlt. cbn [length]. lia. }
  split.
  - apply Qle_shift_div_l; [exact Hn | lra].
  - apply Qle_shift_div_r; [exact Hn | lra].
Qed.

Lemma rounded_mean_bounds (a b : Z) (xs : list Q) :
  a <= 0 <= b ->
  Forall (fun x => (inject_Z a <= x <= inject_Z b)%Q) xs ->
  a <= rounded_mean xs <= b.
Proof.
  intros Hab Hxs. unfold rounded_mean.
  destruct xs as [| x xs]; [cbn; lia |].
  cbn [length Nat.ltb Nat.leb].
  destruct (mean_bounds (inject_Z a) (inject_Z b) (x :: xs)) as [Hlo Hhi];
    [discriminate | exact Hxs |].
  apply Math_round_bounds; assumption.
Qed.

(** ** Service-line attribution *)

(** The object returned, entry by entry. *)
Lemma attribution_entries (placements : list Placement)
    (o : list (string * AttributionSummary)) :
  calculateServiceLineAttribution placements = Normal o ->
  o = (fun k => (k, summary_of placements k))
        <$> first_seen (line_key <$> attributable placements).
Proof.
  intros Ho.
  destruct (service_line_attribution_groups placements o "" Ho) as [Hkeys _].
  rewrite <- Hkeys. apply entries_from_get.
  - rewrite Hkeys. apply first_seen_NoDup.
  - intros k Hk.
    destruct (service_line_attribution_groups placements o k Ho) as [_ ->].
    rewrite Hkeys in Hk. apply first_seen_elem, list_elem_of_fmap in Hk
      as (p & -> & Hp).
    apply list_elem_of_filter in Hp as [Hin Hp]. rewrite Hin.
    assert (Hne : group_of (line_key p) placements <> []).
    { apply group_of_nonempty, list_elem_of_fmap. eauto. }
    destruct (group_of (line_key p) placements); [congruence | reflexivity].
Qed.

Lemma attributable_group (placements : list Placement) (k : string) :
  k ∈ first_seen (line_key <$> attributable placements) ->
  inherited k = false /\ group_of k placements <> [].
Proof.
  intros Hk. apply first_seen_elem, list_elem_of_fmap in Hk as (p & -> & Hp).
  apply list_elem_of_filter in Hp as [Hin Hp]. split; [exact Hin |].
  apply group_of_nonempty, list_elem_of_fmap. eauto.
Qed.


(** X9. When every velocity score carried by the placements is in
    [0, 100], so is the average velocity of every group. *)
Theorem attribution_average_in_range (placements : list Placement)
    (o : list (string * AttributionSummary)) :
  Forall (fun p => forall v, velocityScore p = Some v -> (0 <= v <= 100)%Q) placements ->
  calculateServiceLineAttribution placements = Normal o ->
  Forall (fun kv => 0 <= averageVelocity kv.2 <= 100) o.
Proof.
  intros Hscores Ho. rewrite (attribution_entries placements o Ho).
  apply Forall_fmap, Forall_forall. intros k _. unfold compose, summary_of.
  cbn [snd averageVelocity].
  apply rounded_mean_bounds; [lia |].
  unfold counted_scores. apply Forall_forall. intros v Hv.
  apply list_elem_of_omap in Hv as (q & Hq & Hv).
  assert (Hin : q ∈ placements).
  { unfold group_of in Hq. apply list_elem_of_filter in Hq. tauto. }
  rewrite Forall_forall in Hscores. specialize (Hscores q Hin v).
  unfold truthy_number in Hv. destruct (velocityScore q) as [w |]; [| discriminate].
  destruct (Qeq_bool w 0); [discriminate |]. injection Hv as ->.
  apply Hscores. reflexivity.
Qed.

Lemma attribution_average_in_range_witness :
  exists o,
    calculateServiceLineAttribution zero_and_hundred = Normal o
    /\ Forall (fun kv => 0 <= averageVelocity kv.2 <= 100) o.
Proof.
  destruct (calculateServiceLineAttribution zero_and_hundred) as [o |] eqn:E;
    [| vm_compute in E; discriminate].
  exists o. split; [reflexivity |].
  apply (attribution_average_in_range zero_and_hundred o); [| exact E].
  unfold zero_and_hundred.
  constructor; [| constructor; [| constructor]];
    intros v Hv; injection Hv as <-; split; discriminate.
Defined.

(** * Further properties of the dashboard code *)

(** ** Score distribution *)

Lemma tier_count_total (scores : list Q) :
  (tier_count "excellent" scores + tier_count "good" scores
   + tier_count "average" scores + tier_count "below_average" scores
   + tier_count "poor" scores = length scores)%nat.
Proof.
  unfold tier_count. induction scores as [| x scores IH]; [reflexivity |].
  destruct (bucket_key_tier x) as [_ Hx]. unfold five_tiers in Hx.
  rewrite !filter_cons.
  repeat (apply elem_of_cons in Hx as [Hx | Hx]);
    try (apply elem_of_nil in Hx; contradiction);
    rewrite Hx; repeat case_decide; try discriminate; try congruence;
    cbn [length]; lia.
Qed.

(** X10. Every score is counted in exactly one bucket: the five counts of
    [calculateScoreDistribution] add up to the number of scores. *)
Theorem distribution_counts_add_up (scores : list Q) :
  sum_list (omap (fun k => calculateScoreDistribution scores !! k)
                 ["excellent (90-100)"; "good (75-89)"; "average (50-74)";
                  "below_average (25-49)"; "poor (0-24)"])
    = length scores.
Proof.
  assert (H1 := distribution_tier scores "excellent" ltac:(set_solver)).
  assert (H2 := distribution_tier scores "good" ltac:(set_solver)).
  assert (H3 := distribution_tier scores "average" ltac:(set_solver)).
  assert (H4 := distribution_tier scores "below_average" ltac:(set_solver)).
  assert (H5 := distribution_tier scores "poor" ltac:(set_solver)).
  change (tier_bucket "excellent") with "excellent (90-100)" in H1.
  change (tier_bucket "good") with "good (75-89)" in H2.
  change (tier_bucket "average") with "average (50-74)" in H3.
  change (tier_bucket "below_average") with "below_average (25-49)" in H4.
  change (tier_bucket "poor") with "poor (0-24)" in H5.
  cbn [omap list_omap]. rewrite H1, H2, H3, H4, H5.
  cbn -[tier_count]. pose proof (tier_count_total scores). lia.
Qed.


(** ** Velocity dashboard *)

Lemma velocity_fold_pair (xs : list Scored.t)
    (s : list (string * VelocityGroup) * list TrendBucket) :
  foldl velocity_step s xs = (foldl line_step s.1 xs, foldl trend_step s.2 xs).
Proof.
  revert s. induction xs as [| x xs IH]; intros [byLine trend0]; [reflexivity |].
  cbn [foldl]. rewrite IH. reflexivity.
Qed.

Lemma group_push_fold (l : list Scored.t) (g0 : VelocityGroup) :
  foldl (fun g x =>
           Some ((fun x group =>
                    mkGroup (scores group ++ [Scored.velocityScore x])
                            (S (count group)))
                   x (default ((fun _ : string => mkGroup [] 0) "") g)))
        (Some g0) l
    = Some (mkGroup (scores g0 ++ (Scored.velocityScore <$> l))
                    (count g0 + length l)).
Proof.
  revert g0. induction l as [| x l IH]; intros [sc n]; cbn [foldl].
  - cbn. rewrite app_nil_r, Nat.add_0_r. reflexivity.
  - cbn [default id scores count] in *. rewrite IH. cbn.
    rewrite <- app_assoc, Nat.add_succ_r. reflexivity.
Qed.

Lemma batch_filter_line (placements : list Placement) (k : string) :
  filter (fun x => line_key (Scored.placement x) = k) (batchCalculateScores placements)
    = batchCalculateScores (group_of k placements).
Proof.
  unfold group_of, batchCalculateScores.
  induction placements as [| p ps IH]; [reflexivity |].
  cbn [map]. rewrite !filter_cons. cbn [Scored.placement].
  destruct (decide (line_key p = k)); cbn [map]; rewrite IH; reflexivity.
Qed.

Lemma batch_velocity_scores (placements : list Placement) :
  Scored.velocityScore <$> batchCalculateScores placements = velocity_of <$> placements.
Proof.
  unfold batchCalculateScores. induction placements as [| p ps IH]; [reflexivity |].
  cbn [map fmap list_fmap Scored.velocityScore] in *. rewrite IH. reflexivity.
Qed.

Lemma batch_line_keys (placements : list Placement) :
  (fun x => line_key (Scored.placement x)) <$> batchCalculateScores placements
    = line_key <$> placements.
Proof.
  unfold batchCalculateScores. induction placements as [| p ps IH]; [reflexivity |].
  cbn [map fmap list_fmap Scored.placement] in *. rewrite IH. reflexivity.
Qed.

(** The by-line object the loop leaves behind. *)
Lemma velocity_lines_final (placements : list Placement) (k : string) :
  let byLine := foldl line_step [] (batchCalculateScores placements) in
  byLine.*1 = first_seen (line_key <$> placements)
  /\ entry_get k byLine
     = match group_of k placements with
       | [] => None
       | _ :: _ =>
           Some (mkGroup (velocity_of <$> group_of k placements)
                         (length (group_of k placements)))
       end.
Proof.
  cbn zeta. unfold line_step. split.
  - rewrite grouped_fold_keys, batch_line_keys. reflexivity.
  - rewrite grouped_fold_get, batch_filter_line. cbn [entry_get].
    destruct (group_of k placements) as [| p g]; [reflexivity |].
    change (batchCalculateScores (p :: g))
      with (Scored.mk p (velocity_of p) (roi_of p)
              (calculateOverallScore (inject_Z (velocity_of p))
                                     (inject_Z (roi_of p)) None)
            :: batchCalculateScores g).
    cbn [foldl]. rewrite (group_push_fold (batchCalculateScores g)). cbn.
    rewrite batch_velocity_scores.
    unfold batchCalculateScores. rewrite length_map. reflexivity.
Qed.

Lemma mean_scores_round_bounds (a b : Z) (xs : list Z) :
  xs <> [] ->
  Forall (fun z => a <= z <= b) xs ->
  a <= Math_round (mean_scores xs) <= b.
Proof.
  intros Hne Hxs. unfold mean_scores.
  destruct (mean_bounds (inject_Z a) (inject_Z b) (map inject_Z xs)) as [Hlo Hhi].
  - destruct xs; [congruence | discriminate].
  - apply Forall_fmap. eapply Forall_impl; [exact Hxs |].
    intros z [Hza Hzb]. cbn. rewrite <- !Zle_Qle. lia.
  - apply Math_round_bounds; assumption.
Qed.

Lemma velocity_of_range (g : list Placement) :
  Forall (fun z => 0 <= z <= 100) (velocity_of <$> g).
Proof.
  apply Forall_fmap, Forall_forall. intros p _. apply velocity_score_range.
Qed.

Lemma velocity_data_normal (placements : list Placement) (data : VelocityData) :
  getPlacementVelocityData placements = Normal data ->
  let scored := batchCalculateScores placements in
  let byLine := foldl line_step [] scored in
  let trend0 := foldl trend_step [] scored in
  Forall reportable placements
  /\ byServiceLine data
     = map (fun '(name, g) =>
              mkStat name (Math_round (mean_scores (scores g))) (count g)
                     (getScoreTier (mean_scores (scores g))))
           (Object_entries byLine)
  /\ trend data
     = map (fun t => mkPoint (month t) (Math_round (mean_scores (bucket_scores t))))
           (sort_by_month trend0)
  /\ summary data
     = mkVelocitySummary
         (if (0 <? length scored)%nat
          then Math_round (mean_scores (map Scored.velocityScore scored)) else 0)
         (getScoreTier (inject_Z
            (if (0 <? length scored)%nat
             then Math_round (mean_scores (map Scored.velocityScore scored)) else 0)))
         (length placements)
  /\ distribution data
     = calculateScoreDistribution
         (map (fun p => inject_Z (Scored.velocityScore p)) scored).
Proof.
  intros Hdata. cbn zeta. unfold getPlacementVelocityData in Hdata.
  pose proof (for_of_outcome collect_velocity velocity_fails velocity_step
                collect_velocity_spec (batchCalculateScores placements) ([], []))
    as H.
  destruct (for_of collect_velocity ([], []) (batchCalculateScores placements))
    as [[byLine trend0] |]; cbn in Hdata; [| discriminate].
  destruct H as [Hok Hs]. rewrite velocity_fold_pair in Hs. injection Hs as -> ->.
  split; [apply batch_reportable, Hok |].
  injection Hdata as <-. cbn. auto.
Qed.

(** The first placement the loop does not get past decides the error. *)
Lemma velocity_data_thrown (placements : list Placement) (e : js_error) :
  getPlacementVelocityData placements = Throw e ->
  exists before p after,
    placements = before ++ p :: after
    /\ Forall reportable before
    /\ if inherited (line_key p) then e = TypeError
       else fill_time p = None /\ e = RangeError.
Proof.
  intros Hdata. unfold getPlacementVelocityData in Hdata.
  pose proof (for_of_outcome collect_velocity velocity_fails velocity_step
                collect_velocity_spec (batchCalculateScores placements) ([], []))
    as H.
  destruct (for_of collect_velocity ([], []) (batchCalculateScores placements))
    as [[byLine trend0] | e']; cbn in Hdata; [discriminate |].
  injection Hdata as ->.
  destruct H as (before & x & after & Hsplit & Hbefore & Hx).
  unfold batchCalculateScores in Hsplit.
  change (map ?f placements) with (f <$> placements) in Hsplit.
  apply fmap_app_inv in Hsplit as (before' & rest & -> & Hrest & ->).
  symmetry in Hrest. apply fmap_cons_inv in Hrest as (p & after' & -> & -> & ->).
  exists before', p, after'. split; [reflexivity |].
  split; [apply batch_reportable, Hbefore |].
  unfold velocity_fails in Hx. cbn [Scored.placement] in Hx.
  destruct (inherited (line_key p)); [congruence |].
  destruct (fill_time p); [discriminate |]. split; congruence.
Qed.

(** X11. [getPlacementVelocityData] returns its report exactly when the
    key of every placement names no member of [Object.prototype] and every
    fill timestamp parses.  Otherwise it throws, and the first placement
    that is not so decides the error: a TypeError when its key names such a
    member, a RangeError when its fill timestamp does not parse. *)
Theorem velocity_data_outcome (placements : list Placement) :
  match getPlacementVelocityData placements with
  | Normal _ => Forall reportable placements
  | Throw e =>
      exists before p after,
        placements = before ++ p :: after
        /\ Forall reportable before
        /\ if inherited (line_key p) then e = TypeError
           else fill_time p = None /\ e = RangeError
  end
  /\ (Forall reportable placements
      <-> exists data, getPlacementVelocityData placements = Normal data).
Proof.
  assert (Hmatch :
    match getPlacementVelocityData placements with
    | Normal _ => Forall reportable placements
    | Throw e =>
        exists before p after,
          placements = before ++ p :: after
          /\ Forall reportable before
          /\ if inherited (line_key p) then e = TypeError
             else fill_time p = None /\ e = RangeError
    end).
  { destruct (getPlacementVelocityData placements) as [data | e] eqn:Hdata.
    - exact (proj1 (velocity_data_normal placements data Hdata)).
    - apply velocity_data_thrown, Hdata. }
  split; [exact Hmatch |]. split.
  - apply velocity_data_returns.
  - intros [data Hdata]. rewrite Hdata in Hmatch. exact Hmatch.
Qed.

(** X12. In a returned velocity report the summary counts all placements,
    its overall average is the rounded mean of all velocity scores (0 for
    no placements) and lies in [0, 100], its tier is the tier of that
    average, and the distribution counts add up to the number of
    placements. *)
Theorem velocity_data_summary (placements : list Placement) (data : VelocityData) :
  getPlacementVelocityData placements = Normal data ->
  totalPlacements (summary data) = length placements
  /\ overallAverageVelocity (summary data)
     = match placements with
       | [] => 0
       | _ :: _ => Math_round (mean_scores (velocity_of <$> placements))
       end
  /\ 0 <= overallAverageVelocity (summary data) <= 100
  /\ tier (summary data) = getScoreTier (inject_Z (overallAverageVelocity (summary data)))
  /\ sum_list (omap (fun k => distribution data !! k)
                    ["excellent (90-100)"; "good (75-89)"; "average (50-74)";
                     "below_average (25-49)"; "poor (0-24)"])
     = length placements.
Proof.
  intros Hdata.
  destruct (velocity_data_normal placements data Hdata) as (_ & _ & _ & Hsum & Hdist).
  rewrite Hsum, Hdist. cbn [totalPlacements overallAverageVelocity tier].
  assert (Havg : (if (0 <? length (batchCalculateScores placements))%nat
                  then Math_round (mean_scores
                         (map Scored.velocityScore (batchCalculateScores placements)))
                  else 0)
                 = match placements with
                   | [] => 0
                   | _ :: _ => Math_round (mean_scores (velocity_of <$> placements))
                   end).
  { destruct placements as [| p ps]; [reflexivity |].
    change (map Scored.velocityScore (batchCalculateScores (p :: ps)))
      with (Scored.velocityScore <$> batchCalculateScores (p :: ps)).
    rewrite batch_velocity_scores. reflexivity. }
  rewrite Havg. split; [reflexivity |]. split; [reflexivity |].
  split; [| split; [reflexivity |]].
  - destruct placements as [| p ps]; [lia |].
    apply mean_scores_round_bounds; [discriminate | apply velocity_of_range].
  - pose proof (tier_count_total
                  (map (fun p => inject_Z (Scored.velocityScore p))
                       (batchCalculateScores placements))) as Htotal.
    rewrite length_map in Htotal. unfold batchCalculateScores in Htotal at 6.
    rewrite length_map in Htotal. rewrite <- Htotal.
    set (scores := map (fun p => inject_Z (Scored.velocityScore p))
                       (batchCalculateScores placements)).
    assert (H1 := distribution_tier scores "excellent" ltac:(set_solver)).
    assert (H2 := distribution_tier scores "good" ltac:(set_solver)).
    assert (H3 := distribution_tier scores "average" ltac:(set_solver)).
    assert (H4 := distribution_tier scores "below_average" ltac:(set_solver)).
    assert (H5 := distribution_tier scores "poor" ltac:(set_solver)).
    change (tier_bucket "excellent") with "excellent (90-100)" in H1.
    change (tier_bucket "good") with "good (75-89)" in H2.
    change (tier_bucket "average") with "average (50-74)" in H3.
    change (tier_bucket "below_average") with "below_average (25-49)" in H4.
    change (tier_bucket "poor") with "poor (0-24)" in H5.
    cbn [omap list_omap]. rewrite H1, H2, H3, H4, H5.
    cbn -[tier_count]. lia.
Qed.

Lemma velocity_data_summary_witness :
  exists data,
    getPlacementVelocityData three_dated_placements = Normal data
    /\ totalPlacements (summary data) = length three_dated_placements.
Proof.
  destruct (getPlacementVelocityData three_dated_placements) as [data |] eqn:E;
    [| vm_compute in E; discriminate].
  exists data. split; [reflexivity |].
  exact (proj1 (velocity_data_summary three_dated_placements data E)).
Defined.

(** X13. In a returned velocity report [byServiceLine] lists each service
    line of the placements once, in JavaScript's property order (array
    indices first, then the other lines in the order of first appearance);
    an entry counts the placements of its line, its average is the rounded
    mean of their velocity scores and lies in [0, 100], and its tier is the
    tier of the unrounded mean. *)
Theorem velocity_data_by_line (placements : list Placement) (data : VelocityData) :
  getPlacementVelocityData placements = Normal data ->
  stat_serviceLine <$> byServiceLine data = line_names placements
  /\ Forall (fun st =>
               let g := group_of (stat_serviceLine st) placements in
               g <> []
               /\ stat_placementCount st = length g
               /\ stat_averageVelocity st = Math_round (mean_scores (velocity_of <$> g))
               /\ stat_tier st = getScoreTier (mean_scores (velocity_of <$> g))
               /\ 0 <= stat_averageVelocity st <= 100)
            (byServiceLine data).
Proof.
  intros Hdata.
  destruct (velocity_data_normal placements data Hdata) as (_ & Hby & _).
  rewrite Hby. clear Hby.
  set (byLine := foldl line_step [] (batchCalculateScores placements)).
  assert (Hkeys : byLine.*1 = first_seen (line_key <$> placements))
    by apply (velocity_lines_final placements "").
  split.
  - unfold line_names. rewrite <- Hkeys, <- Object_entries_keys.
    generalize (Object_entries byLine). clear.
    induction l as [| [k g] o IH]; [reflexivity |].
    cbn [map fmap list_fmap fst stat_serviceLine] in *. rewrite IH. reflexivity.
  - apply Forall_fmap, Forall_forall. intros [k g] Hin. unfold compose.
    cbn [stat_serviceLine stat_placementCount stat_averageVelocity stat_tier].
    apply own_order_elem in Hin.
    assert (Hget : entry_get k byLine = Some g).
    { apply entry_get_elem; [| exact Hin]. rewrite Hkeys. apply first_seen_NoDup. }
    destruct (velocity_lines_final placements k) as [_ Hfinal].
    fold byLine in Hfinal. rewrite Hget in Hfinal.
    destruct (group_of k placements) as [| p rest] eqn:Eg; [discriminate |].
    injection Hfinal as ->. cbn [scores count].
    split; [discriminate |]. split; [reflexivity |]. split; [reflexivity |].
    split; [reflexivity |].
    apply mean_scores_round_bounds;
      [discriminate | apply (velocity_of_range (p :: rest))].
Qed.

Lemma velocity_data_by_line_witness :
  exists data,
    getPlacementVelocityData three_dated_placements = Normal data
    /\ stat_serviceLine <$> byServiceLine data = ["IT"; "Healthcare"].
Proof.
  destruct (getPlacementVelocityData three_dated_placements) as [data |] eqn:E;
    [| vm_compute in E; discriminate].
  exists data. split; [reflexivity |].
  rewrite (proj1 (velocity_data_by_line three_dated_placements data E)).
  vm_compute. reflexivity.
Defined.

(** *** The monthly trend *)

Lemma collation_char_involutive (c : ascii) :
  collation_char (collation_char c) = c.
Proof. destruct c as [[] [] [] [] [] [] [] []]; reflexivity. Qed.

Lemma collation_key_involutive (s : string) :
  collation_key (collation_key s) = s.
Proof.
  induction s as [| c s IH]; [reflexivity |].
  cbn [collation_key]. rewrite collation_char_involutive, IH. reflexivity.
Qed.

Lemma ltb_asym (a b : string) : String.ltb a b = true -> String.ltb b a = false.
Proof.
  unfold String.ltb. rewrite (String.compare_antisym a b).
  destruct (String.compare b a); cbn; congruence.
Qed.

Lemma ltb_connected (a b : string) :
  String.ltb b a = false -> a <> b -> String.ltb a b = true.
Proof.
  unfold String.ltb. rewrite (String.compare_antisym a b).
  destruct (String.compare b a) eqn:E; cbn; intros Hba Hne;
    [| discriminate | reflexivity].
  apply String.compare_eq_iff in E. congruence.
Qed.

Lemma month_before_asym (a b : string) :
  month_before a b = true -> month_before b a = false.
Proof. apply ltb_asym. Qed.

Lemma month_before_connected (a b : string) :
  month_before b a = false -> a <> b -> month_before a b = true.
Proof.
  intros Hba Hne. apply ltb_connected; [exact Hba |].
  intros Heq. apply Hne.
  rewrite <- (collation_key_involutive a), Heq. apply collation_key_involutive.
Qed.

Lemma trend_add_get (m' m : string) (v : Z) (tr : list TrendBucket) :
  entry_get m (trend_entries (trend_add m' v tr))
    = if decide (m' = m)
      then Some (default [] (entry_get m (trend_entries tr)) ++ [v])
      else entry_get m (trend_entries tr).
Proof.
  unfold trend_entries.
  induction tr as [| t tr IH]; cbn [trend_add fmap list_fmap entry_get].
  - cbn [month bucket_scores].
    destruct (String.eqb_spec m m') as [-> | Hne].
    + rewrite decide_True by reflexivity. reflexivity.
    + rewrite decide_False by congruence. reflexivity.
  - destruct (String.eqb_spec (month t) m') as [<- | Hne0];
      cbn [fmap list_fmap entry_get month bucket_scores].
    + destruct (String.eqb_spec m (month t)) as [-> | Hne].
      * rewrite decide_True by reflexivity. reflexivity.
      * rewrite decide_False by congruence. reflexivity.
    + destruct (String.eqb_spec m (month t)) as [-> | Hne].
      * rewrite decide_False by congruence. reflexivity.
      * exact IH.
Qed.

Lemma trend_add_keys (m' : string) (v : Z) (tr : list TrendBucket) :
  (trend_entries (trend_add m' v tr)).*1
    = if decide (m' ∈ (trend_entries tr).*1) then (trend_entries tr).*1
      else (trend_entries tr).*1 ++ [m'].
Proof.
  unfold trend_entries.
  induction tr as [| t tr IH]; cbn [trend_add fmap list_fmap fst].
  - rewrite decide_False by apply not_elem_of_nil. reflexivity.
  - destruct (String.eqb_spec (month t) m') as [<- | Hne0];
      cbn [fmap list_fmap fst month].
    + rewrite decide_True by left. reflexivity.
    + rewrite IH.
      destruct (decide (m' ∈ _)) as [Hin | Hout].
      * rewrite decide_True by (right; exact Hin). reflexivity.
      * rewrite decide_False; [reflexivity |].
        rewrite not_elem_of_cons. split; [congruence | exact Hout].
Qed.

Lemma trend_fold_get (xs : list Scored.t) (tr : list TrendBucket) (m : string) :
  entry_get m (trend_entries (foldl trend_step tr xs))
    = foldl (fun o x => Some (default [] o ++ [Scored.velocityScore x]))
            (entry_get m (trend_entries tr))
            (filter (fun x => default "" (month_key (Scored.placement x)) = m) xs).
Proof.
  revert tr. induction xs as [| x xs IH]; intros tr; [reflexivity |].
  cbn [foldl]. rewrite IH. unfold trend_step at 1. rewrite trend_add_get, filter_cons.
  destruct (decide (default "" (month_key (Scored.placement x)) = m)); reflexivity.
Qed.

Lemma trend_fold_keys (xs : list Scored.t) (tr : list TrendBucket) :
  (trend_entries (foldl trend_step tr xs)).*1
    = foldl (fun seen k => if decide (k ∈ seen) then seen else seen ++ [k])
            (trend_entries tr).*1
            ((fun x => default "" (month_key (Scored.placement x))) <$> xs).
Proof.
  revert tr. induction xs as [| x xs IH]; intros tr; [reflexivity |].
  cbn [foldl fmap list_fmap]. rewrite IH. unfold trend_step at 1.
  rewrite trend_add_keys. reflexivity.
Qed.

Lemma bucket_push_fold (l : list Scored.t) (o : option (list Z)) :
  foldl (fun o x => Some (default [] o ++ [Scored.velocityScore x])) o l
    = match l with
      | [] => o
      | _ :: _ => Some (default [] o ++ (Scored.velocityScore <$> l))
      end.
Proof.
  revert o. induction l as [| x l IH]; intros o; [reflexivity |].
  cbn [foldl]. rewrite IH. destruct l as [| y l]; [reflexivity |].
  change (default [] (Some (default [] o ++ [Scored.velocityScore x])))
    with (default [] o ++ [Scored.velocityScore x]).
  rewrite <- app_assoc. reflexivity.
Qed.

Lemma batch_filter_month (placements : list Placement) (m : string) :
  Forall (fun p => is_Some (fill_time p)) placements ->
  filter (fun x => default "" (month_key (Scored.placement x)) = m)
         (batchCalculateScores placements)
    = batchCalculateScores (month_of m placements).
Proof.
  unfold month_of, batchCalculateScores.
  induction 1 as [| p ps [t Hp] Hps IH]; [reflexivity |].
  cbn [map]. rewrite !filter_cons. cbn [Scored.placement].
  assert (Hiff : default "" (month_key p) = m <-> month_key p = Some m).
  { unfold month_key. rewrite Hp. cbn. split; congruence. }
  destruct (decide (default "" (month_key p) = m)) as [Hd | Hd];
    destruct (decide (month_key p = Some m)) as [Hk | Hk]; try tauto;
    cbn [map]; rewrite IH; reflexivity.
Qed.

Lemma insert_sorted_perm (t : TrendBucket) (l : list TrendBucket) :
  insert_sorted t l ≡ₚ t :: l.
Proof.
  induction l as [| u l IH]; cbn [insert_sorted]; [reflexivity |].
  destruct (month_before (month t) (month u)); [reflexivity |].
  rewrite IH. apply Permutation_swap.
Qed.

Lemma sort_fold_perm (l acc : list TrendBucket) :
  foldl (fun sorted t => insert_sorted t sorted) acc l ≡ₚ acc ++ l.
Proof.
  revert acc. induction l as [| t l IH]; intros acc; cbn [foldl].
  - rewrite app_nil_r. reflexivity.
  - rewrite IH, insert_sorted_perm. apply Permutation_middle.
Qed.

Lemma sort_by_month_perm (l : list TrendBucket) : sort_by_month l ≡ₚ l.
Proof. apply (sort_fold_perm l []). Qed.

Lemma insert_sorted_HdRel (u t : TrendBucket) (l : list TrendBucket) :
  month_le u t -> Sorted.HdRel month_le u l -> Sorted.HdRel month_le u (insert_sorted t l).
Proof.
  intros Hut Hul. destruct l as [| w l]; cbn [insert_sorted].
  - constructor. exact Hut.
  - destruct (month_before (month t) (month w)); constructor; [exact Hut |].
    inversion Hul; assumption.
Qed.

Lemma insert_sorted_sorted (t : TrendBucket) (l : list TrendBucket) :
  Sorted.Sorted month_le l -> Sorted.Sorted month_le (insert_sorted t l).
Proof.
  induction 1 as [| u l Hl IH Hhd]; cbn [insert_sorted].
  - repeat constructor.
  - destruct (month_before (month t) (month u)) eqn:E.
    + constructor; [constructor; assumption |]. constructor.
      unfold month_le. apply month_before_asym, E.
    + constructor; [exact IH |]. apply insert_sorted_HdRel; [exact E | exact Hhd].
Qed.

Lemma sort_by_month_sorted (l : list TrendBucket) :
  Sorted.Sorted month_le (sort_by_month l).
Proof.
  unfold sort_by_month.
  assert (H : forall acc, Sorted.Sorted month_le acc ->
              Sorted.Sorted month_le
                (foldl (fun sorted t => insert_sorted t sorted) acc l)).
  { induction l as [| t l IH]; intros acc Hacc; cbn [foldl]; [exact Hacc |].
    apply IH, insert_sorted_sorted, Hacc. }
  apply H. constructor.
Qed.

Lemma sorted_months_ascending (l : list TrendBucket) :
  Sorted.Sorted month_le l -> NoDup (month <$> l) ->
  months_ascending (month <$> l).
Proof.
  unfold months_ascending.
  induction 1 as [| u l Hl IH Hhd]; intros Hnd; cbn [fmap list_fmap].
  - constructor.
  - cbn [fmap list_fmap] in Hnd. apply NoDup_cons in Hnd as [Hu Hnd].
    constructor; [apply IH, Hnd |].
    destruct Hhd as [| w l Huw]; cbn [fmap list_fmap]; constructor.
    apply month_before_connected; [exact Huw |].
    intros Heq. apply Hu. cbn [fmap list_fmap]. rewrite Heq. left.
Qed.

Lemma trend_entries_keys (l : list TrendBucket) : (trend_entries l).*1 = month <$> l.
Proof.
  unfold trend_entries. induction l as [| t l IH]; [reflexivity |].
  cbn [fmap list_fmap fst] in *. rewrite IH. reflexivity.
Qed.

(** The trend list the loop leaves behind, before it is sorted. *)
Lemma velocity_trend_final (placements : list Placement) (m : string) :
  Forall (fun p => is_Some (fill_time p)) placements ->
  let trend0 := foldl trend_step [] (batchCalculateScores placements) in
  NoDup (month <$> trend0)
  /\ entry_get m (trend_entries trend0)
     = match month_of m placements with
       | [] => None
       | _ :: _ => Some (velocity_of <$> month_of m placements)
       end.
Proof.
  intros Hdated. cbn zeta. split.
  - rewrite <- trend_entries_keys, trend_fold_keys. apply seen_fold_NoDup.
    cbn. apply NoDup_nil_2.
  - rewrite trend_fold_get, (batch_filter_month placements m Hdated), bucket_push_fold.
    cbn [trend_entries fmap list_fmap entry_get].
    destruct (month_of m placements) as [| p g]; [reflexivity |].
    change (default [] None) with (@nil Z). cbn [app].
    rewrite batch_velocity_scores. reflexivity.
Qed.

(** X14. In a returned velocity report the trend has one point per month
    key in which a placement was filled, the keys in the strictly ascending
    order of [localeCompare]; the average of a point is the rounded mean of
    the velocity scores of the placements filled in that month and lies in
    [0, 100]. *)
Theorem velocity_data_trend (placements : list Placement) (data : VelocityData) :
  getPlacementVelocityData placements = Normal data ->
  months_ascending (point_month <$> trend data)
  /\ (forall m, m ∈ point_month <$> trend data <-> month_of m placements <> [])
  /\ Forall (fun pt =>
               let g := month_of (point_month pt) placements in
               point_averageVelocity pt = Math_round (mean_scores (velocity_of <$> g))
               /\ 0 <= point_averageVelocity pt <= 100)
            (trend data).
Proof.
  intros Hdata.
  destruct (velocity_data_normal placements data Hdata) as (Hrep & _ & Htrend & _).
  assert (Hdated : Forall (fun p => is_Some (fill_time p)) placements)
    by (eapply Forall_impl; [exact Hrep |]; intros p [_ Hp]; exact Hp).
  rewrite Htrend. clear Htrend.
  set (trend0 := foldl trend_step [] (batchCalculateScores placements)).
  assert (Hnd : NoDup (month <$> trend0))
    by apply (velocity_trend_final placements "" Hdated).
  assert (Hmonths : forall l : list TrendBucket,
            point_month <$> map (fun t => mkPoint (month t)
                                   (Math_round (mean_scores (bucket_scores t)))) l
            = month <$> l).
  { induction l as [| t l IH]; [reflexivity |].
    cbn [map fmap list_fmap point_month] in *. rewrite IH. reflexivity. }
  assert (Hperm : month <$> sort_by_month trend0 ≡ₚ month <$> trend0)
    by (apply fmap_Permutation, sort_by_month_perm).
  assert (Hget : forall t, t ∈ trend0 ->
            month_of (month t) placements <> []
            /\ bucket_scores t = velocity_of <$> month_of (month t) placements).
  { intros t Ht.
    assert (He : entry_get (month t) (trend_entries trend0) = Some (bucket_scores t)).
    { apply entry_get_elem; [rewrite trend_entries_keys; exact Hnd |].
      unfold trend_entries. apply list_elem_of_fmap. exists t. auto. }
    destruct (velocity_trend_final placements (month t) Hdated) as [_ Hfinal].
    fold trend0 in Hfinal. rewrite He in Hfinal.
    destruct (month_of (month t) placements); [discriminate |].
    injection Hfinal as ->. split; [discriminate | reflexivity]. }
  split; [| split].
  - rewrite Hmonths. apply sorted_months_ascending; [apply sort_by_month_sorted |].
    rewrite Hperm. exact Hnd.
  - intros m. rewrite Hmonths, Hperm, <- trend_entries_keys.
    destruct (velocity_trend_final placements m Hdated) as [_ Hfinal].
    fold trend0 in Hfinal. split.
    + intros Hin Hnil. rewrite Hnil in Hfinal.
      apply entry_get_None in Hfinal. contradiction.
    + intros Hne. destruct (decide (m ∈ (trend_entries trend0).*1)) as [H | H];
        [exact H |].
      apply entry_get_None in H. rewrite H in Hfinal.
      destruct (month_of m placements); [congruence | discriminate].
  - apply Forall_fmap, Forall_forall. intros t Ht. unfold compose.
    cbn [point_month point_averageVelocity].
    assert (Ht0 : t ∈ trend0) by (rewrite <- (sort_by_month_perm trend0); exact Ht).
    destruct (Hget t Ht0) as [Hne ->]. split; [reflexivity |].
    apply mean_scores_round_bounds; [| apply velocity_of_range].
    destruct (month_of (month t) placements); [congruence | discriminate].
Qed.

Lemma velocity_data_trend_witness :
  exists data,
    getPlacementVelocityData three_dated_placements = Normal data
    /\ months_ascending (point_month <$> trend data).
Proof.
  destruct (getPlacementVelocityData three_dated_placements) as [data |] eqn:E;
    [| vm_compute in E; discriminate].
  exists data. split; [reflexivity |].
  exact (proj1 (velocity_data_trend three_dated_placements data E)).
Defined.


(** ** The attribution, ROI and executive reports on sample values *)

Example attribution_data_sample :
  match getServiceLineAttributionData three_line_placements with
  | Normal data =>
      AttributionReport.summary data = AttributionReport.mkSummary 45000 10000 3 22
      /\ AttributionReport.chartData data
         = AttributionReport.mkChart ["IT"; "Healthcare"] [25000; 20000]%Q [2; 1]%nat
      /\ map AttributionReport.revenuePercentage (AttributionReport.serviceLines data)
         = [56; 44]
  | Throw _ => False
  end.
Proof. vm_compute. repeat split. Qed.

Example attribution_data_numbered_lines :
  match getServiceLineAttributionData
          [placement_costing "IT" 100 20 Undefined;
           placement_costing "10" 100 20 Undefined;
           placement_costing "2" 100 20 Undefined;
           placement_costing "constructor" 100 20 Undefined] with
  | Normal data =>
      AttributionReport.labels (AttributionReport.chartData data) = ["2"; "10"; "IT"]
      /\ AttributionReport.totalPlacements (AttributionReport.summary data) = 4%nat
      /\ AttributionReport.placements (AttributionReport.chartData data)
         = [1; 1; 1]%nat
  | Throw _ => False
  end.
Proof. vm_compute. repeat split. Qed.

Example roi_data_sample :
  match getROIDashboardData two_costed_placements with
  | Normal data =>
      ROIReport.summary data
      = ROIReport.mkSummary 25000 6000 1800 1289 100 "excellent"
      /\ ROIReport.byServiceLine data = [ROIReport.mkLine "IT" 25000 1800 1289 100]
      /\ ROIReport.costBreakdown data = ROIReport.mkCosts 1100 700
  | Throw _ => False
  end.
Proof. vm_compute. repeat split. Qed.

Example executive_data_sample :
  match getExecutiveDashboardData 1705276800000 three_dated_placements
          (Some [job_opened_at 0; job_opened_at 0]) with
  | Normal data =>
      ExecutiveReport.overview data
      = ExecutiveReport.mkOverview 2 3 150 "2024-01-15T00:00:00.000Z"
  | Throw _ => False
  end.
Proof. vm_compute. reflexivity. Qed.

Example executive_data_inherited_line :
  getExecutiveDashboardData 1705276800000
    [placement_in_line "toString" (Given (Instant 1707955200000))
                       (Obj (job_opened_at 1704067200000))]
    None
  = Throw TypeError.
Proof. vm_compute. reflexivity. Qed.

(** ** Sums over groups *)

Lemma foldl_sum {A} (f : A -> Q) (l : list A) (a : Q) :
  (foldl (fun acc x => acc + f x) a l == a + sum_reduce (f <$> l))%Q.
Proof.
  revert a. induction l as [| x l IH]; intros a; cbn [foldl fmap list_fmap].
  - change (sum_reduce []) with 0%Q. ring.
  - rewrite IH, sum_reduce_cons. ring.
Qed.

Lemma sum_reduce_ext {A} (f g : A -> Q) (l : list A) :
  (forall x, f x == g x)%Q -> (sum_reduce (f <$> l) == sum_reduce (g <$> l))%Q.
Proof.
  intros Hfg. induction l as [| x l IH]; [reflexivity |].
  cbn [fmap list_fmap]. rewrite !sum_reduce_cons, IH, (Hfg x). reflexivity.
Qed.

Lemma sum_reduce_plus {A} (f g : A -> Q) (l : list A) :
  (sum_reduce ((fun x => f x + g x) <$> l)
   == sum_reduce (f <$> l) + sum_reduce (g <$> l))%Q.
Proof.
  induction l as [| x l IH]; [reflexivity |].
  cbn [fmap list_fmap]. rewrite !sum_reduce_cons, IH. ring.
Qed.

Lemma sum_reduce_nonneg (xs : list Q) :
  Forall (fun x => (0 <= x)%Q) xs -> (0 <= sum_reduce xs)%Q.
Proof.
  induction 1 as [| x xs Hx Hxs IH]; [discriminate |].
  rewrite sum_reduce_cons. lra.
Qed.

Lemma elem_le_sum (xs : list Q) (x : Q) :
  Forall (fun x => (0 <= x)%Q) xs -> x ∈ xs -> (x <= sum_reduce xs)%Q.
Proof.
  induction 1 as [| y xs Hy Hxs IH]; intros Hin.
  - apply elem_of_nil in Hin. contradiction.
  - rewrite sum_reduce_cons. pose proof (sum_reduce_nonneg xs Hxs).
    apply elem_of_cons in Hin as [-> | Hin]; [lra |]. specialize (IH Hin). lra.
Qed.

Section Grouping.

(** Records [A] with a key, a quantity [F] that is summed per key. *)
Context {A : Type}.
Variable key : A -> string.
Variable F : A -> Q.

Lemma sum_filter_split (P R : A -> Prop)
    `{!forall x, Decision (P x)} `{!forall x, Decision (R x)} (l : list A) :
  (forall x, P x -> R x -> False) ->
  (sum_reduce (F <$> filter P l) + sum_reduce (F <$> filter R l)
   == sum_reduce (F <$> filter (fun x => P x \/ R x) l))%Q.
Proof.
  intros Hdisj. induction l as [| x l IH]; [reflexivity |].
  rewrite !filter_cons.
  destruct (decide (P x)) as [HP | HP]; destruct (decide (R x)) as [HR | HR].
  - exfalso. eauto.
  - rewrite decide_True by tauto. cbn [fmap list_fmap].
    rewrite !sum_reduce_cons, <- IH. ring.
  - rewrite decide_True by tauto. cbn [fmap list_fmap].
    rewrite !sum_reduce_cons, <- IH. ring.
  - rewrite decide_False by tauto. exact IH.
Qed.

Lemma grouped_sum (keys : list string) (l : list A) :
  NoDup keys ->
  (sum_reduce ((fun k => sum_reduce (F <$> filter (fun x => key x = k) l)) <$> keys)
   == sum_reduce (F <$> filter (fun x => key x ∈ keys) l))%Q.
Proof.
  induction 1 as [| k keys Hk Hnd IH].
  - cbn [fmap list_fmap].
    rewrite (list_filter_iff (fun x => key x ∈ []) (fun _ => False));
      [| intros x; rewrite elem_of_nil; tauto].
    assert (Hnil : filter (fun _ : A => False) l = [])
      by (induction l; [reflexivity | rewrite filter_cons, decide_False; tauto]).
    rewrite Hnil. reflexivity.
  - cbn [fmap list_fmap]. rewrite sum_reduce_cons, IH.
    rewrite (sum_filter_split (fun x => key x = k) (fun x => key x ∈ keys)).
    + rewrite (list_filter_iff (fun x => key x = k \/ key x ∈ keys)
                               (fun x => key x ∈ k :: keys));
        [reflexivity | intros x; rewrite elem_of_cons; tauto].
    + intros x <- Hin. contradiction.
Qed.

Lemma grouped_sum_all (keys : list string) (l : list A) :
  NoDup keys -> (forall x, x ∈ l -> key x ∈ keys) ->
  (sum_reduce ((fun k => sum_reduce (F <$> filter (fun x => key x = k) l)) <$> keys)
   == sum_reduce (F <$> l))%Q.
Proof.
  intros Hnd Hall. rewrite (grouped_sum keys l Hnd).
  assert (Hfilter : filter (fun x => key x ∈ keys) l = l).
  { clear Hnd. induction l as [| x l IH]; [reflexivity |].
    rewrite filter_cons, decide_True by (apply Hall; left).
    f_equal. apply IH. intros y Hy. apply Hall. right. exact Hy. }
  rewrite Hfilter. reflexivity.
Qed.

End Grouping.

Lemma length_filter_split {A} (P R : A -> Prop)
    `{!forall x, Decision (P x)} `{!forall x, Decision (R x)} (l : list A) :
  (forall x, P x -> R x -> False) ->
  (length (filter P l) + length (filter R l)
   = length (filter (fun x => P x \/ R x) l))%nat.
Proof.
  intros Hdisj. induction l as [| x l IH]; [reflexivity |].
  rewrite !filter_cons.
  destruct (decide (P x)) as [HP | HP]; destruct (decide (R x)) as [HR | HR].
  - exfalso. eauto.
  - rewrite decide_True by tauto. cbn [length]. lia.
  - rewrite decide_True by tauto. cbn [length]. lia.
  - rewrite decide_False by tauto. exact IH.
Qed.

Lemma filter_keys_all {A} (key : A -> string) (keys : list string) (l : list A) :
  (forall x, x ∈ l -> key x ∈ keys) -> filter (fun x => key x ∈ keys) l = l.
Proof.
  intros Hall. induction l as [| x l IH]; [reflexivity |].
  rewrite filter_cons, decide_True by (apply Hall; left).
  f_equal. apply IH. intros y Hy. apply Hall. right. exact Hy.
Qed.

Lemma grouped_count {A} (key : A -> string) (keys : list string) (l : list A) :
  NoDup keys -> (forall x, x ∈ l -> key x ∈ keys) ->
  sum_list ((fun k => length (filter (fun x => key x = k) l)) <$> keys) = length l.
Proof.
  intros Hnd Hall.
  transitivity (length (filter (fun x => key x ∈ keys) l));
    [| rewrite (filter_keys_all key keys l Hall); reflexivity].
  clear Hall. induction Hnd as [| k keys Hk Hnd IH].
  - assert (Hnil : filter (fun x => key x ∈ []) l = []).
    { induction l as [| x l IHl]; [reflexivity |].
      rewrite filter_cons, decide_False by apply not_elem_of_nil. exact IHl. }
    rewrite Hnil. reflexivity.
  - cbn [fmap list_fmap]. change (sum_list (?n :: ?ns)) with (n + sum_list ns)%nat.
    rewrite IH, (length_filter_split (fun x => key x = k) (fun x => key x ∈ keys)).
    + rewrite (list_filter_iff (fun x => key x = k \/ key x ∈ keys)
                               (fun x => key x ∈ k :: keys));
        [reflexivity | intros x; rewrite elem_of_cons; tauto].
    + intros x <- Hin. contradiction.
Qed.

Lemma total_sum (field : Placement -> option Q) (g : list Placement) :
  (total field g == sum_reduce ((fun p => or_zero (field p)) <$> g))%Q.
Proof. unfold total. rewrite foldl_sum. ring. Qed.

Lemma group_total_nonneg (placements : list Placement) (k : string) :
  Forall (fun p => (0 <= or_zero (revenue p))%Q) placements ->
  (0 <= total revenue (group_of k placements))%Q.
Proof.
  intros Hrev. rewrite total_sum. apply sum_reduce_nonneg, Forall_fmap.
  unfold group_of. apply Forall_forall. intros p Hp.
  apply list_elem_of_filter in Hp as [_ Hp].
  rewrite Forall_forall in Hrev. apply Hrev, Hp.
Qed.

Lemma sum_reduce_perm (xs ys : list Q) :
  xs ≡ₚ ys -> (sum_reduce xs == sum_reduce ys)%Q.
Proof.
  induction 1 as [| x xs ys _ IH | x y xs | xs ys zs _ IH1 _ IH2].
  - reflexivity.
  - rewrite !sum_reduce_cons, IH. reflexivity.
  - rewrite !sum_reduce_cons. ring.
  - rewrite IH1. exact IH2.
Qed.

(** ** Attribution report *)

Lemma Object_values_entries {V} (f : string -> V) (ks : list string) :
  Object_keys ((fun k => (k, f k)) <$> ks) = own_property_order id ks
  /\ Object_values ((fun k => (k, f k)) <$> ks) = f <$> own_property_order id ks
  /\ Object_entries ((fun k => (k, f k)) <$> ks)
     = (fun k => (k, f k)) <$> own_property_order id ks.
Proof.
  assert (He : own_property_order fst ((fun k => (k, f k)) <$> ks)
               = (fun k => (k, f k)) <$> own_property_order id ks).
  { symmetry. apply own_order_fmap. reflexivity. }
  unfold Object_keys, Object_values, Object_entries. rewrite He.
  rewrite <- !list_fmap_compose. split; [| split; reflexivity].
  apply list_fmap_id.
Qed.

Lemma line_names_elem (placements : list Placement) (k : string) :
  k ∈ line_names placements <-> k ∈ line_key <$> placements.
Proof. unfold line_names. rewrite own_order_elem. apply first_seen_elem. Qed.

Lemma line_names_NoDup (placements : list Placement) : NoDup (line_names placements).
Proof. apply own_order_NoDup, first_seen_NoDup. Qed.

Lemma attributable_line (placements : list Placement) (k : string) :
  k ∈ line_names (attributable placements) ->
  inherited k = false /\ group_of k placements <> []
  /\ group_of k (attributable placements) = group_of k placements.
Proof.
  intros Hk. apply own_order_elem, attributable_group in Hk as [Hinh Hne].
  split; [exact Hinh |]. split; [exact Hne |].
  rewrite group_of_attributable, Hinh. reflexivity.
Qed.

(** The report, written out over the groups of the placements. *)
Lemma attribution_data_normal (placements : list Placement)
    (data : AttributionReport.t) :
  getServiceLineAttributionData placements = Normal data ->
  let names := line_names (attributable placements) in
  let values := summary_of placements <$> names in
  let T := foldl (fun sum line => (sum + totalRevenue line)%Q) 0%Q values in
  let M := foldl (fun sum line => (sum + totalMargin line)%Q) 0%Q values in
  AttributionReport.summary data
    = AttributionReport.mkSummary T M (length placements)
        (if Qlt_le_dec 0 T then Math_round (M / T * 100) else 0)
  /\ AttributionReport.serviceLines data
     = map (fun line =>
              AttributionReport.mkLine line
                (if Qlt_le_dec 0 T
                 then Math_round (totalRevenue line / T * 100) else 0))
           values
  /\ AttributionReport.chartData data
     = AttributionReport.mkChart names (map totalRevenue values)
                                 (map placementCount values).
Proof.
  intros Hdata. cbn zeta. unfold getServiceLineAttributionData in Hdata.
  destruct (calculateServiceLineAttribution placements) as [o |] eqn:Ho;
    cbn [mbind completion_bind] in Hdata; [| discriminate].
  apply attribution_entries in Ho. subst o.
  destruct (Object_values_entries (summary_of placements)
              (first_seen (line_key <$> attributable placements)))
    as (Hkeys & Hvalues & _).
  rewrite Hkeys, Hvalues in Hdata. injection Hdata as <-. auto.
Qed.



Lemma sum_reduce_ext_in {A} (f g : A -> Q) (l : list A) :
  (forall x, x ∈ l -> f x == g x)%Q ->
  (sum_reduce (f <$> l) == sum_reduce (g <$> l))%Q.
Proof.
  induction l as [| x l IH]; intros Hfg; [reflexivity |].
  cbn [fmap list_fmap]. rewrite !sum_reduce_cons, IH, (Hfg x).
  - reflexivity.
  - left.
  - intros y Hy. apply Hfg. right. exact Hy.
Qed.

(** The sums of the groups add up to the sum over the placements that are
    in a group. *)
Lemma line_totals_sum (field : Placement -> option Q) (placements : list Placement) :
  (sum_reduce ((fun k => total field (group_of k placements))
                 <$> line_names (attributable placements))
   == total field (attributable placements))%Q.
Proof.
  rewrite (sum_reduce_ext_in _
             (fun k => sum_reduce ((fun p => or_zero (field p))
                                     <$> filter (fun p => line_key p = k)
                                                (attributable placements)))).
  - rewrite (grouped_sum_all line_key (fun p => or_zero (field p))).
    + symmetry. apply total_sum.
    + apply line_names_NoDup.
    + intros p Hp. apply line_names_elem, list_elem_of_fmap. eauto.
  - intros k Hk. apply attributable_line in Hk as (_ & _ & Hg).
    rewrite <- Hg. apply total_sum.
Qed.

Lemma line_counts_sum (placements : list Placement) :
  sum_list ((fun k => length (group_of k placements))
              <$> line_names (attributable placements))
  = length (attributable placements).
Proof.
  rewrite <- (grouped_count line_key (line_names (attributable placements))
                (attributable placements)).
  - f_equal. apply list_fmap_ext. intros i k Hk.
    apply list_elem_of_lookup_2, attributable_line in Hk as (_ & _ & Hg).
    rewrite <- Hg. reflexivity.
  - apply line_names_NoDup.
  - intros p Hp. apply line_names_elem, list_elem_of_fmap. eauto.
Qed.

(** X15. The attribution report counts every placement in
    [totalPlacements], and the placement counts of the chart add up to the
    number of the placements whose key names no member of
    [Object.prototype]: those are the placements in the groups.  When the
    revenues and the margins are whole amounts, the total revenue and the
    total margin of the summary are the sums over those placements. *)
Theorem attribution_data_totals (placements : list Placement)
    (data : AttributionReport.t) :
  getServiceLineAttributionData placements = Normal data ->
  whole_amounts (fun p => or_zero (revenue p)) placements ->
  whole_amounts (fun p => or_zero (margin p)) placements ->
  (AttributionReport.totalRevenue (AttributionReport.summary data)
   == total revenue (attributable placements))%Q
  /\ (AttributionReport.totalMargin (AttributionReport.summary data)
      == total margin (attributable placements))%Q
  /\ AttributionReport.totalPlacements (AttributionReport.summary data)
     = length placements
  /\ sum_list (AttributionReport.placements (AttributionReport.chartData data))
     = length (attributable placements).
Proof.
  intros Hdata _ _. apply attribution_data_normal in Hdata as (Hs & _ & Hc).
  cbn zeta in Hs, Hc. rewrite Hs, Hc.
  cbn [AttributionReport.totalRevenue AttributionReport.totalMargin
       AttributionReport.totalPlacements AttributionReport.placements].
  split; [| split; [| split; [reflexivity |]]].
  - rewrite foldl_sum, <- list_fmap_compose.
    rewrite <- (line_totals_sum revenue placements). unfold compose. cbn. ring.
  - rewrite foldl_sum, <- list_fmap_compose.
    rewrite <- (line_totals_sum margin placements). unfold compose. cbn. ring.
  - change (map placementCount ?l) with (placementCount <$> l).
    rewrite <- list_fmap_compose. apply line_counts_sum.
Qed.

Lemma attribution_data_totals_witness :
  exists data,
    getServiceLineAttributionData
      (placement_costing "constructor" 500 100 Undefined :: three_line_placements)
    = Normal data
    /\ (AttributionReport.totalRevenue (AttributionReport.summary data) == 45000)%Q
    /\ AttributionReport.totalPlacements (AttributionReport.summary data) = 4%nat
    /\ sum_list (AttributionReport.placements (AttributionReport.chartData data))
       = 3%nat.
Proof.
  destruct (getServiceLineAttributionData
              (placement_costing "constructor" 500 100 Undefined
                 :: three_line_placements)) as [data |] eqn:E;
    [| vm_compute in E; discriminate].
  exists data. split; [reflexivity |].
  destruct (attribution_data_totals _ data E) as (Hrev & _ & Hn & Hc).
  - split; [| vm_compute; discriminate].
    repeat constructor; [exists 500 | exists 10000 | exists 15000 | exists 20000];
      reflexivity.
  - split; [| vm_compute; discriminate].
    repeat constructor; [exists 100 | exists 2000 | exists 3000 | exists 5000];
      reflexivity.
  - split; [rewrite Hrev; reflexivity |]. split; [exact Hn | exact Hc].
Defined.

(** X16. A returned attribution report lists the service lines whose key
    names no member of [Object.prototype], each once, in the order of
    [Object.values]: the keys that are array indices first, in ascending
    order, then the others in the order of first appearance.  A line counts
    the placements of its key and, the revenues and margins being whole
    amounts, carries their sums.  The three chart arrays run parallel to
    that list. *)
Theorem attribution_data_lines (placements : list Placement)
    (data : AttributionReport.t) :
  getServiceLineAttributionData placements = Normal data ->
  whole_amounts (fun p => or_zero (revenue p)) placements ->
  whole_amounts (fun p => or_zero (margin p)) placements ->
  let lines := AttributionReport.line <$> AttributionReport.serviceLines data in
  summary_serviceLine <$> lines = line_names (attributable placements)
  /\ Forall (fun s =>
               let g := group_of (summary_serviceLine s) placements in
               placementCount s = length g
               /\ totalRevenue s = total revenue g
               /\ totalMargin s = total margin g)
            lines
  /\ AttributionReport.labels (AttributionReport.chartData data)
     = summary_serviceLine <$> lines
  /\ AttributionReport.revenue (AttributionReport.chartData data)
     = totalRevenue <$> lines
  /\ AttributionReport.placements (AttributionReport.chartData data)
     = placementCount <$> lines.
Proof.
  intros Hdata _ _. apply attribution_data_normal in Hdata as (_ & Hl & Hc).
  cbn zeta in *. rewrite Hl, Hc.
  cbn [AttributionReport.labels AttributionReport.revenue
       AttributionReport.placements].
  set (T := foldl _ _ _). clearbody T.
  assert (Hlines : forall L : list AttributionSummary,
            AttributionReport.line
              <$> map (fun line =>
                         AttributionReport.mkLine line
                           (if Qlt_le_dec 0 T
                            then Math_round (totalRevenue line / T * 100)
                            else 0)) L
            = L).
  { induction L as [| s l IH]; [reflexivity |].
    cbn [map fmap list_fmap AttributionReport.line] in *. rewrite IH. reflexivity. }
  rewrite Hlines.
  assert (Hnames : summary_serviceLine
                     <$> (summary_of placements
                            <$> line_names (attributable placements))
                   = line_names (attributable placements))
    by (rewrite <- list_fmap_compose; apply list_fmap_id).
  split; [exact Hnames |]. split; [| split; [| split; reflexivity]].
  - apply Forall_fmap, Forall_forall. intros k _. unfold compose, summary_of.
    cbn [summary_serviceLine placementCount totalRevenue totalMargin].
    repeat split.
  - symmetry. exact Hnames.
Qed.

Lemma attribution_data_lines_witness :
  exists data,
    getServiceLineAttributionData
      [placement_costing "IT" 100 20 Undefined;
       placement_costing "10" 100 20 Undefined;
       placement_costing "2" 100 20 Undefined;
       placement_costing "constructor" 100 20 Undefined]
    = Normal data
    /\ AttributionReport.labels (AttributionReport.chartData data)
       = ["2"; "10"; "IT"].
Proof.
  destruct (getServiceLineAttributionData
              [placement_costing "IT" 100 20 Undefined;
               placement_costing "10" 100 20 Undefined;
               placement_costing "2" 100 20 Undefined;
               placement_costing "constructor" 100 20 Undefined])
    as [data |] eqn:E; [| vm_compute in E; discriminate].
  exists data. split; [reflexivity |].
  destruct (attribution_data_lines _ data E) as (Hnames & _ & Hlabels & _).
  - split; [| vm_compute; discriminate].
    repeat constructor; exists 100; reflexivity.
  - split; [| vm_compute; discriminate].
    repeat constructor; exists 20; reflexivity.
  - rewrite Hlabels, Hnames. vm_compute. reflexivity.
Defined.

(** X17. When no placement has a negative revenue and the revenues add up
    to 10^300 at most, every line's share of the revenue in the attribution
    report is a percentage in [0, 100]. *)
Theorem attribution_data_shares (placements : list Placement)
    (data : AttributionReport.t) :
  Forall (fun p => (0 <= or_zero (revenue p))%Q) placements ->
  (total revenue placements <= inject_Z (10 ^ 300))%Q ->
  getServiceLineAttributionData placements = Normal data ->
  Forall (fun ln => 0 <= AttributionReport.revenuePercentage ln <= 100)
         (AttributionReport.serviceLines data).
Proof.
  intros Hrev _ Hdata. apply attribution_data_normal in Hdata as (_ & Hl & _).
  cbn zeta in Hl. rewrite Hl.
  set (values := summary_of placements <$> line_names (attributable placements)).
  assert (Hnonneg : Forall (fun x => (0 <= x)%Q) (totalRevenue <$> values)).
  { unfold values. rewrite <- list_fmap_compose. apply Forall_fmap, Forall_forall.
    intros k _. unfold compose. cbn. apply group_total_nonneg, Hrev. }
  assert (HT : (foldl (fun sum line => sum + totalRevenue line) 0 values
                == sum_reduce (totalRevenue <$> values))%Q)
    by (rewrite foldl_sum; ring).
  set (T := foldl _ _ values) in *.
  apply Forall_fmap, Forall_forall. intros s Hs. unfold compose.
  cbn [AttributionReport.revenuePercentage].
  destruct (Qlt_le_dec 0 T) as [Hpos | _]; [| lia].
  assert (Hs0 : (0 <= totalRevenue s)%Q).
  { rewrite Forall_forall in Hnonneg. apply Hnonneg, list_elem_of_fmap. eauto. }
  assert (HsT : (totalRevenue s <= T)%Q).
  { rewrite HT. apply elem_le_sum; [exact Hnonneg |]. apply list_elem_of_fmap. eauto. }
  assert (Hq0 : (0 <= totalRevenue s / T)%Q) by (apply Qle_shift_div_l; lra).
  assert (Hq1 : (totalRevenue s / T <= 1)%Q) by (apply Qle_shift_div_r; lra).
  apply Math_round_bounds.
  - change (inject_Z 0) with 0%Q. lra.
  - change (inject_Z 100) with 100%Q. lra.
Qed.

Lemma attribution_data_shares_witness :
  exists data,
    getServiceLineAttributionData three_line_placements = Normal data
    /\ Forall (fun ln => 0 <= AttributionReport.revenuePercentage ln <= 100)
              (AttributionReport.serviceLines data).
Proof.
  destruct (getServiceLineAttributionData three_line_placements)
    as [data |] eqn:E; [| vm_compute in E; discriminate].
  exists data. split; [reflexivity |].
  apply (attribution_data_shares three_line_placements data).
  - unfold three_line_placements.
    constructor; [| constructor; [| constructor; [| constructor]]]; discriminate.
  - vm_compute. discriminate.
  - exact E.
Defined.

(** ** ROI report *)

Lemma roi_step_spec (o : list (string * ROIGroup)) (x : Scored.t) :
  roi_step o x = match roi_fails x with
                 | Some e => Throw e
                 | None => Normal (roi_line_step o x)
                 end.
Proof.
  unfold roi_step, roi_fails, roi_line_step, grouped_step.
  destruct (inherited _); reflexivity.
Qed.

Lemma roi_push_fold (l : list Scored.t) (d : ROIGroup) :
  foldl (fun g x => Some (roi_update x (default (mkROIGroup 0 0 []) g))) (Some d) l
    = Some (mkROIGroup
              (foldl (fun sum p => sum + or_zero (revenue p))%Q (group_revenue d)
                     (Scored.placement <$> l))
              (foldl (fun sum p => sum + placement_cost p)%Q (group_cost d)
                     (Scored.placement <$> l))
              (group_scores d ++ (Scored.roiScore <$> l))).
Proof.
  revert d. induction l as [| x l IH]; intros [r c sc]; cbn [foldl].
  - cbn. rewrite app_nil_r. reflexivity.
  - change (default (mkROIGroup 0 0 []) (Some ?d)) with d.
    rewrite IH. cbn. rewrite <- app_assoc. reflexivity.
Qed.

Lemma batch_placements (placements : list Placement) :
  Scored.placement <$> batchCalculateScores placements = placements.
Proof.
  unfold batchCalculateScores. induction placements as [| p ps IH]; [reflexivity |].
  cbn [map fmap list_fmap Scored.placement] in *. rewrite IH. reflexivity.
Qed.

Lemma batch_roi_scores (placements : list Placement) :
  Scored.roiScore <$> batchCalculateScores placements = roi_of <$> placements.
Proof.
  unfold batchCalculateScores. induction placements as [| p ps IH]; [reflexivity |].
  cbn [map fmap list_fmap Scored.roiScore] in *. rewrite IH. reflexivity.
Qed.

(** The by-line object the loop of the ROI report leaves behind. *)
Lemma roi_lines_final (placements : list Placement) (k : string) :
  let byLine := foldl roi_line_step [] (batchCalculateScores placements) in
  byLine.*1 = first_seen (line_key <$> placements)
  /\ entry_get k byLine
     = match group_of k placements with
       | [] => None
       | _ :: _ =>
           Some (mkROIGroup (total revenue (group_of k placements))
                            (total_cost (group_of k placements))
                            (roi_of <$> group_of k placements))
       end.
Proof.
  cbn zeta. unfold roi_line_step. split.
  - rewrite grouped_fold_keys, batch_line_keys. reflexivity.
  - rewrite grouped_fold_get, batch_filter_line. cbn [entry_get].
    destruct (group_of k placements) as [| p g]; [reflexivity |].
    change (batchCalculateScores (p :: g))
      with (Scored.mk p (velocity_of p) (roi_of p)
              (calculateOverallScore (inject_Z (velocity_of p))
                                     (inject_Z (roi_of p)) None)
            :: batchCalculateScores g).
    cbn [foldl]. change (default (mkROIGroup 0 0 []) None) with (mkROIGroup 0 0 []).
    rewrite roi_push_fold. cbn [roi_update group_revenue group_cost group_scores
                                 Scored.placement Scored.roiScore app].
    rewrite batch_placements, batch_roi_scores. reflexivity.
Qed.

Lemma sum_reduce_upper (b : Q) (xs : list Q) :
  Forall (fun x => (x <= b)%Q) xs ->
  (sum_reduce xs <= b * inject_Z (Z.of_nat (length xs)))%Q.
Proof.
  induction 1 as [| x xs Hx Hxs IH].
  - change (sum_reduce []) with 0%Q.
    change (inject_Z (Z.of_nat (length (@nil Q)))) with 0%Q. lra.
  - rewrite sum_reduce_cons, length_cons_Q. lra.
Qed.

Lemma mean_scores_round_upper (b : Z) (xs : list Z) :
  xs <> [] -> Forall (fun z => z <= b) xs -> Math_round (mean_scores xs) <= b.
Proof.
  intros Hne Hxs. unfold mean_scores, mean.
  transitivity (Math_round (inject_Z b)); [| rewrite Math_round_inject_Z; lia].
  apply Math_round_le.
  assert (Hn : (0 < inject_Z (Z.of_nat (length (map inject_Z xs))))%Q).
  { destruct xs as [| x xs]; [congruence |].
    change 0%Q with (inject_Z 0). rewrite <- Zlt_Qlt. cbn [map length]. lia. }
  apply Qle_shift_div_r; [exact Hn |].
  apply sum_reduce_upper, Forall_fmap. eapply Forall_impl; [exact Hxs |].
  intros z Hz. cbn. rewrite <- Zle_Qle. exact Hz.
Qed.

Lemma roi_of_upper (g : list Placement) : Forall (fun z => z <= 100) (roi_of <$> g).
Proof.
  apply Forall_fmap, Forall_forall. intros p _. unfold compose, roi_of.
  apply roi_score_le_100.
Qed.

(** The by-line object of the ROI report, entry by entry. *)
Lemma roi_lines_entries (placements : list Placement) :
  foldl roi_line_step [] (batchCalculateScores placements)
    = (fun k => (k, mkROIGroup (total revenue (group_of k placements))
                               (total_cost (group_of k placements))
                               (roi_of <$> group_of k placements)))
        <$> first_seen (line_key <$> placements).
Proof.
  destruct (roi_lines_final placements "") as [Hkeys _]. cbn zeta in Hkeys.
  rewrite <- Hkeys. apply entries_from_get.
  - rewrite Hkeys. apply first_seen_NoDup.
  - intros k Hk. destruct (roi_lines_final placements k) as [_ Hget].
    cbn zeta in Hget. rewrite Hget.
    assert (Hne : group_of k placements <> []).
    { apply group_of_nonempty. rewrite Hkeys in Hk. apply first_seen_elem, Hk. }
    destruct (group_of k placements); [congruence | reflexivity].
Qed.

Lemma batch_roi_ok (placements : list Placement) :
  Forall (fun x => roi_fails x = None) (batchCalculateScores placements)
  <-> Forall (fun p => inherited (line_key p) = false) placements.
Proof.
  unfold batchCalculateScores. rewrite Forall_fmap.
  split; intros H; (eapply Forall_impl; [exact H |]); intros p Hp;
    unfold compose, roi_fails in *; cbn [Scored.placement] in *;
    destruct (inherited (line_key p)); congruence.
Qed.

(** The report, written out over the groups of the placements. *)
Lemma roi_data_normal (placements : list Placement) (data : ROIReport.t) :
  getROIDashboardData placements = Normal data ->
  let scored := batchCalculateScores placements in
  let M := foldl (fun sum p => (sum + optional_cost marketingCost (attribution p))%Q)
                 0%Q placements in
  let S := foldl (fun sum p => (sum + optional_cost salesCost (attribution p))%Q)
                 0%Q placements in
  let average :=
    if (0 <? length scored)%nat
    then Math_round (mean_scores (map Scored.roiScore scored)) else 0 in
  Forall (fun p => inherited (line_key p) = false) placements
  /\ ROIReport.summary data
     = ROIReport.mkSummary (total revenue placements) (total margin placements)
         (M + S)%Q
         (if Qlt_le_dec 0 (M + S)%Q
          then Math_round ((total revenue placements - (M + S)) / (M + S) * 100)
          else 0)
         average (getScoreTier (inject_Z average))
  /\ ROIReport.byServiceLine data = roi_line placements <$> line_names placements
  /\ ROIReport.costBreakdown data = ROIReport.mkCosts M S
  /\ ROIReport.distribution data
     = calculateScoreDistribution
         (map (fun p => inject_Z (Scored.roiScore p)) scored).
Proof.
  intros Hdata. cbn zeta. unfold getROIDashboardData in Hdata.
  pose proof (for_of_outcome roi_step roi_fails roi_line_step roi_step_spec
                (batchCalculateScores placements) []) as H.
  destruct (for_of roi_step [] (batchCalculateScores placements)) as [byLine |];
    cbn [mbind completion_bind] in Hdata; [| discriminate].
  destruct H as [Hok ->]. split; [apply batch_roi_ok, Hok |].
  injection Hdata as <-.
  cbn [ROIReport.summary ROIReport.byServiceLine ROIReport.costBreakdown
       ROIReport.distribution].
  split; [reflexivity |]. split; [| split; reflexivity].
  rewrite roi_lines_entries.
  destruct (Object_values_entries
              (fun k => mkROIGroup (total revenue (group_of k placements))
                                   (total_cost (group_of k placements))
                                   (roi_of <$> group_of k placements))
              (first_seen (line_key <$> placements))) as (_ & _ & ->).
  change (map ?f ?l) with (f <$> l). rewrite <- list_fmap_compose.
  reflexivity.
Qed.


Lemma line_sums (F : Placement -> Q) (placements : list Placement) :
  (sum_reduce ((fun k => foldl (fun s p => s + F p) 0 (group_of k placements))
                 <$> line_names placements)
   == foldl (fun s p => s + F p) 0 placements)%Q.
Proof.
  rewrite (sum_reduce_ext _
             (fun k => sum_reduce (F <$> filter (fun p => line_key p = k) placements))).
  - rewrite (grouped_sum_all line_key F).
    + rewrite foldl_sum. ring.
    + apply line_names_NoDup.
    + intros p Hp. apply line_names_elem, list_elem_of_fmap. eauto.
  - intros k. unfold group_of. rewrite foldl_sum. ring.
Qed.

Lemma line_group_nonempty (placements : list Placement) (k : string) :
  k ∈ line_names placements -> group_of k placements <> [].
Proof. intros Hk. apply group_of_nonempty, line_names_elem, Hk. Qed.

(** X18. A returned ROI report lists each service line once, in the order
    of [Object.entries]: the keys that are array indices first, in
    ascending order, then the others in the order of first appearance.  A
    line carries the revenue and the marketing and sales cost of its
    placements, added up in input order.  When the revenues and the costs
    are whole amounts, its ROI percentage is 0 unless the cost is positive,
    is not negative when the revenue covers a positive cost and not
    positive when it does not, and its average score is at most 100. *)
Theorem roi_data_by_line (placements : list Placement) (data : ROIReport.t) :
  getROIDashboardData placements = Normal data ->
  whole_amounts (fun p => or_zero (revenue p)) placements ->
  whole_amounts (fun p => optional_cost marketingCost (attribution p)) placements ->
  whole_amounts (fun p => optional_cost salesCost (attribution p)) placements ->
  ROIReport.serviceLine <$> ROIReport.byServiceLine data = line_names placements
  /\ Forall (fun ln =>
               let g := group_of (ROIReport.serviceLine ln) placements in
               g <> []
               /\ ROIReport.revenue ln = total revenue g
               /\ ROIReport.cost ln = total_cost g
               /\ ((ROIReport.cost ln <= 0)%Q -> ROIReport.roi ln = 0)
               /\ ((0 < ROIReport.cost ln <= ROIReport.revenue ln)%Q ->
                   0 <= ROIReport.roi ln)
               /\ ((0 < ROIReport.cost ln)%Q ->
                   (ROIReport.revenue ln <= ROIReport.cost ln)%Q ->
                   ROIReport.roi ln <= 0)
               /\ ROIReport.averageScore ln <= 100)
            (ROIReport.byServiceLine data).
Proof.
  intros Hdata _ _ _.
  destruct (roi_data_normal placements data Hdata) as (_ & _ & -> & _).
  split.
  - rewrite <- list_fmap_compose. apply list_fmap_id.
  - apply Forall_fmap, Forall_forall. intros k Hk. unfold compose, roi_line.
    cbn [ROIReport.serviceLine ROIReport.revenue ROIReport.cost ROIReport.roi
         ROIReport.averageScore].
    assert (Hne : group_of k placements <> []) by (apply line_group_nonempty, Hk).
    split; [exact Hne |]. split; [reflexivity |]. split; [reflexivity |].
    set (R := total revenue (group_of k placements)).
    set (C := total_cost (group_of k placements)).
    split; [| split; [| split]].
    + intros HC. destruct (Qlt_le_dec 0 C) as [Hpos | _]; [lra | reflexivity].
    + intros [HC HR]. destruct (Qlt_le_dec 0 C) as [_ | Hle]; [| lra].
      transitivity (Math_round 0); [reflexivity |]. apply Math_round_le.
      assert (0 <= (R - C) / C)%Q by (apply Qle_shift_div_l; lra). lra.
    + intros HC HR. destruct (Qlt_le_dec 0 C) as [_ | Hle]; [| lra].
      transitivity (Math_round 0); [| reflexivity]. apply Math_round_le.
      assert ((R - C) / C <= 0)%Q by (apply Qle_shift_div_r; lra). lra.
    + apply mean_scores_round_upper; [| apply roi_of_upper].
      destruct (group_of k placements); [congruence | discriminate].
Qed.

Lemma roi_data_by_line_witness :
  exists data,
    getROIDashboardData two_costed_placements = Normal data
    /\ ROIReport.serviceLine <$> ROIReport.byServiceLine data = ["IT"].
Proof.
  destruct (getROIDashboardData two_costed_placements) as [data |] eqn:E;
    [| vm_compute in E; discriminate].
  exists data. split; [reflexivity |].
  destruct (roi_data_by_line two_costed_placements data E) as [Hnames _].
  - split; [| vm_compute; discriminate].
    repeat constructor; [exists 10000 | exists 15000]; reflexivity.
  - split; [| vm_compute; discriminate].
    repeat constructor; [exists 500 | exists 600]; reflexivity.
  - split; [| vm_compute; discriminate].
    repeat constructor; [exists 300 | exists 400]; reflexivity.
  - rewrite Hnames. vm_compute. reflexivity.
Defined.

(** X19. In a returned ROI report the total cost is the marketing plus the
    sales cost of the breakdown, the overall ROI is 0 unless that cost is
    positive, the tier is the tier of the average ROI score, and the
    distribution counts add up to the number of placements.  When the
    revenues and the costs are whole amounts, the grouping loses nothing,
    the revenues of the lines adding up to the total revenue and their
    costs to the total cost, and the average ROI score is at most 100. *)
Theorem roi_data_totals (placements : list Placement) (data : ROIReport.t) :
  getROIDashboardData placements = Normal data ->
  whole_amounts (fun p => or_zero (revenue p)) placements ->
  whole_amounts (fun p => optional_cost marketingCost (attribution p)) placements ->
  whole_amounts (fun p => optional_cost salesCost (attribution p)) placements ->
  let s := ROIReport.summary data in
  (sum_reduce (ROIReport.revenue <$> ROIReport.byServiceLine data)
   == ROIReport.totalRevenue s)%Q
  /\ (sum_reduce (ROIReport.cost <$> ROIReport.byServiceLine data)
      == ROIReport.totalCost s)%Q
  /\ ROIReport.totalCost s
     = (ROIReport.marketing (ROIReport.costBreakdown data)
        + ROIReport.sales (ROIReport.costBreakdown data))%Q
  /\ ((ROIReport.totalCost s <= 0)%Q -> ROIReport.overallROI s = 0)
  /\ ROIReport.averageROIScore s <= 100
  /\ ROIReport.tier s = getScoreTier (inject_Z (ROIReport.averageROIScore s))
  /\ sum_list (omap (fun k => ROIReport.distribution data !! k)
                    ["excellent (90-100)"; "good (75-89)"; "average (50-74)";
                     "below_average (25-49)"; "poor (0-24)"])
     = length placements.
Proof.
  intros Hdata _ _ _. cbn zeta.
  destruct (roi_data_normal placements data Hdata) as (_ & -> & -> & -> & ->).
  cbn [ROIReport.totalRevenue ROIReport.totalCost ROIReport.marketing
       ROIReport.sales ROIReport.overallROI ROIReport.averageROIScore
       ROIReport.tier].
  split; [| split; [| split; [reflexivity | split; [| split; [| split;
    [reflexivity |]]]]]].
  - rewrite <- list_fmap_compose. unfold compose, roi_line.
    cbn [ROIReport.revenue]. apply (line_sums (fun p => or_zero (revenue p))).
  - rewrite <- list_fmap_compose. unfold compose, roi_line.
    cbn [ROIReport.cost]. unfold total_cost. rewrite (line_sums placement_cost).
    rewrite !foldl_sum. unfold placement_cost. rewrite sum_reduce_plus. ring.
  - intros HC. destruct (Qlt_le_dec 0 _) as [Hpos | _]; [lra | reflexivity].
  - destruct placements as [| p ps]; [cbn; lia |].
    change (0 <? length (batchCalculateScores (p :: ps)))%nat with true.
    cbn iota.
    change (map Scored.roiScore ?l) with (Scored.roiScore <$> l).
    rewrite batch_roi_scores.
    apply mean_scores_round_upper; [discriminate | apply roi_of_upper].
  - set (scores := map (fun p => inject_Z (Scored.roiScore p))
                       (batchCalculateScores placements)).
    assert (Hlen : length scores = length placements).
    { unfold scores, batchCalculateScores. rewrite !length_map. reflexivity. }
    rewrite <- Hlen. pose proof (tier_count_total scores) as Htotal.
    assert (H1 := distribution_tier scores "excellent" ltac:(set_solver)).
    assert (H2 := distribution_tier scores "good" ltac:(set_solver)).
    assert (H3 := distribution_tier scores "average" ltac:(set_solver)).
    assert (H4 := distribution_tier scores "below_average" ltac:(set_solver)).
    assert (H5 := distribution_tier scores "poor" ltac:(set_solver)).
    change (tier_bucket "excellent") with "excellent (90-100)" in H1.
    change (tier_bucket "good") with "good (75-89)" in H2.
    change (tier_bucket "average") with "average (50-74)" in H3.
    change (tier_bucket "below_average") with "below_average (25-49)" in H4.
    change (tier_bucket "poor") with "poor (0-24)" in H5.
    cbn [omap list_omap]. rewrite H1, H2, H3, H4, H5.
    cbn -[tier_count]. lia.
Qed.

Lemma roi_data_totals_witness :
  exists data,
    getROIDashboardData two_costed_placements = Normal data
    /\ (sum_reduce (ROIReport.revenue <$> ROIReport.byServiceLine data)
        == ROIReport.totalRevenue (ROIReport.summary data))%Q
    /\ ROIReport.averageROIScore (ROIReport.summary data) <= 100.
Proof.
  destruct (getROIDashboardData two_costed_placements) as [data |] eqn:E;
    [| vm_compute in E; discriminate].
  exists data. split; [reflexivity |].
  destruct (roi_data_totals two_costed_placements data E)
    as (Hrev & _ & _ & _ & Havg & _).
  - split; [| vm_compute; discriminate].
    repeat constructor; [exists 10000 | exists 15000]; reflexivity.
  - split; [| vm_compute; discriminate].
    repeat constructor; [exists 500 | exists 600]; reflexivity.
  - split; [| vm_compute; discriminate].
    repeat constructor; [exists 300 | exists 400]; reflexivity.
  - split; [exact Hrev | exact Havg].
Defined.

(** ** Executive report *)






(** * Properties of the card builders *)

Example decimal_samples :
  map decimal [0; 1; 5; 9; 10; 42; 100; 4096]%nat
  = ["0"; "1"; "5"; "9"; "10"; "42"; "100"; "4096"].
Proof. vm_compute. reflexivity. Qed.

Section CardProperties.

Import CRMCardService.

Variable Number_toString : Q -> string.

Lemma truthy_or (a b : js_value) : truthy (js_or a b) = truthy a || truthy b.
Proof. unfold js_or. destruct (truthy a) eqn:E; [exact E | reflexivity]. Qed.

Lemma map_index_length {A B} (f : A -> nat -> B) (start : nat) (xs : list A) :
  length (map_index f start xs) = length xs.
Proof.
  revert start. induction xs as [| x xs IH]; intros start; [reflexivity |].
  cbn [map_index length]. rewrite IH. reflexivity.
Qed.

Lemma map_index_lookup {A B} (f : A -> nat -> B) (start i : nat) (xs : list A) :
  map_index f start xs !! i = (fun x => f x (start + i)%nat) <$> xs !! i.
Proof.
  revert start i. induction xs as [| x xs IH]; intros start i; [reflexivity |].
  destruct i as [| i]; cbn [map_index lookup list_lookup].
  - cbn. rewrite Nat.add_0_r. reflexivity.
  - change ((map_index f (S start) xs) !! i
            = (fun x0 => f x0 (start + S i)%nat) <$> xs !! i).
    rewrite IH. rewrite Nat.add_succ_r. reflexivity.
Qed.

Lemma map_index_labels {A} (f : A -> nat -> Property) (g : nat -> string)
    (start : nat) (xs : list A) :
  (forall x i, label (f x i) = g i) ->
  label <$> map_index f start xs = g <$> seq start (length xs).
Proof.
  intros Hf. revert start. induction xs as [| x xs IH]; intros start; [reflexivity |].
  cbn [map_index length seq fmap list_fmap]. rewrite Hf. f_equal. apply IH.
Qed.

Lemma map_index_values {A} (f : A -> nat -> Property) (g : A -> js_value)
    (start : nat) (xs : list A) :
  (forall x i, value (f x i) = g x) ->
  value <$> map_index f start xs = g <$> xs.
Proof.
  intros Hf. revert start. induction xs as [| x xs IH]; intros start; [reflexivity |].
  cbn [map_index fmap list_fmap]. rewrite Hf. f_equal. apply IH.
Qed.

Lemma map_index_Forall {A B} (P : B -> Prop) (f : A -> nat -> B)
    (start : nat) (xs : list A) :
  (forall x i, P (f x i)) -> Forall P (map_index f start xs).
Proof.
  intros Hf. revert start. induction xs as [| x xs IH]; intros start;
    constructor; [apply Hf | apply IH].
Qed.

(** X21. The job card always opens with the job-details section (two
    top-level and eight further properties).  A candidates section follows
    exactly when the job has at least one candidate; it shows the first
    five candidates at most, in order, each with its name and status, and
    labels them ["Candidate 1"] to ["Candidate 5"]. *)
Theorem job_card_sections (job : JobFields) :
  let card := buildJobCard Number_toString job in
  let listed := default [] (candidates job) in
  id <$> results card
    = "job_details" :: (if decide (listed = []) then [] else ["candidates"])
  /\ (length <$> (head (results card) ≫= topLevelProperties)) = Some 2%nat
  /\ (length ∘ properties <$> head (results card)) = Some 8%nat
  /\ (forall sec, results card !! 1%nat = Some sec ->
        length (properties sec) = Nat.min 5 (length listed)
        /\ label <$> properties sec
           = take (length listed)
                  ["Candidate 1"; "Candidate 2"; "Candidate 3"; "Candidate 4";
                   "Candidate 5"]
        /\ value <$> properties sec
           = (fun c => VString (ToString Number_toString (name c) +:+ " - "
                                +:+ ToString Number_toString (candidate_status c)))
               <$> take 5 listed
        /\ Forall (fun p => dataType p = "STRING") (properties sec)).
Proof.
  cbn zeta. unfold buildJobCard.
  destruct (candidates job) as [[| c cs] |]; cbn [results default].
  - split; [reflexivity |]. split; [reflexivity |]. split; [reflexivity |].
    intros sec Hsec. discriminate.
  - split; [reflexivity |]. split; [reflexivity |]. split; [reflexivity |].
    remember (map_index _ 0%nat (take 5 (c :: cs))) as props eqn:Hprops.
    intros sec Hsec. cbn in Hsec. injection Hsec as <-. cbn [properties].
    subst props. split; [| split; [| split]].
    + rewrite map_index_length, length_take. reflexivity.
    + rewrite (map_index_labels _ (fun i => "Candidate " +:+ decimal (i + 1)))
        by reflexivity.
      rewrite length_take.
      destruct cs as [| c2 [| c3 [| c4 [| c5 cs]]]]; try reflexivity.
      cbn [default from_option Datatypes.id length Nat.min take].
      rewrite take_nil. reflexivity.
    + apply map_index_values. reflexivity.
    + apply map_index_Forall. reflexivity.
  - split; [reflexivity |]. split; [reflexivity |]. split; [reflexivity |].
    intros sec Hsec. discriminate.
Qed.

(** X22. The placement card has the placement-details and the revenue
    section, followed by a performance-scores section exactly when the
    velocity score or the ROI score is truthy; in that section a score
    that is missing or 0 is shown as 0. *)
Theorem placement_card_sections (placement : PlacementFields) :
  let card := buildPlacementCard Number_toString placement in
  id <$> results card
    = ["placement_details"; "revenue"]
      ++ (if truthy (placement_velocityScore placement)
             || truthy (placement_roiScore placement)
          then ["scores"] else [])
  /\ (forall sec, results card !! 2%nat = Some sec ->
        value <$> properties sec
        = [js_or (placement_velocityScore placement) (VNumber 0);
           js_or (placement_roiScore placement) (VNumber 0);
           js_or (placement_overallScore placement) (VNumber 0)]).
Proof.
  cbn zeta. unfold buildPlacementCard. rewrite truthy_or.
  destruct (truthy (placement_velocityScore placement)
            || truthy (placement_roiScore placement)); cbn [results].
  - split; [reflexivity |]. intros sec Hsec. cbn in Hsec.
    injection Hsec as <-. reflexivity.
  - split; [reflexivity |]. intros sec Hsec. discriminate.
Qed.

(** The attribution card has the summary section, followed by a
    by-service-line section exactly when the argument carries
    [serviceLines]; that section has one property per service line, in
    the order of [Object.entries] and labelled with the line. *)
Lemma attribution_card_sections (attributionData : AttributionFields) :
  let card := buildAttributionCard Number_toString attributionData in
  id <$> results card
    = "summary" :: match serviceLines attributionData with
                   | Some _ => ["service_lines"]
                   | None => []
                   end
  /\ (forall sec, results card !! 1%nat = Some sec ->
        label <$> properties sec
        = Object_keys (default [] (serviceLines attributionData))).
Proof.
  cbn zeta. unfold buildAttributionCard.
  destruct (serviceLines attributionData) as [entries |]; cbn [results].
  - split; [reflexivity |]. intros sec Hsec. cbn in Hsec.
    injection Hsec as <-.
    change (default [] (Some entries)) with entries.
    unfold Object_keys, Object_entries.
    induction (own_property_order fst entries) as [| [k s] l IH]; [reflexivity |].
    cbn [map fmap list_fmap label fst properties] in *. rewrite IH. reflexivity.
  - split; [reflexivity |]. intros sec Hsec. discriminate.
Qed.

(** No card has secondary actions.  The job and the placement card open
    the record in TrackerRMS as their primary action; the attribution and
    the error card have none. *)
Lemma card_actions (job : JobFields) (placement : PlacementFields)
    (attributionData : AttributionFields) (message : string) :
  secondaryActions (buildJobCard Number_toString job) = []
  /\ secondaryActions (buildPlacementCard Number_toString placement) = []
  /\ secondaryActions (buildAttributionCard Number_toString attributionData) = []
  /\ secondaryActions (buildErrorCard message) = []
  /\ uri <$> primaryAction (buildJobCard Number_toString job)
     = Some ("https://app.trackerrms.com/jobs/"
             +:+ ToString Number_toString (job_id job))
  /\ uri <$> primaryAction (buildPlacementCard Number_toString placement)
     = Some ("https://app.trackerrms.com/placements/"
             +:+ ToString Number_toString (placement_id placement))
  /\ primaryAction (buildAttributionCard Number_toString attributionData) = None
  /\ primaryAction (buildErrorCard message) = None.
Proof. repeat split. Qed.

End CardProperties.

(** * Scores and tiers *)

Section TierByDays.

Variables (p : Placement) (j : Job) (fill open : Z).
Hypothesis Hfill : fill_time p = Some fill.
Hypothesis Hopen : open_time j = Some open.

Lemma velocity_score_at_least (t : Z) :
  10 < t <= 100 ->
  t <= calculateVelocityScore (Obj p) (Obj j)
  <-> (daysBetween fill open * 2 <= 100 - inject_Z t + (1 # 2))%Q.
Proof.
  intros [Hlo Hhi].
  assert (Hloq : (11 <= inject_Z t)%Q)
    by (change 11%Q with (inject_Z 11); rewrite <- Zle_Qle; lia).
  assert (Hhiq : (inject_Z t <= 100)%Q)
    by (change 100%Q with (inject_Z 100); rewrite <- Zle_Qle; exact Hhi).
  rewrite (velocity_unfold p j fill open Hfill Hopen).
  set (tq := inject_Z t) in *. set (d := daysBetween fill open).
  destruct (Qlt_le_dec d 0) as [Hneg | Hpos].
  - split; [intros _; lra | intros _; exact Hhi].
  - rewrite Math_round_ge_iff, Q.max_le_iff, Q.min_glb_iff. fold tq. split.
    + intros [H | [_ H]]; lra.
    + intros H. right. split; lra.
Qed.

(** X23. How the days to fill decide the tier of a velocity score: the
    score is at least 90 (excellent) exactly up to 5.25 days, at least 75
    (good) up to 12.75 days, at least 50 (average) up to 25.25 days and at
    least 25 (below average) up to 37.75 days; beyond that it is poor. *)
Theorem velocity_tier_by_days :
  let score := calculateVelocityScore (Obj p) (Obj j) in
  let days := daysBetween fill open in
  (90 <= score <-> (days <= 21 # 4)%Q)
  /\ (75 <= score <-> (days <= 51 # 4)%Q)
  /\ (50 <= score <-> (days <= 101 # 4)%Q)
  /\ (25 <= score <-> (days <= 151 # 4)%Q)
  /\ ((151 # 4 < days)%Q <-> getScoreTier (inject_Z score) = "poor").
Proof.
  cbn zeta.
  assert (H90 := velocity_score_at_least 90 ltac:(lia)).
  assert (H75 := velocity_score_at_least 75 ltac:(lia)).
  assert (H50 := velocity_score_at_least 50 ltac:(lia)).
  assert (H25 := velocity_score_at_least 25 ltac:(lia)).
  change (inject_Z 90) with 90%Q in H90. change (inject_Z 75) with 75%Q in H75.
  change (inject_Z 50) with 50%Q in H50. change (inject_Z 25) with 25%Q in H25.
  set (d := daysBetween fill open) in *.
  assert (G90 : 90 <= calculateVelocityScore (Obj p) (Obj j) <-> (d <= 21 # 4)%Q)
    by (rewrite H90; split; intros H; lra).
  assert (G75 : 75 <= calculateVelocityScore (Obj p) (Obj j) <-> (d <= 51 # 4)%Q)
    by (rewrite H75; split; intros H; lra).
  assert (G50 : 50 <= calculateVelocityScore (Obj p) (Obj j) <-> (d <= 101 # 4)%Q)
    by (rewrite H50; split; intros H; lra).
  assert (G25 : 25 <= calculateVelocityScore (Obj p) (Obj j) <-> (d <= 151 # 4)%Q)
    by (rewrite H25; split; intros H; lra).
  clear H90 H75 H50 H25.
  rename G90 into H90, G75 into H75, G50 into H50, G25 into H25.
  split; [exact H90 |]. split; [exact H75 |]. split; [exact H50 |].
  split; [exact H25 |].
  set (score := calculateVelocityScore (Obj p) (Obj j)) in *.
  assert (Hle : forall t : Z, Qle_bool (inject_Z t) (inject_Z score) = true <-> t <= score)
    by (intros t; rewrite Qle_bool_iff, <- Zle_Qle; reflexivity).
  unfold getScoreTier.
  change 90%Q with (inject_Z 90). change 75%Q with (inject_Z 75).
  change 50%Q with (inject_Z 50). change 25%Q with (inject_Z 25).
  split.
  - intros Hdays.
    assert (H : score < 25) by (apply Z.lt_nge; intros Hs; apply H25 in Hs; lra).
    destruct (Qle_bool (inject_Z 90) _) eqn:E90; [apply Hle in E90; lia |].
    destruct (Qle_bool (inject_Z 75) _) eqn:E75; [apply Hle in E75; lia |].
    destruct (Qle_bool (inject_Z 50) _) eqn:E50; [apply Hle in E50; lia |].
    destruct (Qle_bool (inject_Z 25) _) eqn:E25; [apply Hle in E25; lia |].
    reflexivity.
  - intros Htier. apply Qnot_le_lt. intros Hdays. apply H25 in Hdays.
    apply Hle in Hdays.
    repeat match goal with
      | H : context [Qle_bool (inject_Z ?t) (inject_Z score)] |- _ =>
          destruct (Qle_bool (inject_Z t) (inject_Z score)); try discriminate
      end.
Qed.

End TierByDays.

Lemma velocity_tier_by_days_witness :
  90 <= calculateVelocityScore (Obj (placement_filled_at 1704412800000))
                               (Obj (job_opened_at 1704067200000))
  <-> (daysBetween 1704412800000 1704067200000 <= 21 # 4)%Q.
Proof.
  exact (proj1 (velocity_tier_by_days (placement_filled_at 1704412800000)
                  (job_opened_at 1704067200000) 1704412800000 1704067200000
                  eq_refl eq_refl)).
Defined.

(** ** The sign of an ROI score in binary64 arithmetic *)

Section Signs.

Import SpecFloat.

Lemma of_Z_0 : Binary64.of_Z 0 = S754_zero false.
Proof. reflexivity. Qed.

Lemma of_Z_100 : Binary64.of_Z 100 = S754_finite false 7036874417766400 (-46).
Proof. vm_compute. reflexivity. Qed.

Lemma of_Z_2 : Binary64.of_Z 2 = S754_finite false 4503599627370496 (-51).
Proof. vm_compute. reflexivity. Qed.

Lemma round_aux_sign (s : bool) (m e : Z) (l : location) :
  signbit64 (binary_round_aux 53 1024 s m e l) = true -> s = true.
Proof.
  unfold binary_round_aux.
  destruct (shr_fexp 53 1024 m e l) as [mrs' e'].
  destruct (shr_fexp 53 1024 _ e' loc_Exact) as [mrs'' e''].
  destruct (shr_m mrs'') as [| q | q]; cbn [signbit64]; try discriminate; try auto.
  destruct (e'' <=? 1024 - 53); cbn [signbit64]; auto.
Qed.

Lemma mul_sign (x y : Binary64.number) :
  signbit64 x = false -> signbit64 y = false ->
  signbit64 (Binary64.mul x y) = false.
Proof.
  intros Hx Hy. unfold Binary64.mul, SFmul.
  destruct x as [sx | sx | | sx mx ex]; destruct y as [sy | sy | | sy my ey];
    cbn [signbit64] in *; subst; try reflexivity.
  destruct (signbit64 (binary_round_aux 53 1024 (xorb false false)
                         (Z.pos (mx * my)) (ex + ey) loc_Exact)) eqn:E;
    [apply round_aux_sign in E; discriminate | reflexivity].
Qed.

Lemma div_sign (x y : Binary64.number) :
  signbit64 x = false -> signbit64 y = false ->
  signbit64 (Binary64.div x y) = false.
Proof.
  intros Hx Hy. unfold Binary64.div, SFdiv.
  destruct x as [sx | sx | | sx mx ex]; destruct y as [sy | sy | | sy my ey];
    cbn [signbit64] in *; subst; try reflexivity.
  destruct (SFdiv_core_binary 53 1024 (Z.pos mx) ex (Z.pos my) ey) as [[mz ez] lz].
  destruct (signbit64 (binary_round_aux 53 1024 (xorb false false) mz ez lz)) eqn:E;
    [apply round_aux_sign in E; discriminate | reflexivity].
Qed.

Lemma of_Z_sign (n : Z) : 0 <= n -> signbit64 (Binary64.of_Z n) = false.
Proof.
  intros Hn. unfold Binary64.of_Z, binary_normalize.
  destruct n as [| q | q]; [reflexivity | | lia].
  unfold binary_round. destruct (shl_align _ _ _) as [mz ez].
  destruct (signbit64 (binary_round_aux 53 1024 false (Z.pos mz) ez loc_Exact)) eqn:E;
    [apply round_aux_sign in E; discriminate | reflexivity].
Qed.

Lemma Math_round_sign (x : Binary64.number) :
  signbit64 x = false -> signbit64 (Binary64.Math_round x) = false.
Proof.
  intros Hx. unfold Binary64.Math_round.
  destruct x as [sx | sx | | sx mx ex]; cbn [signbit64] in *; subst; try reflexivity.
  destruct (0 <=? ex) eqn:Hex; [reflexivity |]. cbn [cond_Zopp].
  apply Z.leb_gt in Hex.
  assert (Hn : 0 <= (Z.pos mx * 2 + 2 ^ (- ex)) / 2 ^ (1 - ex)).
  { apply Z.div_pos; [| apply Z.pow_pos_nonneg; lia].
    assert (0 <= 2 ^ (- ex)) by (apply Z.pow_nonneg; lia). lia. }
  destruct ((Z.pos mx * 2 + 2 ^ (- ex)) / 2 ^ (1 - ex)) as [| q | q] eqn:E;
    [reflexivity | apply of_Z_sign; lia | lia].
Qed.

Lemma lt_0_sign (x : Binary64.number) :
  signbit64 x = false -> Binary64.lt x (Binary64.of_Z 0) = false.
Proof.
  intros Hx. rewrite of_Z_0.
  destruct x as [sx | sx | | sx mx ex]; cbn [signbit64] in *; subst; reflexivity.
Qed.

Lemma gt_0_sign (x : Binary64.number) :
  Binary64.gt x (Binary64.of_Z 0) = true -> signbit64 x = false.
Proof.
  rewrite of_Z_0. destruct x as [[] | [] | | [] mx ex]; cbn; congruence.
Qed.

Lemma or_zero_sign (x : option Binary64.number) :
  Binary64.lt (Binary64.or_zero x) (Binary64.of_Z 0) = false ->
  signbit64 (Binary64.or_zero x) = false.
Proof.
  rewrite of_Z_0. destruct x as [[[] | [] | | [] mx ex] |]; cbn; congruence.
Qed.

Lemma Math_min_100_sign (y : Binary64.number) :
  signbit64 y = false ->
  signbit64 (Binary64.Math_min (Binary64.of_Z 100) y) = false.
Proof.
  intros Hy. rewrite of_Z_100. unfold Binary64.Math_min.
  destruct (SFcompare _ y) as [[] |]; try reflexivity; exact Hy.
Qed.

Lemma Math_max_0_sign (y : Binary64.number) :
  signbit64 (Binary64.Math_max (Binary64.of_Z 0) y) = false.
Proof.
  rewrite of_Z_0.
  destruct y as [[] | [] | | [] my ey]; reflexivity.
Qed.

(** An ROI score never has its sign bit set off the margin branch, or on
    it when the revenue is not positive or the margin not negative. *)
Lemma roi64_sign (p : Binary64.Placement) (a : Binary64.Attribution) :
  signbit64 (Binary64.calculateROIScore (Obj p) (Obj a)) = true ->
  Binary64.strict_eq (totalCost64 a) (Binary64.of_Z 0) = true
  /\ Binary64.gt (Binary64.or_zero (Binary64.revenue p)) (Binary64.of_Z 0) = true
  /\ Binary64.lt (Binary64.or_zero (Binary64.margin p)) (Binary64.of_Z 0) = true.
Proof.
  unfold Binary64.calculateROIScore, totalCost64.
  cbn [with_default mbind completion_bind try_catch mret completion_ret].
  destruct (Binary64.strict_eq _ (Binary64.of_Z 0));
    cbn [try_catch mret completion_ret].
  - destruct (Binary64.gt (Binary64.or_zero (Binary64.revenue p)) (Binary64.of_Z 0))
      eqn:Hrev.
    + destruct (Binary64.lt (Binary64.or_zero (Binary64.margin p)) (Binary64.of_Z 0))
        eqn:Hmargin; [auto |].
      intros Hs. exfalso.
      rewrite Math_min_100_sign in Hs; [discriminate |].
      apply Math_round_sign, mul_sign; [| rewrite of_Z_2; reflexivity].
      apply mul_sign; [| rewrite of_Z_100; reflexivity].
      apply div_sign; [apply or_zero_sign, Hmargin | apply gt_0_sign, Hrev].
    + intros Hs. exfalso.
      rewrite Math_min_100_sign in Hs; [discriminate |].
      apply Math_round_sign, mul_sign; [reflexivity | rewrite of_Z_2; reflexivity].
  - intros Hs. exfalso.
    rewrite Math_min_100_sign in Hs; [discriminate | apply Math_max_0_sign].
Qed.

End Signs.

(** X24. In binary64 arithmetic the ROI score is negative only on the
    margin branch: only when the costs add up to zero, the revenue is
    positive and the margin is negative. *)
Theorem roi_score_negative_only_on_margin
    (p : Binary64.Placement) (a : Binary64.Attribution) :
  Binary64.lt (Binary64.calculateROIScore (Obj p) (Obj a)) (Binary64.of_Z 0) = true ->
  Binary64.strict_eq (totalCost64 a) (Binary64.of_Z 0) = true
  /\ Binary64.gt (Binary64.or_zero (Binary64.revenue p)) (Binary64.of_Z 0) = true
  /\ Binary64.lt (Binary64.or_zero (Binary64.margin p)) (Binary64.of_Z 0) = true.
Proof.
  intros Hneg. apply roi64_sign.
  destruct (signbit64 (Binary64.calculateROIScore (Obj p) (Obj a))) eqn:E;
    [reflexivity |].
  rewrite (lt_0_sign _ E) in Hneg. discriminate.
Qed.

Lemma roi_score_negative_only_on_margin_witness :
  Binary64.calculateROIScore (Obj (earning64 10000 (-2000)))
                             (Obj Binary64.empty_attribution)
  = Binary64.of_Z (-40)
  /\ Binary64.lt (Binary64.or_zero (Binary64.margin (earning64 10000 (-2000))))
                 (Binary64.of_Z 0) = true.
Proof.
  split; [vm_compute; reflexivity |].
  apply (roi_score_negative_only_on_margin (earning64 10000 (-2000))
           Binary64.empty_attribution).
  vm_compute. reflexivity.
Defined.
